(** * AudioLens client: caption building, playback sync, polling, resume

    A shallow embedding of [frontend/app.js].  The repository carries two
    revisions of that script: the caption-overlay revision (one caption line
    shown over the PDF) and the caption-panel revision (a scrolling list of
    caption lines).  Both are embedded, in [Module Overlay] and
    [Module Panel]; the code they share textually (the scan loop of
    [synccaptions] and the text/bounds computation of [buildcaptions]) is
    embedded once.

    JavaScript numbers are IEEE-754 binary64 values: they are modelled by
    [spec_float] with the binary64 operations of [SpecFloat], so NaN,
    signed zeros, infinities and rounding behave as in the browser.
    JavaScript strings are sequences of UTF-16 code units, modelled as
    [list N]. *)

From Stdlib Require Import ZArith NArith List Bool Lia String Ascii SpecFloat.
From stdpp Require Import base option list gmap.

Open Scope Z_scope.

(** ** JavaScript values *)

Module JS.

(** *** Numbers *)

Definition number := spec_float.

Definition prec : Z := 53.
Definition emax : Z := 1024.

Definition NaN : number := S754_nan.

(** [x + y] on numbers. *)
Definition add (x y : number) : number := SFadd prec emax x y.

(** The relational operators.  A comparison with NaN is false. *)
Definition lt (x y : number) : bool := SFltb x y.
Definition le (x y : number) : bool := SFleb x y.
Definition gt (x y : number) : bool := SFltb y x.
Definition ge (x y : number) : bool := SFleb y x.

Definition is_finite (x : number) : bool :=
  match x with
  | S754_zero _ | S754_finite _ _ _ => true
  | S754_infinity _ | S754_nan => false
  end.

(** The number denoted by the decimal numeral [(-1)^neg * m * 10^e10],
    rounded to the nearest binary64 value, ties to even. *)
Definition decimal (neg : bool) (m : N) (e10 : Z) : number :=
  match m with
  | N0 => S754_zero neg
  | Npos p =>
      match e10 with
      | Zneg k =>
          SFdiv prec emax (S754_finite neg p 0)
                          (S754_finite false (Pos.pow 10 k) 0)
      | _ =>
          binary_normalize prec emax
            ((if neg then Zneg p else Zpos p) * 10 ^ e10) 0 false
      end
  end.

(** A numeric literal of the script: [lit 15 (-2)] is [0.15]. *)
Definition lit (m : Z) (e10 : Z) : number :=
  decimal (m <? 0) (Z.abs_N m) e10.

(** *** Strings *)

Abbreviation jsstring := (list N).

Fixpoint str (s : string) : jsstring :=
  match s with
  | EmptyString => []
  | String a s' => N_of_ascii a :: str s'
  end.

(** WhiteSpace and LineTerminator code units, the ones [trim] and
    [parseFloat] strip. *)
Definition is_white_space (c : N) : bool :=
  ((9 <=? c) && (c <=? 13) || (c =? 32) || (c =? 160) || (c =? 5760)
   || (8192 <=? c) && (c <=? 8202) || (c =? 8232) || (c =? 8233)
   || (c =? 8239) || (c =? 8287) || (c =? 12288) || (c =? 65279))%N.

Fixpoint trimStart (s : jsstring) : jsstring :=
  match s with
  | [] => []
  | c :: s' => if is_white_space c then trimStart s' else s
  end.

Definition trimEnd (s : jsstring) : jsstring := rev (trimStart (rev s)).

(** [s.trim()] *)
Definition trim (s : jsstring) : jsstring := trimEnd (trimStart s).

(** [l.join(sep)] on an array of strings. *)
Fixpoint join (sep : jsstring) (l : list jsstring) : jsstring :=
  match l with
  | [] => []
  | [x] => x
  | x :: l' => x ++ sep ++ join sep l'
  end.

(** [s.includes(c)] for a one-unit needle. *)
Definition includes (s : jsstring) (c : N) : bool := existsb (N.eqb c) s.

(** A string is truthy when it is not empty. *)
Definition truthy (s : jsstring) : bool :=
  match s with [] => false | _ :: _ => true end.

Definition string_eqb (a b : jsstring) : bool := bool_decide (a = b).

(** *** parseFloat

    [parseFloat(s)] strips leading white space and reads the longest
    prefix that is a StrDecimalLiteral: an optional sign, then either
    [Infinity] or decimal digits with an optional fraction and an
    optional exponent.  No such prefix gives NaN. *)

Definition digit (c : N) : option N :=
  if ((48 <=? c) && (c <=? 57))%N then Some (c - 48)%N else None.

(** Reads decimal digits: the value read on top of [acc], how many
    digits were read, and the rest of the input. *)
Fixpoint digits (s : jsstring) (acc : N) (n : nat) : N * nat * jsstring :=
  match s with
  | [] => (acc, n, [])
  | c :: s' =>
      match digit c with
      | Some d => digits s' (acc * 10 + d)%N (S n)
      | None => (acc, n, s)
      end
  end.

Fixpoint starts_with (p s : jsstring) : bool :=
  match p, s with
  | [], _ => true
  | a :: p', b :: s' => (a =? b)%N && starts_with p' s'
  | _ :: _, [] => false
  end.

(** The ExponentPart at the head of [s], when there is one. *)
Definition exponent (s : jsstring) : Z :=
  match s with
  | c :: s1 =>
      if ((c =? 101) || (c =? 69))%N then
        let '(neg, s2) :=
          match s1 with
          | 43%N :: r => (false, r)
          | 45%N :: r => (true, r)
          | _ => (false, s1)
          end in
        let '(e, n, _) := digits s2 0%N 0%nat in
        match n with
        | O => 0
        | S _ => if neg then - Z.of_N e else Z.of_N e
        end
      else 0
  | [] => 0
  end.

Definition parseFloat (input : jsstring) : number :=
  let s0 := trimStart input in
  let '(neg, s1) :=
    match s0 with
    | 43%N :: r => (false, r)
    | 45%N :: r => (true, r)
    | _ => (false, s0)
    end in
  if starts_with (str "Infinity") s1 then S754_infinity neg
  else
    let '(mi, ni, s2) := digits s1 0%N 0%nat in
    match s2 with
    | 46%N :: s3 =>
        let '(m, nf, s4) := digits s3 mi 0%nat in
        match ni, nf with
        | O, O => NaN
        | _, _ => decimal neg m (exponent s4 - Z.of_nat nf)
        end
    | _ =>
        match ni with
        | O => NaN
        | S _ => decimal neg mi (exponent s2)
        end
    end.

End JS.

Import JS.

(** ** The transcript served with a completed job

    [{segments: [{text?, start, end, words?: [{word, start, end}]}]}].
    Optional members are [option]s; a numeric member that is missing reads
    as [undefined], which every comparison treats as NaN. *)

Record Word := {
  word : jsstring;
  w_start : number;
  w_end : number
}.

Record RawSegment := {
  raw_text : option jsstring;
  raw_start : number;
  raw_end : number;
  words : option (list Word)
}.

Record Transcript := {
  t_segments : option (list RawSegment)
}.

(** The body of [GET /status/{job_id}] as the poll callback reads it. *)
Record StatusDoc := {
  d_status : jsstring;
  pdf_url : jsstring;
  audio_url : jsstring;
  transcript : option Transcript;
  title : option jsstring
}.

(** What [await fetch(...).catch(() => null)] followed by
    [await res.json()] can deliver: a rejected fetch, or a response with
    its [ok] flag and its body ([None] when the body is not JSON, so that
    [res.json()] rejects and the callback stops there). *)
Inductive FetchResult :=
| NetworkError
| HttpResponse (ok : bool) (body : option StatusDoc).

(** ** Code shared by the two revisions *)

(** [buildcaptions], per raw segment:
<<
    const hasW = seg.words?.length > 0;
    const text = (hasW ? seg.words.map(w => w.word.trim()).join(' ')
                       : seg.text || '').trim();
    const start = hasW ? seg.words[0].start : seg.start;
    const end = hasW ? seg.words.at(-1).end : seg.end;
>> *)
Definition hasW (seg : RawSegment) : bool :=
  match words seg with
  | Some (_ :: _) => true
  | _ => false
  end.

(** The text before the outer [.trim()]. *)
Definition reconstructed (seg : RawSegment) : jsstring :=
  if hasW seg
  then join (str " ") (map (fun w => trim (word w)) (default [] (words seg)))
  else default [] (raw_text seg).

Definition caption_text (seg : RawSegment) : jsstring :=
  trim (reconstructed seg).

(** [seg.words[0].start] and [seg.words.at(-1).end] are read only when
    [hasW] holds, that is on a non-empty word list. *)
Definition caption_start (seg : RawSegment) : number :=
  if hasW seg
  then match words seg with
       | Some (w :: _) => w_start w
       | _ => NaN
       end
  else raw_start seg.

Definition caption_end (seg : RawSegment) : number :=
  if hasW seg
  then match words seg with
       | Some (w :: ws) => w_end (List.last ws w)
       | _ => NaN
       end
  else raw_end seg.

(** Anything with a [start] and an [end]: the overlay's segments and the
    panel's lines. *)
Class Timed (A : Type) := {
  start : A -> number;
  end_ : A -> number
}.

(** The lead added to the playback clock before matching. *)
Definition lead_bias : number := lit 15 (-2).

(** The scan of [synccaptions], from index [i] on:
<<
    let idx = -1;
    for (let i = 0; i < segments.length; i++) {
        if (t >= segments[i].start && t <= segments[i].end) { idx = i; break; }
        if (segments[i].start > t) break;
    }
>> *)
Fixpoint scan_from {A} `{Timed A} (i : Z) (segments : list A) (t : number) : Z :=
  match segments with
  | [] => -1
  | s :: rest =>
      if ge t (start s) && le t (end_ s) then i
      else if gt (start s) t then -1
      else scan_from (i + 1) rest t
  end.

Definition scan {A} `{Timed A} (segments : list A) (t : number) : Z :=
  scan_from 0 segments t.

(** [setStatus(text, type)]: the text and the class name of the status
    line. *)
Definition status_line (text type : jsstring) : jsstring * jsstring :=
  (text, str "status-msg " ++ type).

(** ** The caption-overlay revision *)

Module Overlay.

Record Segment := {
  text : jsstring;
  seg_start : number;
  seg_end : number
}.

#[global] Instance Segment_Timed : Timed Segment :=
  {| start := seg_start; end_ := seg_end |}.

(** The reader view: what [show] makes visible and loads. *)
Record Reader := {
  landingPage_hidden : bool;
  topBar_hidden : bool;
  mainContent_shown : bool;
  pdfPanel_shown : bool;
  panelToggles_shown : bool;
  pdfFrame_src : jsstring;
  pdfFrame_shown : bool;
  audio_src : jsstring;
  audioBar_shown : bool
}.

(** The page before any job was opened. *)
Definition landing : Reader :=
  {| landingPage_hidden := false; topBar_hidden := false;
     mainContent_shown := false; pdfPanel_shown := false;
     panelToggles_shown := false; pdfFrame_src := [];
     pdfFrame_shown := false; audio_src := []; audioBar_shown := false |}.

(** The script's variables and the part of the page it drives.  [poll]
    is the job polled by the live interval timer, [None] once cleared;
    [currentTime] is the playback position of the audio element as the
    script reads it. *)
Record Client := {
  poll : option jsstring;
  segments : list Segment;
  activeIdx : Z;
  currentJobId : option jsstring;
  captionsVisible : bool;
  audioPathName : jsstring;
  statusMsg : jsstring * jsstring;
  uploadBtn_disabled : bool;
  uploadBtn_loading : bool;
  captionText : jsstring;
  reader : Reader;
  currentTime : number;
  localStorage : gmap jsstring jsstring
}.

Definition set_poll (v : option jsstring) (c : Client) : Client :=
  Build_Client v (segments c) (activeIdx c) (currentJobId c)
    (captionsVisible c) (audioPathName c) (statusMsg c)
    (uploadBtn_disabled c) (uploadBtn_loading c) (captionText c) (reader c)
    (currentTime c) (localStorage c).

Definition set_captions (segs : list Segment) (idx : Z) (txt : jsstring)
    (c : Client) : Client :=
  Build_Client (poll c) segs idx (currentJobId c)
    (captionsVisible c) (audioPathName c) (statusMsg c)
    (uploadBtn_disabled c) (uploadBtn_loading c) txt (reader c)
    (currentTime c) (localStorage c).

Definition set_currentJobId (v : option jsstring) (c : Client) : Client :=
  Build_Client (poll c) (segments c) (activeIdx c) v
    (captionsVisible c) (audioPathName c) (statusMsg c)
    (uploadBtn_disabled c) (uploadBtn_loading c) (captionText c) (reader c)
    (currentTime c) (localStorage c).

Definition set_audioPathName (v : jsstring) (c : Client) : Client :=
  Build_Client (poll c) (segments c) (activeIdx c) (currentJobId c)
    (captionsVisible c) v (statusMsg c)
    (uploadBtn_disabled c) (uploadBtn_loading c) (captionText c) (reader c)
    (currentTime c) (localStorage c).

Definition set_statusMsg (v : jsstring * jsstring) (c : Client) : Client :=
  Build_Client (poll c) (segments c) (activeIdx c) (currentJobId c)
    (captionsVisible c) (audioPathName c) v
    (uploadBtn_disabled c) (uploadBtn_loading c) (captionText c) (reader c)
    (currentTime c) (localStorage c).

Definition set_uploadBtn (disabled loading : bool) (c : Client) : Client :=
  Build_Client (poll c) (segments c) (activeIdx c) (currentJobId c)
    (captionsVisible c) (audioPathName c) (statusMsg c)
    disabled loading (captionText c) (reader c)
    (currentTime c) (localStorage c).

Definition set_reader (v : Reader) (c : Client) : Client :=
  Build_Client (poll c) (segments c) (activeIdx c) (currentJobId c)
    (captionsVisible c) (audioPathName c) (statusMsg c)
    (uploadBtn_disabled c) (uploadBtn_loading c) (captionText c) v
    (currentTime c) (localStorage c).

Definition set_currentTime (v : number) (c : Client) : Client :=
  Build_Client (poll c) (segments c) (activeIdx c) (currentJobId c)
    (captionsVisible c) (audioPathName c) (statusMsg c)
    (uploadBtn_disabled c) (uploadBtn_loading c) (captionText c) (reader c)
    v (localStorage c).

Definition set_localStorage (v : gmap jsstring jsstring) (c : Client) : Client :=
  Build_Client (poll c) (segments c) (activeIdx c) (currentJobId c)
    (captionsVisible c) (audioPathName c) (statusMsg c)
    (uploadBtn_disabled c) (uploadBtn_loading c) (captionText c) (reader c)
    (currentTime c) v.

(** A client with no job opened, over the given storage;
    [captionsVisible] is on unless it was stored as ['false']. *)
Definition blank (storage : gmap jsstring jsstring) : Client :=
  {| poll := None; segments := []; activeIdx := -1; currentJobId := None;
     captionsVisible :=
       negb (bool_decide (storage !! str "panelCaptionsVisible" = Some (str "false")));
     audioPathName := []; statusMsg := ([], []);
     uploadBtn_disabled := true; uploadBtn_loading := false;
     captionText := []; reader := landing;
     currentTime := S754_zero false; localStorage := storage |}.

(** The [for (const seg of data.segments)] loop of [buildcaptions]:
    [segments] is the array built so far, [push] appends to it. *)
Fixpoint push_captions (raw : list RawSegment) (segments : list Segment)
    : list Segment :=
  match raw with
  | [] => segments
  | seg :: rest =>
      let text := caption_text seg in
      if negb (truthy text) then push_captions rest segments
      else
        push_captions rest
          (segments ++ [ {| text := text; seg_start := caption_start seg;
                            seg_end := caption_end seg |} ])
  end.

(** [buildcaptions(data)] *)
Definition buildcaptions (data : option Transcript) (c : Client) : Client :=
  match data with
  | Some {| t_segments := Some raw |} =>
      set_captions (push_captions raw []) (-1) [] c
  | _ => set_captions [] (-1) [] c
  end.

(** [applyPanelVisibility()]: shows the toggles and stores the caption
    preference. *)
Definition applyPanelVisibility (c : Client) : Client :=
  set_localStorage
    (<[ str "panelCaptionsVisible" :=
        str (if captionsVisible c then "true" else "false") ]>
       (localStorage c)) c.

(** [show(pdfUrl, audioUrl, transcript, title)] *)
Definition show (pdfUrl audioUrl : jsstring) (transcript : option Transcript)
    (title : option jsstring) (c : Client) : Client :=
  let paramStr := if includes pdfUrl 35%N then str "&" else str "#" in
  buildcaptions transcript
    (set_reader
       {| landingPage_hidden := true; topBar_hidden := true;
          mainContent_shown := true; pdfPanel_shown := true;
          panelToggles_shown := true;
          pdfFrame_src := pdfUrl ++ paramStr ++ str "pageLayout=TwoPageRight&view=Fit";
          pdfFrame_shown := true;
          audio_src := audioUrl; audioBar_shown := true |}
       (applyPanelVisibility c)).

(** [startPoll(id)]: the old timer is cleared and a new one polls [id]. *)
Definition startPoll (id : jsstring) (c : Client) : Client :=
  set_poll (Some id) c.

Definition clearInterval (c : Client) : Client := set_poll None c.

(** The callback of the interval timer, from the point where the status
    request has settled. *)
Definition poll_callback (id : jsstring) (res : FetchResult) (c : Client)
    : Client :=
  match res with
  | HttpResponse true (Some d) =>
      if string_eqb (d_status d) (str "completed") then
        show (pdf_url d) (audio_url d) (transcript d) (title d)
          (set_currentJobId (Some id)
             (set_uploadBtn false false
                (set_statusMsg (status_line (str "Ready") (str "ready"))
                   (clearInterval c))))
      else if string_eqb (d_status d) (str "error") then
        set_uploadBtn false false
          (set_statusMsg (status_line (str "Error") (str "error"))
             (clearInterval c))
      else c
  | _ => c
  end.

(** One firing of the interval timer: nothing fires once it is cleared. *)
Definition tick (res : FetchResult) (c : Client) : Client :=
  match poll c with
  | Some id => poll_callback id res c
  | None => c
  end.

(** A polling session: the timer fires once per settled status request. *)
Definition polling (responses : list FetchResult) (c : Client) : Client :=
  fold_left (fun c res => tick res c) responses c.

(** Callbacks that settle one after the other whether or not the timer
    is still set: a status request already sent when the timer is cleared
    still runs its callback. *)
Definition settled (id : jsstring) (responses : list FetchResult) (c : Client)
    : Client :=
  fold_left (fun c res => poll_callback id res c) responses c.

(** The index a frame of [synccaptions] computes; [None] when the frame
    returns before the scan ([!segments.length || !captionsVisible]). *)
Definition frame_index (c : Client) : option Z :=
  if (length (segments c) =? 0)%nat || negb (captionsVisible c) then None
  else Some (scan (segments c) (add (currentTime c) lead_bias)).

(** [segments[idx].text]; [idx] comes from the scan and is in range. *)
Definition text_at (segments : list Segment) (idx : Z) : jsstring :=
  default [] (text <$> segments !! Z.to_nat idx).

(** One frame of [synccaptions]. *)
Definition synccaptions (c : Client) : Client :=
  match frame_index c with
  | None => c
  | Some idx =>
      if negb (idx =? activeIdx c) then
        set_captions (segments c) idx
          (if negb (idx =? -1) then text_at (segments c) idx else []) c
      else c
  end.

(** [audioPlayer.currentTime = v]: a non-finite value is a TypeError. *)
Definition seek (v : number) (c : Client) : option Client :=
  if is_finite v then Some (set_currentTime v c) else None.

Section Browser.

(** [new URL(src).pathname], computed by the browser. *)
Variable pathname : jsstring -> jsstring.

(** The [loadedmetadata] handler.  When the assignment to [currentTime]
    throws, the handler ends there. *)
Definition loadedmetadata (c : Client) : Client :=
  let c := set_audioPathName (pathname (audio_src (reader c))) c in
  match localStorage c !! (str "pos_" ++ audioPathName c) with
  | Some savedTime =>
      if truthy savedTime && gt (parseFloat savedTime) (lit 2 0) then
        match seek (parseFloat savedTime) c with
        | Some c' => c'
        | None => c
        end
      else c
  | None => c
  end.

End Browser.

End Overlay.

(** ** The caption-panel revision *)

Module Panel.

(** A caption line's [div]: its identity (two elements are the same
    object when their ids agree), its text and the two classes the sync
    loop toggles.  The timestamp badge and the click-to-seek handler of
    the element hold nothing the sync loop reads. *)
Record Element := {
  el_id : nat;
  textContent : jsstring;
  active : bool;
  near : bool
}.

Record Line := {
  el : Element;
  line_start : number;
  line_end : number
}.

#[global] Instance Line_Timed : Timed Line :=
  {| start := line_start; end_ := line_end |}.

Record Reader := {
  historyBar_hidden : bool;
  topBar_hidden : bool;
  panelToggles_shown : bool;
  pdfFrame_src : jsstring;
  pdfFrame_shown : bool;
  audio_src : jsstring;
  audioBar_shown : bool;
  trackTitle : jsstring
}.

Definition landing : Reader :=
  {| historyBar_hidden := false; topBar_hidden := false;
     panelToggles_shown := false; pdfFrame_src := [];
     pdfFrame_shown := false; audio_src := []; audioBar_shown := false;
     trackTitle := [] |}.

(** [activeLine] holds the id of the element it refers to; [created]
    counts the elements made so far, so that each new one is fresh;
    [scrolledTo] is the element the panel was last scrolled to. *)
Record Client := {
  poll : option jsstring;
  lines : list Line;
  activeLine : option nat;
  currentJobId : option jsstring;
  pdfVisible : bool;
  captionsVisible : bool;
  audioPathName : jsstring;
  created : nat;
  statusMsg : jsstring * jsstring;
  uploadBtn_disabled : bool;
  uploadBtn_loading : bool;
  scrolledTo : option nat;
  reader : Reader;
  currentTime : number;
  localStorage : gmap jsstring jsstring
}.

Definition set_poll (v : option jsstring) (c : Client) : Client :=
  Build_Client v (lines c) (activeLine c) (currentJobId c) (pdfVisible c)
    (captionsVisible c) (audioPathName c) (created c) (statusMsg c)
    (uploadBtn_disabled c) (uploadBtn_loading c) (scrolledTo c) (reader c)
    (currentTime c) (localStorage c).

Definition set_lines (ls : list Line) (n : nat) (c : Client) : Client :=
  Build_Client (poll c) ls (activeLine c) (currentJobId c) (pdfVisible c)
    (captionsVisible c) (audioPathName c) n (statusMsg c)
    (uploadBtn_disabled c) (uploadBtn_loading c) (scrolledTo c) (reader c)
    (currentTime c) (localStorage c).

Definition set_highlight (ls : list Line) (a : option nat) (scroll : option nat)
    (c : Client) : Client :=
  Build_Client (poll c) ls a (currentJobId c) (pdfVisible c)
    (captionsVisible c) (audioPathName c) (created c) (statusMsg c)
    (uploadBtn_disabled c) (uploadBtn_loading c) scroll (reader c)
    (currentTime c) (localStorage c).

Definition set_currentJobId (v : option jsstring) (c : Client) : Client :=
  Build_Client (poll c) (lines c) (activeLine c) v (pdfVisible c)
    (captionsVisible c) (audioPathName c) (created c) (statusMsg c)
    (uploadBtn_disabled c) (uploadBtn_loading c) (scrolledTo c) (reader c)
    (currentTime c) (localStorage c).

Definition set_audioPathName (v : jsstring) (c : Client) : Client :=
  Build_Client (poll c) (lines c) (activeLine c) (currentJobId c) (pdfVisible c)
    (captionsVisible c) v (created c) (statusMsg c)
    (uploadBtn_disabled c) (uploadBtn_loading c) (scrolledTo c) (reader c)
    (currentTime c) (localStorage c).

Definition set_statusMsg (v : jsstring * jsstring) (c : Client) : Client :=
  Build_Client (poll c) (lines c) (activeLine c) (currentJobId c) (pdfVisible c)
    (captionsVisible c) (audioPathName c) (created c) v
    (uploadBtn_disabled c) (uploadBtn_loading c) (scrolledTo c) (reader c)
    (currentTime c) (localStorage c).

Definition set_uploadBtn (disabled loading : bool) (c : Client) : Client :=
  Build_Client (poll c) (lines c) (activeLine c) (currentJobId c) (pdfVisible c)
    (captionsVisible c) (audioPathName c) (created c) (statusMsg c)
    disabled loading (scrolledTo c) (reader c)
    (currentTime c) (localStorage c).

Definition set_reader (v : Reader) (c : Client) : Client :=
  Build_Client (poll c) (lines c) (activeLine c) (currentJobId c) (pdfVisible c)
    (captionsVisible c) (audioPathName c) (created c) (statusMsg c)
    (uploadBtn_disabled c) (uploadBtn_loading c) (scrolledTo c) v
    (currentTime c) (localStorage c).

Definition set_currentTime (v : number) (c : Client) : Client :=
  Build_Client (poll c) (lines c) (activeLine c) (currentJobId c) (pdfVisible c)
    (captionsVisible c) (audioPathName c) (created c) (statusMsg c)
    (uploadBtn_disabled c) (uploadBtn_loading c) (scrolledTo c) (reader c)
    v (localStorage c).

Definition set_localStorage (v : gmap jsstring jsstring) (c : Client) : Client :=
  Build_Client (poll c) (lines c) (activeLine c) (currentJobId c) (pdfVisible c)
    (captionsVisible c) (audioPathName c) (created c) (statusMsg c)
    (uploadBtn_disabled c) (uploadBtn_loading c) (scrolledTo c) (reader c)
    (currentTime c) v.

(** A client with no job opened, over the given storage. *)
Definition blank (storage : gmap jsstring jsstring) : Client :=
  {| poll := None; lines := []; activeLine := None; currentJobId := None;
     pdfVisible :=
       negb (bool_decide (storage !! str "panelPdfVisible" = Some (str "false")));
     captionsVisible :=
       negb (bool_decide (storage !! str "panelCaptionsVisible" = Some (str "false")));
     audioPathName := []; created := 0%nat; statusMsg := ([], []);
     uploadBtn_disabled := true; uploadBtn_loading := false;
     scrolledTo := None; reader := landing;
     currentTime := S754_zero false; localStorage := storage |}.

(** The loop of [buildcaptions]: every kept segment gets a new element
    ([document.createElement('div')], numbered [next]) and a line. *)
Fixpoint push_lines (raw : list RawSegment) (lines : list Line) (next : nat)
    : list Line * nat :=
  match raw with
  | [] => (lines, next)
  | seg :: rest =>
      let text := caption_text seg in
      if negb (truthy text) then push_lines rest lines next
      else
        let el := {| el_id := next; textContent := text;
                     active := false; near := false |} in
        push_lines rest
          (lines ++ [ {| el := el; line_start := caption_start seg;
                         line_end := caption_end seg |} ])
          (S next)
  end.

(** [buildcaptions(data)]; [activeLine] is left as it is. *)
Definition buildcaptions (data : option Transcript) (c : Client) : Client :=
  match data with
  | Some {| t_segments := Some raw |} =>
      let '(ls, n) := push_lines raw [] (created c) in set_lines ls n c
  | _ => set_lines [] (created c) c
  end.

Definition applyPanelVisibility (c : Client) : Client :=
  set_localStorage
    (<[ str "panelCaptionsVisible" :=
        str (if captionsVisible c then "true" else "false") ]>
       (<[ str "panelPdfVisible" :=
           str (if pdfVisible c then "true" else "false") ]>
          (localStorage c))) c.

(** [show(pdfUrl, audioUrl, transcript, title)] *)
Definition show (pdfUrl audioUrl : jsstring) (transcript : option Transcript)
    (title : option jsstring) (c : Client) : Client :=
  let paramStr := if includes pdfUrl 35%N then str "&" else str "#" in
  buildcaptions transcript
    (set_reader
       {| historyBar_hidden := true; topBar_hidden := true;
          panelToggles_shown := true;
          pdfFrame_src := pdfUrl ++ paramStr ++ str "pageLayout=TwoPageRight&view=Fit";
          pdfFrame_shown := true;
          audio_src := audioUrl; audioBar_shown := true;
          trackTitle :=
            match title with
            | Some (u :: s) => u :: s
            | _ => str "Now Playing"
            end |}
       (applyPanelVisibility c)).

Definition startPoll (id : jsstring) (c : Client) : Client :=
  set_poll (Some id) c.

Definition clearInterval (c : Client) : Client := set_poll None c.

(** The callback of the interval timer; a completed job is also stored
    as [lastJobId]. *)
Definition poll_callback (id : jsstring) (res : FetchResult) (c : Client)
    : Client :=
  match res with
  | HttpResponse true (Some d) =>
      if string_eqb (d_status d) (str "completed") then
        let c1 :=
          set_currentJobId (Some id)
            (set_uploadBtn false false
               (set_statusMsg (status_line (str "Ready") (str "ready"))
                  (clearInterval c))) in
        show (pdf_url d) (audio_url d) (transcript d) (title d)
          (set_localStorage (<[ str "lastJobId" := id ]> (localStorage c1)) c1)
      else if string_eqb (d_status d) (str "error") then
        set_uploadBtn false false
          (set_statusMsg (status_line (str "Error") (str "error"))
             (clearInterval c))
      else c
  | _ => c
  end.

Definition tick (res : FetchResult) (c : Client) : Client :=
  match poll c with
  | Some id => poll_callback id res c
  | None => c
  end.

Definition polling (responses : list FetchResult) (c : Client) : Client :=
  fold_left (fun c res => tick res c) responses c.

Definition settled (id : jsstring) (responses : list FetchResult) (c : Client)
    : Client :=
  fold_left (fun c res => poll_callback id res c) responses c.

(** The index a frame computes; [None] when the frame returns before
    the scan ([!lines.length]). *)
Definition frame_index (c : Client) : option Z :=
  if (length (lines c) =? 0)%nat then None
  else Some (scan (lines c) (add (currentTime c) lead_bias)).

(** [l.el.classList.remove('active', 'near')] *)
Definition remove_marks (l : Line) : Line :=
  {| el := {| el_id := el_id (el l); textContent := textContent (el l);
              active := false; near := false |};
     line_start := line_start l; line_end := line_end l |}.

(** [l.el.classList.add('active')] *)
Definition add_active (l : Line) : Line :=
  {| el := {| el_id := el_id (el l); textContent := textContent (el l);
              active := true; near := near (el l) |};
     line_start := line_start l; line_end := line_end l |}.

(** [l.el.classList.add('near')] *)
Definition add_near (l : Line) : Line :=
  {| el := {| el_id := el_id (el l); textContent := textContent (el l);
              active := active (el l); near := true |};
     line_start := line_start l; line_end := line_end l |}.

(** [for (let o = -2; o <= 2; o++) { const j = idx + o;
      if (o && j >= 0 && j < lines.length) lines[j].el.classList.add('near'); }] *)
Definition mark_near (idx : Z) (lines : list Line) : list Line :=
  fold_left
    (fun ls o =>
       let j := idx + o in
       if negb (o =? 0) && (0 <=? j) && (j <? Z.of_nat (length ls))
       then alter add_near (Z.to_nat j) ls else ls)
    [-2; -1; 0; 1; 2] lines.

(** The element of [lines[idx]]; [idx] comes from the scan and is in
    range. *)
Definition element_at (lines : list Line) (idx : Z) : option nat :=
  (fun l => el_id (el l)) <$> lines !! Z.to_nat idx.

(** One frame of [synccaptions]. *)
Definition synccaptions (c : Client) : Client :=
  match frame_index c with
  | None => c
  | Some idx =>
      if negb (idx =? -1)
         && negb (bool_decide (activeLine c = element_at (lines c) idx))
      then
        set_highlight
          (mark_near idx
             (alter add_active (Z.to_nat idx) (remove_marks <$> lines c)))
          (element_at (lines c) idx) (element_at (lines c) idx) c
      else if (idx =? -1) && bool_decide (activeLine c <> None) then
        set_highlight (remove_marks <$> lines c) None (scrolledTo c) c
      else c
  end.

Definition seek (v : number) (c : Client) : option Client :=
  if is_finite v then Some (set_currentTime v c) else None.

Section Browser.

Variable pathname : jsstring -> jsstring.

(** The [loadedmetadata] handler: after a restored position one sync
    frame runs at once. *)
Definition loadedmetadata (c : Client) : Client :=
  let c := set_audioPathName (pathname (audio_src (reader c))) c in
  match localStorage c !! (str "pos_" ++ audioPathName c) with
  | Some savedTime =>
      if truthy savedTime && gt (parseFloat savedTime) (lit 2 0) then
        match seek (parseFloat savedTime) c with
        | Some c' => synccaptions c'
        | None => c
        end
      else c
  | None => c
  end.

End Browser.

End Panel.

(** ** Notions used in the statements *)

(** A segment qualifies at [t] when [start <= t <= end]. *)
Definition qualifies {A} `{Timed A} (t : number) (s : A) : bool :=
  ge t (start s) && le t (end_ s).

(** Start times are non-decreasing along the list. *)
Fixpoint starts_sorted {A} `{Timed A} (l : list A) : bool :=
  match l with
  | s1 :: rest =>
      match rest with
      | s2 :: _ => le (start s1) (start s2) && starts_sorted rest
      | [] => true
      end
  | [] => true
  end.

(** [idx] is the least index of a segment qualifying at [t], or [-1] when
    no segment qualifies. *)
Definition first_match {A} `{Timed A} (l : list A) (t : number) (idx : Z) : Prop :=
  (idx = -1 /\ forall i s, l !! i = Some s -> qualifies t s = false)
  \/ (exists i s, idx = Z.of_nat i /\ l !! i = Some s /\ qualifies t s = true
        /\ forall j s', (j < i)%nat -> l !! j = Some s' -> qualifies t s' = false).

(** The scan without the early exit, as the specification words it: the
    first segment with [start <= t <= end] over the whole list. *)
Fixpoint full_scan_from {A} `{Timed A} (i : Z) (segments : list A) (t : number) : Z :=
  match segments with
  | [] => -1
  | s :: rest =>
      if le (start s) t && le t (end_ s) then i
      else full_scan_from (i + 1) rest t
  end.

Definition full_scan {A} `{Timed A} (segments : list A) (t : number) : Z :=
  full_scan_from 0 segments t.

(** Time spans stand for themselves. *)
#[global] Instance span_Timed : Timed (number * number) :=
  {| start := fst; end_ := snd |}.

Definition span {A} `{Timed A} (s : A) : number * number := (start s, end_ s).

(** The time the scan of a frame uses when the clock reads [clock]. *)
Definition scan_time (clock : number) : number := add clock lead_bias.

Fixpoint nondecreasing (ts : list number) : bool :=
  match ts with
  | t1 :: rest =>
      match rest with
      | t2 :: _ => le t1 t2 && nondecreasing rest
      | [] => true
      end
  | [] => true
  end.

(** A string is blank when it holds white space only. *)
Definition blank_text (s : jsstring) : bool := forallb is_white_space s.

(** The captions [buildcaptions] keeps, as (text, start, end). *)
Definition kept (seg : RawSegment) : option (jsstring * number * number) :=
  if truthy (caption_text seg)
  then Some (caption_text seg, caption_start seg, caption_end seg)
  else None.

Definition captions_of (raw : list RawSegment) : list (jsstring * number * number) :=
  omap kept raw.

(** The status request settled with a readable body whose [status] is
    the given one. *)
Definition reports (status : jsstring) (res : FetchResult) : bool :=
  match res with
  | HttpResponse true (Some d) => string_eqb (d_status d) status
  | _ => false
  end.

(** Highlight changes seen between two frames: the segment that was
    active is left, the one that is active is entered. *)
Inductive Transition :=
| Exit (i : Z)
| Enter (i : Z).

Definition transitions (before after : Z) : list Transition :=
  if before =? after then []
  else (if before =? -1 then [] else [Exit before])
       ++ (if after =? -1 then [] else [Enter after]).

Fixpoint emitted (before : Z) (actives : list Z) : list Transition :=
  match actives with
  | [] => []
  | a :: rest => transitions before a ++ emitted a rest
  end.

(** Running an engine frame by frame: the clock reads the next value and
    one frame runs. *)
Section Engine.

Context {S : Type} (frame : number -> S -> S) (active : S -> Z).

Fixpoint trace (clocks : list number) (c : S) : list S :=
  match clocks with
  | [] => []
  | clock :: rest => let c' := frame clock c in c' :: trace rest c'
  end.

Definition emissions (clocks : list number) (c : S) : list Transition :=
  emitted (active c) (active <$> trace clocks c).

End Engine.

(** The order on numbers: every number other than NaN has a rank in the
    lexicographic order on triples of integers. *)
Definition is_nan (x : number) : bool :=
  match x with S754_nan => true | _ => false end.

(** [+0], a positive finite number or [+Infinity]. *)
Definition plus_signed (x : number) : bool :=
  match x with
  | S754_zero false | S754_finite false _ _ | S754_infinity false => true
  | _ => false
  end.

Definition rank (x : number) : Z * Z * Z :=
  match x with
  | S754_nan => (0, 0, 0)
  | S754_zero _ => (0, 0, 0)
  | S754_infinity s => (if s then -2 else 2, 0, 0)
  | S754_finite s m e => if s then (-1, - e, Zneg m) else (1, e, Zpos m)
  end.

Definition lex_lt (a b : Z * Z * Z) : Prop :=
  let '(a1, a2, a3) := a in
  let '(b1, b2, b3) := b in
  a1 < b1 \/ (a1 = b1 /\ (a2 < b2 \/ (a2 = b2 /\ a3 < b3))).

Definition lex_le (a b : Z * Z * Z) : Prop := lex_lt a b \/ a = b.

Module OverlayRun.
Import Overlay.

(** The clock reads [clock] and one frame runs. *)
Definition frame (clock : number) (c : Client) : Client :=
  synccaptions (set_currentTime clock c).

Definition captions (c : Client) : list (jsstring * number * number) :=
  (fun s => (text s, seg_start s, seg_end s)) <$> segments c.

(** What [show] leaves on the page and in the caption store. *)
Definition view (c : Client) : Reader * list Segment := (reader c, segments c).

End OverlayRun.

Module PanelRun.
Import Panel.

Definition frame (clock : number) (c : Client) : Client :=
  synccaptions (set_currentTime clock c).

Definition captions (c : Client) : list (jsstring * number * number) :=
  (fun l => (textContent (el l), line_start l, line_end l)) <$> lines c.

Definition view (c : Client) : Reader * list Line := (reader c, lines c).

Definition ids (ls : list Line) : list nat := (fun l => el_id (el l)) <$> ls.

Definition actives (ls : list Line) : list bool := (fun l => active (el l)) <$> ls.

(** The index of the line that carries the class [active], [-1] when
    none does. *)
Fixpoint first_active (i : Z) (flags : list bool) : Z :=
  match flags with
  | [] => -1
  | b :: rest => if b then i else first_active (i + 1) rest
  end.

Definition active_index (c : Client) : Z := first_active 0 (actives (lines c)).

(** The states the script can be in: elements are distinct and were
    created by the script, and the class [active] sits on the line
    [activeLine] refers to and on no other. *)
Record wf (c : Client) : Prop := {
  wf_nodup : NoDup (ids (lines c));
  wf_fresh : forall id, id ∈ ids (lines c) -> (id < created c)%nat;
  wf_stale : forall id, activeLine c = Some id -> (id < created c)%nat;
  wf_active : forall i l, lines c !! i = Some l ->
      (active (el l) = true <-> activeLine c = Some (el_id (el l)))
}.

End PanelRun.

(** ** The rest of the script: escaping, files, upload, preferences,
    playback controls *)

(** [esc(str)]: the text is put into a [span] as its [textContent] and
    read back as [innerHTML], which writes [&], [<], [>] and the no-break
    space as character references. *)
Definition esc_unit (c : N) : jsstring :=
  if (c =? 38)%N then str "&amp;"
  else if (c =? 60)%N then str "&lt;"
  else if (c =? 62)%N then str "&gt;"
  else if (c =? 160)%N then str "&nbsp;"
  else [c].

Fixpoint esc (s : jsstring) : jsstring :=
  match s with
  | [] => []
  | c :: s' => esc_unit c ++ esc s'
  end.

(** Raw segments are timed by the bounds [buildcaptions] gives their
    captions. *)
#[global] Instance RawSegment_Timed : Timed RawSegment :=
  {| start := caption_start; end_ := caption_end |}.

(** The two file inputs, each with the name of its [files[0]] when a file
    is chosen, and the labels and chips that echo the choice. *)
Record Chooser := {
  pdfFile : option jsstring;
  audioFile : option jsstring;
  pdfLabel : jsstring;
  audioLabel : jsstring;
  pdfChip_selected : bool;
  audioChip_selected : bool
}.

(** [pdfUpload.files[0] && audioUpload.files[0]] *)
Definition both_chosen (ch : Chooser) : bool :=
  match pdfFile ch, audioFile ch with
  | Some _, Some _ => true
  | _, _ => false
  end.

(** The [change] handlers of the inputs, up to [checkReady()]: the input
    now holds [file]. *)
Definition pdf_chosen (file : option jsstring) (ch : Chooser) : Chooser :=
  match file with
  | Some name =>
      {| pdfFile := file; audioFile := audioFile ch; pdfLabel := name;
         audioLabel := audioLabel ch; pdfChip_selected := true;
         audioChip_selected := audioChip_selected ch |}
  | None =>
      {| pdfFile := None; audioFile := audioFile ch; pdfLabel := pdfLabel ch;
         audioLabel := audioLabel ch; pdfChip_selected := pdfChip_selected ch;
         audioChip_selected := audioChip_selected ch |}
  end.

Definition audio_chosen (file : option jsstring) (ch : Chooser) : Chooser :=
  match file with
  | Some name =>
      {| pdfFile := pdfFile ch; audioFile := file; pdfLabel := pdfLabel ch;
         audioLabel := name; pdfChip_selected := pdfChip_selected ch;
         audioChip_selected := true |}
  | None =>
      {| pdfFile := pdfFile ch; audioFile := None; pdfLabel := pdfLabel ch;
         audioLabel := audioLabel ch; pdfChip_selected := pdfChip_selected ch;
         audioChip_selected := audioChip_selected ch |}
  end.

(** How [POST /upload] can end: the fetch rejects with an error, or a
    response arrives with its [ok] flag and [statusText]; reading its body
    as [{ job_id }] throws with a message or yields the member, which is
    [undefined] when the body has none. *)
Inductive UploadBody :=
| BadBody (message : jsstring)
| JobId (job_id : option jsstring).

Inductive UploadOutcome :=
| UploadRejected (message : jsstring)
| UploadAnswered (ok : bool) (statusText : jsstring) (body : UploadBody).

(** The id the poll is started with; [undefined] is spelled out in the
    status URL. *)
Definition polled_id (job_id : option jsstring) : jsstring :=
  default (str "undefined") job_id.

(** The audio element's controls and the script's preferences. *)
Record Player := {
  nightMode : bool;
  speedIdx : nat;
  playbackRate : number;
  paused : bool;
  volume : number;
  muted : bool;
  duration : number
}.

Definition set_nightMode (v : bool) (pl : Player) : Player :=
  {| nightMode := v; speedIdx := speedIdx pl; playbackRate := playbackRate pl;
     paused := paused pl; volume := volume pl; muted := muted pl;
     duration := duration pl |}.

Definition set_speed (i : nat) (rate : number) (pl : Player) : Player :=
  {| nightMode := nightMode pl; speedIdx := i; playbackRate := rate;
     paused := paused pl; volume := volume pl; muted := muted pl;
     duration := duration pl |}.

Definition set_paused (v : bool) (pl : Player) : Player :=
  {| nightMode := nightMode pl; speedIdx := speedIdx pl;
     playbackRate := playbackRate pl; paused := v; volume := volume pl;
     muted := muted pl; duration := duration pl |}.

Definition set_muted (v : bool) (pl : Player) : Player :=
  {| nightMode := nightMode pl; speedIdx := speedIdx pl;
     playbackRate := playbackRate pl; paused := paused pl; volume := volume pl;
     muted := v; duration := duration pl |}.

(** [audioPlayer.volume = v]: a value outside [0, 1] throws. *)
Definition set_volume (v : number) (pl : Player) : option Player :=
  if le (lit 0 0) v && le v (lit 1 0) then
    Some {| nightMode := nightMode pl; speedIdx := speedIdx pl;
            playbackRate := playbackRate pl; paused := paused pl; volume := v;
            muted := muted pl; duration := duration pl |}
  else None.

(** [const speeds = [0.75, 1, 1.25, 1.5, 1.75, 2]] *)
Definition speeds : list number :=
  [lit 75 (-2); lit 1 0; lit 125 (-2); lit 15 (-1); lit 175 (-2); lit 2 0].

(** The click handler of the speed button:
    [speedIdx = (speedIdx + 1) % speeds.length;
     audioPlayer.playbackRate = speeds[speedIdx]]. *)
Definition speed_click (pl : Player) : Player :=
  let i := ((speedIdx pl + 1) mod length speeds)%nat in
  set_speed i (default NaN (speeds !! i)) pl.

(** [Math.max(x, y)] and [Math.min(x, y)]: NaN when an argument is NaN;
    of the two zeros, [+0] is the larger. *)
Definition math_max (x y : number) : number :=
  if is_nan x || is_nan y then NaN
  else
    match x, y with
    | S754_zero true, S754_zero false => y
    | _, _ => if lt x y then y else x
    end.

Definition math_min (x y : number) : number :=
  if is_nan x || is_nan y then NaN
  else
    match x, y with
    | S754_zero false, S754_zero true => y
    | _, _ => if lt y x then y else x
    end.

(** The keys the shortcut handler reacts to, by [e.code]. *)
Inductive Key :=
| Space | ArrowLeft | ArrowRight | ArrowUp | ArrowDown
| KeyM | KeyS | KeyN | OtherKey.

(** The controls that do not involve the clock: play and pause, volume,
    mute, speed.  An assignment that throws ends the handler. *)
Definition control_key (k : Key) (pl : Player) : Player :=
  match k with
  | Space => set_paused (negb (paused pl)) pl
  | ArrowUp =>
      default pl (set_volume (math_min (lit 1 0) (add (volume pl) (lit 1 (-1)))) pl)
  | ArrowDown =>
      default pl
        (set_volume (math_max (lit 0 0) (SFsub prec emax (volume pl) (lit 1 (-1)))) pl)
  | KeyM => set_muted (negb (muted pl)) pl
  | KeyS => speed_click pl
  | _ => pl
  end.

(** The night-mode preference as stored: on when [pdfNightMode] is
    ['true']. *)
Definition stored_nightMode (storage : gmap jsstring jsstring) : bool :=
  bool_decide (storage !! str "pdfNightMode" = Some (str "true")).

Module OverlayPage.
Import Overlay.

Definition set_captionsVisible (v : bool) (c : Client) : Client :=
  Build_Client (poll c) (segments c) (activeIdx c) (currentJobId c)
    v (audioPathName c) (statusMsg c)
    (uploadBtn_disabled c) (uploadBtn_loading c) (captionText c) (reader c)
    (currentTime c) (localStorage c).

(** The page: the client with the file inputs, the player and the time
    of the last saved position ([saveThrottle], in milliseconds).  The
    toast that echoes a shortcut and the text of the speed button show
    state held elsewhere and are not kept. *)
Record Page := {
  client : Client;
  chooser : Chooser;
  player : Player;
  saveThrottle : Z
}.

Definition with_client (c : Client) (p : Page) : Page :=
  {| client := c; chooser := chooser p; player := player p;
     saveThrottle := saveThrottle p |}.

Definition with_player (pl : Player) (p : Page) : Page :=
  {| client := client p; chooser := chooser p; player := pl;
     saveThrottle := saveThrottle p |}.

(** [checkReady()] *)
Definition checkReady (ch : Chooser) (c : Client) : Client :=
  set_uploadBtn (negb (both_chosen ch)) (uploadBtn_loading c) c.

Definition pdf_change (file : option jsstring) (p : Page) : Page :=
  {| client := checkReady (pdf_chosen file (chooser p)) (client p);
     chooser := pdf_chosen file (chooser p); player := player p;
     saveThrottle := saveThrottle p |}.

Definition audio_change (file : option jsstring) (p : Page) : Page :=
  {| client := checkReady (audio_chosen file (chooser p)) (client p);
     chooser := audio_chosen file (chooser p); player := player p;
     saveThrottle := saveThrottle p |}.

(** The click handler of the upload button up to its [await fetch]:
    without both files it returns at once. *)
Definition upload_click (ch : Chooser) (c : Client) : Client :=
  if both_chosen ch then
    set_statusMsg (status_line (str "Uploading" ++ [8230%N]) (str "working"))
      (set_uploadBtn true true c)
  else c.

(** The [catch] branch: ['Upload failed — ' + (err.message || 'network error')]. *)
Definition upload_failed (message : jsstring) (c : Client) : Client :=
  set_uploadBtn false false
    (set_statusMsg
       (status_line
          (str "Upload failed " ++ [8212%N] ++ str " "
           ++ (if truthy message then message else str "network error"))
          (str "error")) c).

(** The handler once the request has ended: a response that is not [ok]
    throws its [statusText]. *)
Definition upload_settled (o : UploadOutcome) (c : Client) : Client :=
  match o with
  | UploadRejected message => upload_failed message c
  | UploadAnswered false statusText _ => upload_failed statusText c
  | UploadAnswered true _ (BadBody message) => upload_failed message c
  | UploadAnswered true _ (JobId job_id) =>
      startPoll (polled_id job_id)
        (set_statusMsg (status_line (str "Transcribing" ++ [8230%N]) (str "working")) c)
  end.

(** A click whose request ends with [o] before anything else happens. *)
Definition upload (o : UploadOutcome) (p : Page) : Page :=
  if both_chosen (chooser p)
  then with_client (upload_settled o (upload_click (chooser p) (client p))) p
  else p.

(** The click handler of a history item for the job [id]. *)
Definition history_click (id : jsstring) (c : Client) : Client :=
  startPoll id
    (set_statusMsg (status_line (str "Loading" ++ [8230%N]) (str "working"))
       (set_uploadBtn true true c)).

(** [panelToggles.style.display = 'flex'], the first line of
    [applyPanelVisibility()]. *)
Definition show_toggles (c : Client) : Client :=
  set_reader
    {| landingPage_hidden := landingPage_hidden (reader c);
       topBar_hidden := topBar_hidden (reader c);
       mainContent_shown := mainContent_shown (reader c);
       pdfPanel_shown := pdfPanel_shown (reader c);
       panelToggles_shown := true;
       pdfFrame_src := pdfFrame_src (reader c);
       pdfFrame_shown := pdfFrame_shown (reader c);
       audio_src := audio_src (reader c);
       audioBar_shown := audioBar_shown (reader c) |} c.

(** The click handler of the captions toggle. *)
Definition toggle_captions (c : Client) : Client :=
  show_toggles
    (applyPanelVisibility (set_captionsVisible (negb (captionsVisible c)) c)).

(** [applyNightMode()] stores the preference; the click handler flips it
    first. *)
Definition applyNightMode (p : Page) : Page :=
  with_client
    (set_localStorage
       (<[ str "pdfNightMode" := str (if nightMode (player p) then "true" else "false") ]>
          (localStorage (client p))) (client p)) p.

Definition night_click (p : Page) : Page :=
  applyNightMode (with_player (set_nightMode (negb (nightMode (player p))) (player p)) p).

(** The seeking shortcuts:
    [currentTime = Math.max(0, currentTime - 10)] and
    [currentTime = Math.min(isFinite(duration) ? duration : Infinity,
                            currentTime + 10)]. *)
Definition seek_back (c : Client) : Client :=
  default c
    (seek (math_max (lit 0 0) (SFsub prec emax (currentTime c) (lit 10 0))) c).

Definition seek_forward (dur : number) (c : Client) : Client :=
  default c
    (seek (math_min (if is_finite dur then dur else S754_infinity false)
                    (add (currentTime c) (lit 10 0))) c).

(** The [keydown] handler; [typing] tells that the target is an [INPUT]
    or a [TEXTAREA]. *)
Definition keydown (typing : bool) (k : Key) (p : Page) : Page :=
  if typing then p
  else
    match k with
    | ArrowLeft => with_client (seek_back (client p)) p
    | ArrowRight => with_client (seek_forward (duration (player p)) (client p)) p
    | KeyN => night_click p
    | _ => with_player (control_key k (player p)) p
    end.

Section Browser.

(** [new URL(src).pathname] and the text of a number, as the browser
    and the engine give them. *)
Variable pathname : jsstring -> jsstring.
Variable numberToString : number -> jsstring.

(** The [timeupdate] handler at [Date.now() = now]: at most one save in
    three seconds, and none at position 0 or without a source. *)
Definition timeupdate (now : Z) (p : Page) : Page :=
  if now - saveThrottle p <? 3000 then p
  else
    let c := client p in
    let c' :=
      if truthy (audio_src (reader c)) && gt (currentTime c) (lit 0 0) then
        let c1 :=
          if truthy (audioPathName c) then c
          else set_audioPathName (pathname (audio_src (reader c))) c in
        set_localStorage
          (<[ str "pos_" ++ audioPathName c1 := numberToString (currentTime c1) ]>
             (localStorage c1)) c1
      else c in
    {| client := c'; chooser := chooser p; player := player p;
       saveThrottle := now |}.

(** What can happen to the page, one thing at a time. *)
Inductive Event :=
| PdfChange (file : option jsstring)
| AudioChange (file : option jsstring)
| Upload (o : UploadOutcome)
| HistoryClick (id : jsstring)
| Tick (res : FetchResult)
| Frame (clock : number)
| LoadedMetadata
| TimeUpdate (now : Z)
| ToggleCaptions
| NightClick
| SpeedClick
| KeyDown (typing : bool) (k : Key).

Definition step (e : Event) (p : Page) : Page :=
  match e with
  | PdfChange file => pdf_change file p
  | AudioChange file => audio_change file p
  | Upload o => upload o p
  | HistoryClick id => with_client (history_click id (client p)) p
  | Tick res => with_client (tick res (client p)) p
  | Frame clock => with_client (synccaptions (set_currentTime clock (client p))) p
  | LoadedMetadata => with_client (loadedmetadata pathname (client p)) p
  | TimeUpdate now => timeupdate now p
  | ToggleCaptions => with_client (toggle_captions (client p)) p
  | NightClick => night_click p
  | SpeedClick => with_player (speed_click (player p)) p
  | KeyDown typing k => keydown typing k p
  end.

Definition run (events : list Event) (p : Page) : Page :=
  fold_left (fun p e => step e p) events p.

End Browser.

(** The caption shown is the text of the active segment, and nothing when
    no segment is active. *)
Definition caption_matches (c : Client) : Prop :=
  captionText c = if activeIdx c =? -1 then [] else text_at (segments c) (activeIdx c).

(** The active index is [-1] or the index of a segment. *)
Definition active_in_range (c : Client) : Prop :=
  activeIdx c = -1 \/ 0 <= activeIdx c < Z.of_nat (length (segments c)).

(** A reload would start with the preferences in effect: the script's
    initial values, read from the storage as it is now, are the current
    ones. *)
Definition reload_agrees (p : Page) : Prop :=
  captionsVisible (blank (localStorage (client p))) = captionsVisible (client p)
  /\ stored_nightMode (localStorage (client p)) = nightMode (player p).

End OverlayPage.

Module PanelPage.
Import Panel.

Definition set_visible (pdf captions : bool) (c : Client) : Client :=
  Build_Client (poll c) (lines c) (activeLine c) (currentJobId c) pdf
    captions (audioPathName c) (created c) (statusMsg c)
    (uploadBtn_disabled c) (uploadBtn_loading c) (scrolledTo c) (reader c)
    (currentTime c) (localStorage c).

Record Page := {
  client : Client;
  chooser : Chooser;
  player : Player
}.

Definition with_client (c : Client) (p : Page) : Page :=
  {| client := c; chooser := chooser p; player := player p |}.

Definition with_player (pl : Player) (p : Page) : Page :=
  {| client := client p; chooser := chooser p; player := pl |}.

Definition checkReady (ch : Chooser) (c : Client) : Client :=
  set_uploadBtn (negb (both_chosen ch)) (uploadBtn_loading c) c.

Definition pdf_change (file : option jsstring) (p : Page) : Page :=
  {| client := checkReady (pdf_chosen file (chooser p)) (client p);
     chooser := pdf_chosen file (chooser p); player := player p |}.

Definition audio_change (file : option jsstring) (p : Page) : Page :=
  {| client := checkReady (audio_chosen file (chooser p)) (client p);
     chooser := audio_chosen file (chooser p); player := player p |}.

Definition upload_click (ch : Chooser) (c : Client) : Client :=
  if both_chosen ch then
    set_statusMsg (status_line (str "Uploading" ++ [8230%N]) (str "working"))
      (set_uploadBtn true true c)
  else c.

(** The [catch] branch of this revision: ['Upload failed']. *)
Definition upload_failed (c : Client) : Client :=
  set_uploadBtn false false
    (set_statusMsg (status_line (str "Upload failed") (str "error")) c).

(** This revision reads the body of any response, [ok] or not. *)
Definition upload_settled (o : UploadOutcome) (c : Client) : Client :=
  match o with
  | UploadRejected _ => upload_failed c
  | UploadAnswered _ _ (BadBody _) => upload_failed c
  | UploadAnswered _ _ (JobId job_id) =>
      startPoll (polled_id job_id)
        (set_statusMsg (status_line (str "Transcribing" ++ [8230%N]) (str "working")) c)
  end.

Definition upload (o : UploadOutcome) (p : Page) : Page :=
  if both_chosen (chooser p)
  then with_client (upload_settled o (upload_click (chooser p) (client p))) p
  else p.

Definition history_click (id : jsstring) (c : Client) : Client :=
  startPoll id
    (set_statusMsg (status_line (str "Loading" ++ [8230%N]) (str "working"))
       (set_uploadBtn true true c)).

(** On load: [if (lastJobId) { setStatus('Restoring last session…',
    'working'); startPoll(lastJobId); }] *)
Definition restore_session (c : Client) : Client :=
  match localStorage c !! str "lastJobId" with
  | Some (u :: id) =>
      startPoll (u :: id)
        (set_statusMsg
           (status_line (str "Restoring last session" ++ [8230%N]) (str "working")) c)
  | _ => c
  end.

(** [panelToggles.style.display = 'flex'], the first line of
    [applyPanelVisibility()]. *)
Definition show_toggles (c : Client) : Client :=
  set_reader
    {| historyBar_hidden := historyBar_hidden (reader c);
       topBar_hidden := topBar_hidden (reader c);
       panelToggles_shown := true;
       pdfFrame_src := pdfFrame_src (reader c);
       pdfFrame_shown := pdfFrame_shown (reader c);
       audio_src := audio_src (reader c);
       audioBar_shown := audioBar_shown (reader c);
       trackTitle := trackTitle (reader c) |} c.

(** The click handlers of the two panel toggles: the only visible panel
    cannot be hidden. *)
Definition toggle_pdf (c : Client) : Client :=
  if pdfVisible c && negb (captionsVisible c) then c
  else
    show_toggles
      (applyPanelVisibility
         (set_visible (negb (pdfVisible c)) (captionsVisible c) c)).

Definition toggle_captions (c : Client) : Client :=
  if captionsVisible c && negb (pdfVisible c) then c
  else
    show_toggles
      (applyPanelVisibility
         (set_visible (pdfVisible c) (negb (captionsVisible c)) c)).

Definition applyNightMode (p : Page) : Page :=
  with_client
    (set_localStorage
       (<[ str "pdfNightMode" := str (if nightMode (player p) then "true" else "false") ]>
          (localStorage (client p))) (client p)) p.

Definition night_click (p : Page) : Page :=
  applyNightMode (with_player (set_nightMode (negb (nightMode (player p))) (player p)) p).

Definition seek_back (c : Client) : Client :=
  default c
    (seek (math_max (lit 0 0) (SFsub prec emax (currentTime c) (lit 10 0))) c).

(** [currentTime = Math.min(duration || 0, currentTime + 10)] *)
Definition seek_forward (dur : number) (c : Client) : Client :=
  default c
    (seek (math_min (if is_nan dur || SFeqb dur (lit 0 0) then lit 0 0 else dur)
                    (add (currentTime c) (lit 10 0))) c).

Definition keydown (typing : bool) (k : Key) (p : Page) : Page :=
  if typing then p
  else
    match k with
    | ArrowLeft => with_client (seek_back (client p)) p
    | ArrowRight => with_client (seek_forward (duration (player p)) (client p)) p
    | KeyN => night_click p
    | _ => with_player (control_key k (player p)) p
    end.

Section Browser.

Variable pathname : jsstring -> jsstring.
Variable numberToString : number -> jsstring.

(** The [timeupdate] handler of this revision saves on every event. *)
Definition timeupdate (c : Client) : Client :=
  if truthy (audio_src (reader c)) && gt (currentTime c) (lit 0 0) then
    let c1 :=
      if truthy (audioPathName c) then c
      else set_audioPathName (pathname (audio_src (reader c))) c in
    set_localStorage
      (<[ str "pos_" ++ audioPathName c1 := numberToString (currentTime c1) ]>
         (localStorage c1)) c1
  else c.

Inductive Event :=
| PdfChange (file : option jsstring)
| AudioChange (file : option jsstring)
| Upload (o : UploadOutcome)
| HistoryClick (id : jsstring)
| RestoreSession
| Tick (res : FetchResult)
| Frame (clock : number)
| LoadedMetadata
| TimeUpdate
| TogglePdf
| ToggleCaptions
| NightClick
| SpeedClick
| KeyDown (typing : bool) (k : Key).

Definition step (e : Event) (p : Page) : Page :=
  match e with
  | PdfChange file => pdf_change file p
  | AudioChange file => audio_change file p
  | Upload o => upload o p
  | HistoryClick id => with_client (history_click id (client p)) p
  | RestoreSession => with_client (restore_session (client p)) p
  | Tick res => with_client (tick res (client p)) p
  | Frame clock => with_client (synccaptions (set_currentTime clock (client p))) p
  | LoadedMetadata => with_client (loadedmetadata pathname (client p)) p
  | TimeUpdate => with_client (timeupdate (client p)) p
  | TogglePdf => with_client (toggle_pdf (client p)) p
  | ToggleCaptions => with_client (toggle_captions (client p)) p
  | NightClick => night_click p
  | SpeedClick => with_player (speed_click (player p)) p
  | KeyDown typing k => keydown typing k p
  end.

Definition run (events : list Event) (p : Page) : Page :=
  fold_left (fun p e => step e p) events p.

End Browser.

(** The classes a highlight leaves on the lines: [near] sits on the lines
    at most two away from the active one. *)
Definition nears (ls : list Line) : list bool := (fun l => near (el l)) <$> ls.

(** At least one of the two panels is visible. *)
Definition some_panel_visible (c : Client) : Prop :=
  pdfVisible c || captionsVisible c = true.

(** A reload would start with the preferences in effect. *)
Definition reload_agrees (p : Page) : Prop :=
  pdfVisible (blank (localStorage (client p))) = pdfVisible (client p)
  /\ captionsVisible (blank (localStorage (client p))) = captionsVisible (client p)
  /\ stored_nightMode (localStorage (client p)) = nightMode (player p).

End PanelPage.

(** * Properties *)

(** ** The order on numbers *)

Lemma compare_rank (x y : number) :
  is_nan x = false -> is_nan y = false ->
  match SFcompare x y with
  | Some Lt => lex_lt (rank x) (rank y)
  | Some Eq => rank x = rank y
  | Some Gt => lex_lt (rank y) (rank x)
  | None => False
  end.
Proof.
  destruct x as [sx|sx| |sx mx ex], y as [sy|sy| |sy my ey];
    try discriminate; intros _ _; cbn;
    try destruct sx; try destruct sy; cbn; try lia; try reflexivity.
  - destruct (Z.compare_spec ex ey) as [->|?|?]; cbn; try lia.
    change (Pos.compare_cont Eq mx my) with (Pos.compare mx my).
    destruct (Pos.compare_spec mx my) as [->|?|?]; cbn; try reflexivity; lia.
  - destruct (Z.compare_spec ex ey) as [->|?|?]; cbn; try lia.
    change (Pos.compare_cont Eq mx my) with (Pos.compare mx my).
    destruct (Pos.compare_spec mx my) as [->|?|?]; cbn; try reflexivity; lia.
Qed.

Lemma compare_nan_l (x y : number) : is_nan x = true -> SFcompare x y = None.
Proof. destruct x; try discriminate. reflexivity. Qed.

Lemma compare_nan_r (x y : number) : is_nan y = true -> SFcompare x y = None.
Proof. destruct y; try discriminate. destruct x; reflexivity. Qed.

Lemma lex_lt_irrefl (a : Z * Z * Z) : ~ lex_lt a a.
Proof. destruct a as [[? ?] ?]; cbn; lia. Qed.

Lemma lex_lt_asym (a b : Z * Z * Z) : lex_lt a b -> ~ lex_lt b a.
Proof. destruct a as [[? ?] ?], b as [[? ?] ?]; cbn; lia. Qed.

Lemma lex_lt_trans (a b c : Z * Z * Z) : lex_lt a b -> lex_lt b c -> lex_lt a c.
Proof.
  destruct a as [[? ?] ?], b as [[? ?] ?], c as [[? ?] ?]; cbn; lia.
Qed.

Lemma lex_total (a b : Z * Z * Z) : lex_lt a b \/ a = b \/ lex_lt b a.
Proof.
  destruct a as [[a1 a2] a3], b as [[b1 b2] b3]; cbn.
  destruct (Z.lt_total a1 b1) as [?|[->|?]]; [lia| |lia].
  destruct (Z.lt_total a2 b2) as [?|[->|?]]; [lia| |lia].
  destruct (Z.lt_total a3 b3) as [?|[->|?]]; [lia| |lia].
  right; left; reflexivity.
Qed.

Lemma le_spec (x y : number) :
  le x y = true <->
  is_nan x = false /\ is_nan y = false /\ lex_le (rank x) (rank y).
Proof.
  unfold le, SFleb.
  destruct (is_nan x) eqn:Hx.
  { rewrite compare_nan_l by assumption. intuition discriminate. }
  destruct (is_nan y) eqn:Hy.
  { rewrite compare_nan_r by assumption. intuition discriminate. }
  pose proof (compare_rank x y Hx Hy) as H.
  destruct (SFcompare x y) as [[| |]|]; unfold lex_le.
  - intuition.
  - intuition.
  - split; [discriminate|]. intros (_ & _ & [Hlt|Heq]).
    + destruct (lex_lt_asym _ _ H Hlt).
    + rewrite Heq in H. destruct (lex_lt_irrefl _ H).
  - contradiction.
Qed.

Lemma lt_spec (x y : number) :
  lt x y = true <->
  is_nan x = false /\ is_nan y = false /\ lex_lt (rank x) (rank y).
Proof.
  unfold lt, SFltb.
  destruct (is_nan x) eqn:Hx.
  { rewrite compare_nan_l by assumption. intuition discriminate. }
  destruct (is_nan y) eqn:Hy.
  { rewrite compare_nan_r by assumption. intuition discriminate. }
  pose proof (compare_rank x y Hx Hy) as H.
  destruct (SFcompare x y) as [[| |]|].
  - split; [discriminate|]. intros (_ & _ & Hlt). rewrite H in Hlt.
    destruct (lex_lt_irrefl _ Hlt).
  - intuition.
  - split; [discriminate|]. intros (_ & _ & Hlt).
    destruct (lex_lt_asym _ _ H Hlt).
  - contradiction.
Qed.

Lemma le_trans (x y z : number) :
  le x y = true -> le y z = true -> le x z = true.
Proof.
  intros Hxy Hyz. apply le_spec in Hxy as (Hx & _ & Hxy).
  apply le_spec in Hyz as (_ & Hz & Hyz). apply le_spec.
  split; [assumption|]. split; [assumption|].
  destruct Hxy as [Hxy|Hxy], Hyz as [Hyz|Hyz].
  - left. exact (lex_lt_trans _ _ _ Hxy Hyz).
  - left. rewrite <- Hyz. assumption.
  - left. rewrite Hxy. assumption.
  - right. congruence.
Qed.

(** [t < a <= b <= t] is impossible: past a start time later than [t],
    no start time is at or before [t]. *)
Lemma lt_le_le_absurd (t a b : number) :
  lt t a = true -> le a b = true -> le b t = true -> False.
Proof.
  intros Hta Hab Hbt. pose proof (le_trans _ _ _ Hab Hbt) as Hat.
  apply lt_spec in Hta as (_ & _ & Hta).
  apply le_spec in Hat as (_ & _ & [Hat|Hat]).
  - exact (lex_lt_asym _ _ Hta Hat).
  - rewrite Hat in Hta. exact (lex_lt_irrefl _ Hta).
Qed.

Lemma not_le_lt (x y : number) :
  is_nan x = false -> is_nan y = false -> le x y = false -> lt y x = true.
Proof.
  intros Hx Hy Hle. apply lt_spec. split; [assumption|]. split; [assumption|].
  destruct (lex_total (rank x) (rank y)) as [H|[H|H]]; [| |assumption].
  - assert (le x y = true) by (apply le_spec; unfold lex_le; auto). congruence.
  - assert (le x y = true) by (apply le_spec; unfold lex_le; auto). congruence.
Qed.

Lemma lt_le (x y : number) : lt x y = true -> le x y = true.
Proof.
  intros H. apply lt_spec in H as (? & ? & ?). apply le_spec.
  unfold lex_le; auto.
Qed.

Lemma lt_not_le (x y : number) : lt x y = true -> le y x = false.
Proof.
  intros H. destruct (le y x) eqn:Hle; [|reflexivity].
  apply lt_spec in H as (_ & _ & H).
  apply le_spec in Hle as (_ & _ & [Hle|Hle]).
  - destruct (lex_lt_asym _ _ H Hle).
  - rewrite Hle in H. destruct (lex_lt_irrefl _ H).
Qed.

Lemma le_not_nan (x y : number) :
  le x y = true -> is_nan x = false /\ is_nan y = false.
Proof. intros H. apply le_spec in H. tauto. Qed.

Lemma ge_le (x y : number) : ge x y = le y x.
Proof. reflexivity. Qed.

Lemma gt_lt (x y : number) : gt x y = lt y x.
Proof. reflexivity. Qed.

Lemma le_not_lt (x y : number) : le x y = true -> lt y x = false.
Proof.
  intros H. destruct (lt y x) eqn:E; [|reflexivity].
  apply lt_not_le in E. congruence.
Qed.

(** ** The scan *)

Section ScanFacts.

Context {A : Type} `{Timed A}.

Lemma scan_from_range (l : list A) (t : number) (i : Z) :
  scan_from i l t = -1 \/ i <= scan_from i l t < i + Z.of_nat (length l).
Proof.
  revert i. induction l as [|s rest IH]; intros i; cbn [scan_from].
  - left; reflexivity.
  - destruct (ge t (start s) && le t (end_ s)).
    + right. cbn [length]. lia.
    + destruct (gt (start s) t); [left; reflexivity|].
      destruct (IH (i + 1)) as [E|Hr]; [left; assumption|].
      right. cbn [length]. lia.
Qed.

(** The scan returns [-1] or an index of the list. *)
Lemma scan_range (l : list A) (t : number) :
  scan l t = -1 \/ 0 <= scan l t < Z.of_nat (length l).
Proof.
  unfold scan. destruct (scan_from_range l t 0) as [E|Hr]; [auto|].
  right. lia.
Qed.

Lemma full_scan_from_none (l : list A) (t : number) (i : Z) :
  (forall s, s ∈ l -> qualifies t s = false) -> full_scan_from i l t = -1.
Proof.
  revert i. induction l as [|s rest IH]; intros i Hall; cbn [full_scan_from].
  - reflexivity.
  - assert (Hs : qualifies t s = false) by (apply Hall; left).
    change (qualifies t s) with (le (start s) t && le t (end_ s)) in Hs.
    rewrite Hs.
    apply IH. intros s' Hin. apply Hall. right. assumption.
Qed.

(** In a list sorted by start time, the head starts no later than any
    other segment. *)
Lemma starts_sorted_head (s : A) (rest : list A) :
  starts_sorted (s :: rest) = true ->
  forall s', s' ∈ rest -> le (start s) (start s') = true.
Proof.
  revert s. induction rest as [|s2 rest IH]; intros s Hs s' Hin.
  - inversion Hin.
  - cbn [starts_sorted] in Hs. apply andb_true_iff in Hs as [H12 Hrest].
    apply elem_of_cons in Hin as [->|Hin]; [assumption|].
    eapply le_trans; [exact H12|]. apply IH; assumption.
Qed.

Lemma starts_sorted_tail (s : A) (rest : list A) :
  starts_sorted (s :: rest) = true -> starts_sorted rest = true.
Proof.
  cbn [starts_sorted]. destruct rest; [reflexivity|].
  intros Hs. apply andb_true_iff in Hs. tauto.
Qed.

(** Past a segment that starts after [t], nothing qualifies. *)
Lemma later_none_qualify (s : A) (rest : list A) (t : number) :
  starts_sorted (s :: rest) = true -> gt (start s) t = true ->
  forall s', s' ∈ rest -> qualifies t s' = false.
Proof.
  intros Hs Hgt s' Hin.
  change (qualifies t s') with (le (start s') t && le t (end_ s')).
  destruct (le (start s') t) eqn:Hle; [|reflexivity].
  exfalso. eapply lt_le_le_absurd; [exact Hgt| |exact Hle].
  eapply starts_sorted_head; eassumption.
Qed.

Lemma scan_from_full_scan (l : list A) (t : number) (i : Z) :
  starts_sorted l = true -> scan_from i l t = full_scan_from i l t.
Proof.
  revert i. induction l as [|s rest IH]; intros i Hs;
    cbn [scan_from full_scan_from]; [reflexivity|].
  change (ge t (start s)) with (le (start s) t).
  destruct (le (start s) t && le t (end_ s)); [reflexivity|].
  destruct (gt (start s) t) eqn:Hgt.
  - symmetry. apply full_scan_from_none.
    eapply later_none_qualify; eassumption.
  - apply IH. eapply starts_sorted_tail; eassumption.
Qed.

(** What the full scan returns: the least qualifying index. *)
Lemma full_scan_from_first (l : list A) (t : number) (i : Z) :
  (full_scan_from i l t = -1 /\ forall j s, l !! j = Some s -> qualifies t s = false)
  \/ (exists k s, full_scan_from i l t = i + Z.of_nat k /\ l !! k = Some s
        /\ qualifies t s = true
        /\ forall j s', (j < k)%nat -> l !! j = Some s' -> qualifies t s' = false).
Proof.
  revert i. induction l as [|s rest IH]; intros i; cbn [full_scan_from].
  - left. split; [reflexivity|]. intros j s Hj. rewrite lookup_nil in Hj. discriminate.
  - destruct (le (start s) t && le t (end_ s)) eqn:Hq.
    + right. exists 0%nat, s. split; [lia|]. split; [reflexivity|].
      split; [exact Hq|]. intros j s' Hj. lia.
    + destruct (IH (i + 1)) as [[E Hnone]|(k & s' & E & Hk & Hqk & Hbefore)].
      * left. split; [assumption|]. intros [|j] s' Hj.
        -- injection Hj as <-. exact Hq.
        -- eapply Hnone. exact Hj.
      * right. exists (S k), s'. split; [lia|]. split; [exact Hk|].
        split; [exact Hqk|]. intros [|j] s'' Hlt Hj.
        -- injection Hj as <-. exact Hq.
        -- eapply Hbefore; [|exact Hj]. lia.
Qed.

Lemma scan_first_match (l : list A) (t : number) :
  starts_sorted l = true -> first_match l t (scan l t).
Proof.
  intros Hs. unfold scan. rewrite scan_from_full_scan by assumption.
  destruct (full_scan_from_first l t 0) as [[E Hnone]|(k & s & E & Hk & Hq & Hb)].
  - left. split; assumption.
  - right. exists k, s. split; [lia|]. auto.
Qed.

(** The scan reads the time spans only. *)
Lemma scan_from_spans (l : list A) (t : number) (i : Z) :
  scan_from i (span <$> l) t = scan_from i l t.
Proof.
  revert i. induction l as [|s rest IH]; intros i; [reflexivity|].
  cbn [fmap list_fmap scan_from]. cbn [start end_ span span_Timed fst snd].
  rewrite IH. reflexivity.
Qed.

End ScanFacts.

(** ** Trimming *)

Lemma trimStart_split (s : jsstring) :
  exists w, s = w ++ trimStart s /\ blank_text w = true.
Proof.
  induction s as [|c s IH]; cbn [trimStart].
  - exists []. split; reflexivity.
  - destruct (is_white_space c) eqn:Hc.
    + destruct IH as (w & E & Hw). exists (c :: w). split.
      * cbn. rewrite <- E. reflexivity.
      * unfold blank_text in *. cbn. rewrite Hc, Hw. reflexivity.
    + exists []. split; reflexivity.
Qed.

Lemma trimStart_head (s : jsstring) :
  match trimStart s with
  | [] => True
  | c :: _ => is_white_space c = false
  end.
Proof.
  induction s as [|c s IH]; cbn [trimStart]; [exact I|].
  destruct (is_white_space c) eqn:Hc; [exact IH|exact Hc].
Qed.

Lemma trimStart_fixed (s : jsstring) :
  match s with [] => True | c :: _ => is_white_space c = false end ->
  trimStart s = s.
Proof. destruct s as [|c s]; [reflexivity|]. cbn. intros ->. reflexivity. Qed.

Lemma trimStart_idem (s : jsstring) : trimStart (trimStart s) = trimStart s.
Proof. apply trimStart_fixed, trimStart_head. Qed.

Lemma trimStart_blank (s : jsstring) :
  trimStart s = [] <-> blank_text s = true.
Proof.
  induction s as [|c s IH]; cbn [trimStart blank_text forallb]; [tauto|].
  destruct (is_white_space c); cbn; [exact IH|].
  split; discriminate.
Qed.

Lemma blank_text_rev (s : jsstring) : blank_text (rev s) = blank_text s.
Proof.
  unfold blank_text. induction s as [|c s IH]; [reflexivity|].
  cbn [rev forallb]. rewrite forallb_app, IH. cbn. rewrite andb_true_r.
  apply andb_comm.
Qed.

(** [trim] leaves nothing exactly when the string is blank. *)
Lemma trim_blank (s : jsstring) : trim s = [] <-> blank_text s = true.
Proof.
  unfold trim, trimEnd. split.
  - intros E. apply (f_equal (@rev N)) in E. rewrite rev_involutive in E.
    cbn in E. apply trimStart_blank in E. rewrite blank_text_rev in E.
    pose proof (trimStart_head s) as Hh.
    destruct (trimStart s) as [|c r] eqn:Es.
    + apply trimStart_blank. assumption.
    + cbn in E. rewrite Hh in E. discriminate.
  - intros Hb. apply trimStart_blank in Hb. rewrite Hb. reflexivity.
Qed.

(** A trimmed string starts with no white space. *)
Lemma trimEnd_head (s : jsstring) :
  match s with [] => True | c :: _ => is_white_space c = false end ->
  match trimEnd s with [] => True | c :: _ => is_white_space c = false end.
Proof.
  intros Hs. unfold trimEnd.
  destruct (trimStart_split (rev s)) as (w & E & _).
  apply (f_equal (@rev N)) in E. rewrite rev_involutive, rev_app_distr in E.
  destruct (rev (trimStart (rev s))) as [|c r]; [exact I|].
  rewrite E in Hs. exact Hs.
Qed.

Lemma trim_idem (s : jsstring) : trim (trim s) = trim s.
Proof.
  unfold trim at 1.
  rewrite (trimStart_fixed (trim s)).
  - unfold trim, trimEnd. rewrite rev_involutive, trimStart_idem. reflexivity.
  - unfold trim. apply trimEnd_head, trimStart_head.
Qed.

Lemma truthy_nonempty (s : jsstring) : truthy s = true <-> s <> [].
Proof. destruct s; cbn; split; congruence. Qed.

(** ** Building the captions *)

Lemma kept_text (seg : RawSegment) (x : jsstring * number * number) :
  kept seg = Some x ->
  x = (trim (reconstructed seg), caption_start seg, caption_end seg)
  /\ blank_text (reconstructed seg) = false.
Proof.
  unfold kept, caption_text. destruct (truthy (trim (reconstructed seg))) eqn:Ht;
    [|discriminate].
  intros [= <-]. split; [reflexivity|].
  destruct (blank_text (reconstructed seg)) eqn:Hb; [|reflexivity].
  apply trim_blank in Hb. rewrite Hb in Ht. discriminate.
Qed.

Lemma kept_blank (seg : RawSegment) :
  blank_text (reconstructed seg) = true <-> kept seg = None.
Proof.
  unfold kept, caption_text. rewrite <- trim_blank.
  destruct (trim (reconstructed seg)); cbn; split; congruence.
Qed.

Lemma overlay_push_captions (raw : list RawSegment) (acc : list Overlay.Segment) :
  (fun s => (Overlay.text s, Overlay.seg_start s, Overlay.seg_end s))
    <$> Overlay.push_captions raw acc
  = ((fun s => (Overlay.text s, Overlay.seg_start s, Overlay.seg_end s)) <$> acc)
    ++ captions_of raw.
Proof.
  revert acc. induction raw as [|seg raw IH]; intros acc;
    cbn [Overlay.push_captions captions_of omap list_omap].
  - rewrite app_nil_r. reflexivity.
  - unfold kept. destruct (truthy (caption_text seg)); cbn [negb].
    + rewrite IH, fmap_app, <- app_assoc. reflexivity.
    + apply IH.
Qed.

Lemma panel_push_lines (raw : list RawSegment) (acc : list Panel.Line) (n : nat) :
  (fun l => (Panel.textContent (Panel.el l), Panel.line_start l, Panel.line_end l))
    <$> fst (Panel.push_lines raw acc n)
  = ((fun l => (Panel.textContent (Panel.el l), Panel.line_start l, Panel.line_end l))
       <$> acc) ++ captions_of raw
  /\ PanelRun.ids (fst (Panel.push_lines raw acc n))
     = PanelRun.ids acc ++ seq n (length (captions_of raw))
  /\ PanelRun.actives (fst (Panel.push_lines raw acc n))
     = PanelRun.actives acc ++ replicate (length (captions_of raw)) false
  /\ snd (Panel.push_lines raw acc n) = (n + length (captions_of raw))%nat.
Proof.
  revert acc n. induction raw as [|seg raw IH]; intros acc n;
    cbn [Panel.push_lines captions_of omap list_omap].
  - cbn. rewrite !app_nil_r, Nat.add_0_r. auto.
  - unfold kept. destruct (truthy (caption_text seg)); cbn [negb]; [|apply IH].
    match goal with
    | |- context [Panel.push_lines raw ?a ?m] =>
        destruct (IH a m) as (E1 & E2 & E3 & E4)
    end.
    rewrite E1, E2, E3, E4.
    unfold PanelRun.ids, PanelRun.actives. rewrite !fmap_app, <- !app_assoc.
    cbn [length app seq replicate fmap list_fmap Panel.el Panel.el_id
         Panel.active Panel.textContent Panel.line_start Panel.line_end].
    repeat split; try reflexivity. unfold captions_of, kept. lia.
Qed.

(** ** The frame stores the index it computes *)

Lemma overlay_frame_index (c : Overlay.Client) :
  Overlay.segments c <> [] -> Overlay.captionsVisible c = true ->
  Overlay.frame_index c
  = Some (scan (Overlay.segments c) (add (Overlay.currentTime c) lead_bias)).
Proof.
  intros Hne Hv. unfold Overlay.frame_index. rewrite Hv.
  destruct (Overlay.segments c); [congruence|reflexivity].
Qed.

Lemma overlay_frame_stores (c : Overlay.Client) (idx : Z) :
  Overlay.frame_index c = Some idx ->
  Overlay.activeIdx (Overlay.synccaptions c) = idx.
Proof.
  intros Hf. unfold Overlay.synccaptions. rewrite Hf.
  destruct (idx =? Overlay.activeIdx c) eqn:E; cbn [negb].
  - apply Z.eqb_eq in E. congruence.
  - reflexivity.
Qed.

Lemma panel_frame_index (c : Panel.Client) :
  Panel.lines c <> [] ->
  Panel.frame_index c
  = Some (scan (Panel.lines c) (add (Panel.currentTime c) lead_bias)).
Proof.
  intros Hne. unfold Panel.frame_index.
  destruct (Panel.lines c); [congruence|reflexivity].
Qed.

Lemma panel_frame_stores (c : Panel.Client) (idx : Z) :
  Panel.frame_index c = Some idx ->
  Panel.activeLine (Panel.synccaptions c)
  = if idx =? -1 then None else Panel.element_at (Panel.lines c) idx.
Proof.
  intros Hf. unfold Panel.synccaptions. rewrite Hf.
  destruct (idx =? -1) eqn:E; cbn [negb andb].
  - destruct (Panel.activeLine c) eqn:Ea.
    + rewrite bool_decide_eq_true_2 by congruence. reflexivity.
    + rewrite bool_decide_eq_false_2 by congruence. assumption.
  - destruct (bool_decide (Panel.activeLine c = Panel.element_at (Panel.lines c) idx))
      eqn:Ed; cbn [negb].
    + apply bool_decide_eq_true_1 in Ed. assumption.
    + reflexivity.
Qed.

(** ** Claims about the scan *)

(** C1. For segments sorted by start time and a clock value [c], the scan
    of a frame, run at [t = c + 0.15], returns the least index [i] with
    [segments[i].start <= t <= segments[i].end], and [-1] when no segment
    qualifies; among several qualifying segments the earliest is taken.
    A frame that reaches its scan computes this index and stores it as
    the active one, in both revisions. *)
Theorem sync_scan_selects_first_match {A} `{Timed A}
    (segments : list A) (c : number) :
  starts_sorted segments = true ->
  first_match segments (add c lead_bias) (scan segments (add c lead_bias))
  /\ (forall oc : Overlay.Client,
        Overlay.segments oc <> [] -> Overlay.captionsVisible oc = true ->
        let idx := scan (Overlay.segments oc) (add (Overlay.currentTime oc) lead_bias) in
        Overlay.frame_index oc = Some idx
        /\ Overlay.activeIdx (Overlay.synccaptions oc) = idx)
  /\ (forall pc : Panel.Client,
        Panel.lines pc <> [] ->
        let idx := scan (Panel.lines pc) (add (Panel.currentTime pc) lead_bias) in
        Panel.frame_index pc = Some idx
        /\ Panel.activeLine (Panel.synccaptions pc)
           = if idx =? -1 then None else Panel.element_at (Panel.lines pc) idx).
Proof.
  intros Hs. split; [apply scan_first_match; assumption|]. split.
  - intros oc Hne Hv idx. split.
    + apply overlay_frame_index; assumption.
    + apply overlay_frame_stores, overlay_frame_index; assumption.
  - intros pc Hne idx. split.
    + apply panel_frame_index; assumption.
    + apply panel_frame_stores, panel_frame_index; assumption.
Qed.

Lemma sync_scan_selects_first_match_witness :
  let segs := [ Overlay.Build_Segment (str "a") (lit 0 0) (lit 2 0);
                Overlay.Build_Segment (str "b") (lit 1 0) (lit 4 0);
                Overlay.Build_Segment (str "c") (lit 5 0) (lit 7 0) ] in
  starts_sorted segs = true
  /\ scan segs (add (lit 135 (-2)) lead_bias) = 0
  /\ first_match segs (add (lit 135 (-2)) lead_bias) 0.
Proof.
  cbv zeta. split; [reflexivity|]. split; [reflexivity|].
  exact (proj1 (sync_scan_selects_first_match
    [ Overlay.Build_Segment (str "a") (lit 0 0) (lit 2 0);
      Overlay.Build_Segment (str "b") (lit 1 0) (lit 4 0);
      Overlay.Build_Segment (str "c") (lit 5 0) (lit 7 0) ]
    (lit 135 (-2)) eq_refl)).
Defined.

(** C7. For start times in non-decreasing order, the scan with its early
    exit returns the index the full scan returns. *)
Theorem early_exit_scan_is_full_scan {A} `{Timed A}
    (segments : list A) (t : number) :
  starts_sorted segments = true -> scan segments t = full_scan segments t.
Proof. intros Hs. apply scan_from_full_scan. assumption. Qed.

Lemma early_exit_scan_is_full_scan_witness :
  let segs := [ Overlay.Build_Segment (str "a") (lit 0 0) (lit 2 0);
                Overlay.Build_Segment (str "b") (lit 2 0) (lit 4 0);
                Overlay.Build_Segment (str "c") (lit 5 0) (lit 7 0) ] in
  starts_sorted segs = true
  /\ scan segs (lit 45 (-1)) = full_scan segs (lit 45 (-1)).
Proof.
  cbv zeta. split; [reflexivity|].
  apply (early_exit_scan_is_full_scan
    [ Overlay.Build_Segment (str "a") (lit 0 0) (lit 2 0);
      Overlay.Build_Segment (str "b") (lit 2 0) (lit 4 0);
      Overlay.Build_Segment (str "c") (lit 5 0) (lit 7 0) ]
    (lit 45 (-1))).
  reflexivity.
Defined.


(** C2, as stated, fails: with segments timed (0,2), (2,4), (5,7) the
    scan at [t = 2] finds segment 0, whose closed interval still holds the
    boundary, and stops there; it does not report segment 1. *)
Lemma shared_boundary_counterexample :
  scan [ Overlay.Build_Segment [] (lit 0 0) (lit 2 0);
         Overlay.Build_Segment [] (lit 2 0) (lit 4 0);
         Overlay.Build_Segment [] (lit 5 0) (lit 7 0) ] (lit 2 0) <> 1.
Proof. vm_compute. discriminate. Qed.

(** C2, amended. With segments timed (0,2), (2,4), (5,7): at [t = 1]
    segment 0 is active; at [t = 2] segment 0 is still active, a shared
    boundary belonging to the segment that ends there; segment 1 is
    active for every [t] with [2 < t <= 4], in particular for the scan
    time [2 + 0.15] of a frame whose clock reads 2; at [t = 4.5] no
    segment is active; at [t = 6] segment 2 is active. *)
Theorem boundary_belongs_to_ending_segment {A} `{Timed A} (segments : list A) :
  span <$> segments
    = [ (lit 0 0, lit 2 0); (lit 2 0, lit 4 0); (lit 5 0, lit 7 0) ] ->
  scan segments (lit 1 0) = 0
  /\ scan segments (lit 2 0) = 0
  /\ (forall t, lt (lit 2 0) t = true -> le t (lit 4 0) = true ->
        scan segments t = 1)
  /\ scan segments (add (lit 2 0) lead_bias) = 1
  /\ scan segments (lit 45 (-1)) = -1
  /\ scan segments (lit 6 0) = 2.
Proof.
  intros Hspans.
  assert (Hscan : forall t, scan segments t
            = scan [ (lit 0 0, lit 2 0); (lit 2 0, lit 4 0); (lit 5 0, lit 7 0) ] t).
  { intros t. unfold scan. rewrite <- (scan_from_spans segments), Hspans.
    reflexivity. }
  rewrite !Hscan.
  split; [vm_compute; reflexivity|]. split; [vm_compute; reflexivity|].
  split; [|split; [vm_compute; reflexivity|split; vm_compute; reflexivity]].
  intros t H2 H4. rewrite Hscan. unfold scan.
  cbn [scan_from start end_ span_Timed fst snd].
  assert (H0 : le (lit 0 0) t = true).
  { eapply le_trans; [|apply lt_le; exact H2]. reflexivity. }
  rewrite !ge_le, !gt_lt.
  rewrite H0, (lt_not_le _ _ H2). cbn [andb].
  rewrite (le_not_lt _ _ H0), (lt_le _ _ H2), H4. reflexivity.
Qed.

Lemma boundary_belongs_to_ending_segment_witness :
  scan [ Overlay.Build_Segment (str "one") (lit 0 0) (lit 2 0);
         Overlay.Build_Segment (str "two") (lit 2 0) (lit 4 0);
         Overlay.Build_Segment (str "three") (lit 5 0) (lit 7 0) ] (lit 2 0) = 0.
Proof.
  exact (proj1 (proj2 (boundary_belongs_to_ending_segment
    [ Overlay.Build_Segment (str "one") (lit 0 0) (lit 2 0);
      Overlay.Build_Segment (str "two") (lit 2 0) (lit 4 0);
      Overlay.Build_Segment (str "three") (lit 5 0) (lit 7 0) ] eq_refl))).
Defined.

(** ** Claims about normalization *)

Lemma overlay_buildcaptions_captions (raw : list RawSegment) (c : Overlay.Client) :
  OverlayRun.captions
    (Overlay.buildcaptions (Some {| t_segments := Some raw |}) c)
  = captions_of raw.
Proof.
  unfold OverlayRun.captions. cbn. apply (overlay_push_captions raw []).
Qed.

Lemma panel_buildcaptions_captions (raw : list RawSegment) (c : Panel.Client) :
  PanelRun.captions
    (Panel.buildcaptions (Some {| t_segments := Some raw |}) c)
  = captions_of raw.
Proof.
  unfold PanelRun.captions, Panel.buildcaptions.
  destruct (panel_push_lines raw [] (Panel.created c)) as (E & _).
  destruct (Panel.push_lines raw [] (Panel.created c)) as [ls n].
  exact E.
Qed.

Lemma captions_of_nonblank (raw : list RawSegment) :
  captions_of raw
  = captions_of (filter (fun seg => blank_text (reconstructed seg) = false) raw).
Proof.
  induction raw as [|seg raw IH]; [reflexivity|].
  destruct (blank_text (reconstructed seg)) eqn:Hb.
  - rewrite filter_cons_False by congruence.
    cbn [captions_of omap list_omap]. apply kept_blank in Hb. rewrite Hb.
    exact IH.
  - rewrite filter_cons_True by assumption.
    cbn [captions_of omap list_omap]. fold (captions_of raw).
    fold (captions_of (filter (fun seg => blank_text (reconstructed seg) = false) raw)).
    rewrite <- IH. reflexivity.
Qed.

Lemma captions_of_trimmed (raw : list RawSegment) :
  Forall (fun x : jsstring * number * number => x.1.1 <> [] /\ trim x.1.1 = x.1.1)
    (captions_of raw).
Proof.
  apply Forall_forall. intros x Hin.
  apply list_elem_of_omap in Hin as (seg & _ & Hk).
  pose proof Hk as Hk'. apply kept_text in Hk' as [-> Hb]. cbn [fst].
  split.
  - intros E. apply trim_blank in E. congruence.
  - apply trim_idem.
Qed.

(** C3, as stated, fails.  A segment without words whose text is
    [" the cat"] is shown as ["the cat"]: the text is trimmed, not kept
    verbatim.  A segment with words [" "] and ["cat"] is shown as
    ["cat"], not as the join [" cat"] of its trimmed tokens. *)
Lemma normalization_counterexample :
  (exists s,
     Overlay.segments
       (Overlay.buildcaptions
          (Some {| t_segments := Some
             [ {| raw_text := Some (str " the cat"); raw_start := lit 0 0;
                  raw_end := lit 6 (-1); words := None |} ] |})
          (Overlay.blank ∅)) = [s]
     /\ Overlay.text s <> str " the cat")
  /\ (exists s,
        Overlay.segments
          (Overlay.buildcaptions
             (Some {| t_segments := Some
                [ {| raw_text := None; raw_start := lit 0 0; raw_end := lit 6 (-1);
                     words := Some [ Build_Word (str " ") (lit 0 0) (lit 2 (-1));
                                     Build_Word (str "cat") (lit 2 (-1)) (lit 5 (-1)) ] |} ] |})
             (Overlay.blank ∅)) = [s]
        /\ Overlay.text s <> join (str " ") [trim (str " "); trim (str "cat")]).
Proof.
  split; eexists; (split; [vm_compute; reflexivity|]); vm_compute; discriminate.
Qed.

(** C3, amended.  [buildcaptions] keeps, in order, one caption per raw
    segment whose text is not empty.  For a raw segment with a non-empty
    word list the caption starts at the first word's start, ends at the
    last word's end, and its text is the single-space join of the trimmed
    word tokens, trimmed once more; for a raw segment with no word list,
    or an empty one, the caption keeps the model's start and end and its
    text is the model's text, trimmed. *)
Theorem normalized_captions (raw : list RawSegment)
    (oc : Overlay.Client) (pc : Panel.Client) :
  OverlayRun.captions
    (Overlay.buildcaptions (Some {| t_segments := Some raw |}) oc)
  = captions_of raw
  /\ PanelRun.captions
       (Panel.buildcaptions (Some {| t_segments := Some raw |}) pc)
     = captions_of raw
  /\ forall seg : RawSegment,
       (forall w ws, words seg = Some (w :: ws) ->
          let text :=
            trim (join (str " ") (map (fun w => trim (word w)) (w :: ws))) in
          kept seg = if truthy text
                     then Some (text, w_start w, w_end (List.last ws w))
                     else None)
       /\ (words seg = None \/ words seg = Some [] ->
           let text := trim (default [] (raw_text seg)) in
           kept seg = if truthy text
                      then Some (text, raw_start seg, raw_end seg)
                      else None).
Proof.
  split; [apply overlay_buildcaptions_captions|].
  split; [apply panel_buildcaptions_captions|].
  intros seg. split.
  - intros w ws Hw. unfold kept, caption_text, reconstructed, caption_start,
      caption_end, hasW. rewrite Hw. reflexivity.
  - intros [Hw|Hw]; unfold kept, caption_text, reconstructed, caption_start,
      caption_end, hasW; rewrite Hw; reflexivity.
Qed.

Lemma normalized_captions_witness :
  let seg := {| raw_text := None; raw_start := lit 9 0; raw_end := lit 9 0;
                words := Some [ Build_Word (str "the") (lit 0 0) (lit 2 (-1));
                                Build_Word (str "cat") (lit 2 (-1)) (lit 5 (-1)) ] |} in
  words seg = Some [ Build_Word (str "the") (lit 0 0) (lit 2 (-1));
                     Build_Word (str "cat") (lit 2 (-1)) (lit 5 (-1)) ]
  /\ kept seg = Some (str "the cat", lit 0 0, lit 5 (-1)).
Proof.
  cbv zeta. split; [reflexivity|].
  exact (proj1 (proj2 (proj2 (normalized_captions [] (Overlay.blank ∅) (Panel.blank ∅)))
                  {| raw_text := None; raw_start := lit 9 0; raw_end := lit 9 0;
                     words := Some [ Build_Word (str "the") (lit 0 0) (lit 2 (-1));
                                     Build_Word (str "cat") (lit 2 (-1)) (lit 5 (-1)) ] |})
           (Build_Word (str "the") (lit 0 0) (lit 2 (-1)))
           [ Build_Word (str "cat") (lit 2 (-1)) (lit 5 (-1)) ] eq_refl).
Defined.

(** C4. A raw segment whose reconstructed text is empty or white space
    only leaves no caption: the captions built are those of the raw
    segments with non-blank text, and every caption's text is non-empty
    and trimmed. *)
Theorem blank_segments_elided (raw : list RawSegment)
    (oc : Overlay.Client) (pc : Panel.Client) :
  let nonblank := filter (fun seg => blank_text (reconstructed seg) = false) raw in
  let shown := OverlayRun.captions
      (Overlay.buildcaptions (Some {| t_segments := Some raw |}) oc) in
  let listed := PanelRun.captions
      (Panel.buildcaptions (Some {| t_segments := Some raw |}) pc) in
  shown = captions_of nonblank
  /\ length shown = length nonblank
  /\ Forall (fun x => x.1.1 <> [] /\ trim x.1.1 = x.1.1) shown
  /\ listed = shown.
Proof.
  cbv zeta. rewrite overlay_buildcaptions_captions, panel_buildcaptions_captions.
  split; [apply captions_of_nonblank|].
  split.
  - rewrite captions_of_nonblank. unfold captions_of.
    induction raw as [|seg raw IH]; [reflexivity|].
    destruct (blank_text (reconstructed seg)) eqn:Hb.
    + rewrite filter_cons_False by congruence. exact IH.
    + rewrite filter_cons_True by assumption. cbn [omap list_omap].
      destruct (kept seg) eqn:Hk.
      * cbn [length]. f_equal. exact IH.
      * apply kept_blank in Hk. congruence.
  - split; [apply captions_of_trimmed|reflexivity].
Qed.

(** ** The panel's class marks *)

Lemma fmap_alter_same {X Y} (f : X -> Y) (g : X -> X) (l : list X) (i : nat) :
  (forall x, f (g x) = f x) -> f <$> alter g i l = f <$> l.
Proof.
  intros Hfg. revert i. induction l as [|x l IH]; intros [|i]; cbn;
    [reflexivity|reflexivity|rewrite Hfg; reflexivity|rewrite IH; reflexivity].
Qed.

Lemma mark_near_fmap {Y} (f : Panel.Line -> Y) (idx : Z) (ls : list Panel.Line) :
  (forall l, f (Panel.add_near l) = f l) ->
  f <$> Panel.mark_near idx ls = f <$> ls.
Proof.
  intros Hf. unfold Panel.mark_near.
  generalize [-2; -1; 0; 1; 2]. intros offsets. revert ls.
  induction offsets as [|o offsets IH]; intros ls; cbn [fold_left]; [reflexivity|].
  rewrite IH.
  destruct (negb (o =? 0) && (0 <=? idx + o) && (idx + o <? Z.of_nat (length ls)));
    [apply fmap_alter_same; assumption|reflexivity].
Qed.

Lemma actives_remove_marks (ls : list Panel.Line) :
  PanelRun.actives (Panel.remove_marks <$> ls) = replicate (length ls) false.
Proof.
  unfold PanelRun.actives. induction ls as [|l ls IH]; [reflexivity|].
  cbn. f_equal. exact IH.
Qed.

Lemma actives_highlight (idx : Z) (ls : list Panel.Line) :
  PanelRun.actives
    (Panel.mark_near idx
       (alter Panel.add_active (Z.to_nat idx) (Panel.remove_marks <$> ls)))
  = <[Z.to_nat idx := true]> (replicate (length ls) false).
Proof.
  unfold PanelRun.actives. rewrite mark_near_fmap by reflexivity.
  rewrite (list_fmap_alter _ Panel.add_active (fun _ => true))
    by (apply Forall_forall; reflexivity).
  rewrite <- list_insert_alter. f_equal. apply actives_remove_marks.
Qed.

Lemma sync_lines_fmap {Y} (f : Panel.Line -> Y) (c : Panel.Client) :
  (forall l, f (Panel.add_near l) = f l) ->
  (forall l, f (Panel.add_active l) = f l) ->
  (forall l, f (Panel.remove_marks l) = f l) ->
  f <$> Panel.lines (Panel.synccaptions c) = f <$> Panel.lines c.
Proof.
  intros Hn Ha Hr. unfold Panel.synccaptions.
  destruct (Panel.frame_index c) as [idx|]; [|reflexivity].
  destruct (negb (idx =? -1) && _).
  - cbn [Panel.lines Panel.set_highlight]. rewrite mark_near_fmap by assumption.
    rewrite fmap_alter_same by assumption.
    rewrite <- list_fmap_compose. apply list_fmap_ext. intros _ l _. apply Hr.
  - destruct ((idx =? -1) && _); [|reflexivity].
    cbn [Panel.lines Panel.set_highlight].
    rewrite <- list_fmap_compose. apply list_fmap_ext. intros _ l _. apply Hr.
Qed.

Lemma sync_ids (c : Panel.Client) :
  PanelRun.ids (Panel.lines (Panel.synccaptions c)) = PanelRun.ids (Panel.lines c).
Proof. apply sync_lines_fmap; reflexivity. Qed.

Lemma sync_spans (c : Panel.Client) :
  span <$> Panel.lines (Panel.synccaptions c) = span <$> Panel.lines c.
Proof. apply sync_lines_fmap; reflexivity. Qed.

Lemma first_active_none (flags : list bool) (i : Z) :
  (forall j, flags !! j = Some true -> False) -> PanelRun.first_active i flags = -1.
Proof.
  revert i. induction flags as [|b flags IH]; intros i Hnone; [reflexivity|].
  cbn [PanelRun.first_active]. destruct b.
  - destruct (Hnone 0%nat). reflexivity.
  - apply IH. intros j Hj. apply (Hnone (S j)). exact Hj.
Qed.

Lemma first_active_at (flags : list bool) (i : Z) (k : nat) :
  flags !! k = Some true ->
  (forall j, flags !! j = Some true -> j = k) ->
  PanelRun.first_active i flags = i + Z.of_nat k.
Proof.
  revert i k. induction flags as [|b flags IH]; intros i k Hk Huniq.
  - rewrite lookup_nil in Hk. discriminate.
  - cbn [PanelRun.first_active]. destruct b.
    + rewrite <- (Huniq 0%nat eq_refl). lia.
    + destruct k as [|k]; [discriminate|].
      rewrite (IH (i + 1) k); [lia|exact Hk|].
      intros j Hj. specialize (Huniq (S j) Hj). lia.
Qed.

Lemma lookup_single_true (n k j : nat) :
  <[k := true]> (replicate n false) !! j = Some true -> j = k /\ (k < n)%nat.
Proof.
  intros Hj. destruct (decide (k = j)) as [->|Hne].
  - split; [reflexivity|].
    apply lookup_lt_Some in Hj. rewrite length_insert, length_replicate in Hj.
    exact Hj.
  - rewrite list_lookup_insert_ne in Hj by assumption.
    apply lookup_replicate in Hj as [? _]. discriminate.
Qed.

Lemma lookup_replicate_false (n j : nat) :
  replicate n false !! j = Some true -> False.
Proof. intros Hj. apply lookup_replicate in Hj as [? _]. discriminate. Qed.

Lemma element_at_ids (ls : list Panel.Line) (idx : Z) :
  Panel.element_at ls idx = PanelRun.ids ls !! Z.to_nat idx.
Proof. unfold Panel.element_at, PanelRun.ids. rewrite list_lookup_fmap. reflexivity. Qed.

Lemma panel_frame_index_range (c : Panel.Client) (idx : Z) :
  Panel.frame_index c = Some idx ->
  idx = scan (Panel.lines c) (add (Panel.currentTime c) lead_bias)
  /\ (idx = -1 \/ 0 <= idx < Z.of_nat (length (Panel.lines c))).
Proof.
  unfold Panel.frame_index. destruct (length (Panel.lines c) =? 0)%nat; [discriminate|].
  intros [= <-]. split; [reflexivity|apply scan_range].
Qed.

(** In a well-formed state the class [active] sits on one line at most. *)
Lemma wf_unique_active (c : Panel.Client) (i j : nat) :
  PanelRun.wf c ->
  PanelRun.actives (Panel.lines c) !! i = Some true ->
  PanelRun.actives (Panel.lines c) !! j = Some true -> i = j.
Proof.
  intros Hwf Hi Hj. unfold PanelRun.actives in *.
  rewrite list_lookup_fmap in Hi, Hj.
  destruct (Panel.lines c !! i) as [li|] eqn:Eli; [|discriminate].
  destruct (Panel.lines c !! j) as [lj|] eqn:Elj; [|discriminate].
  cbn in Hi, Hj. injection Hi as Hi. injection Hj as Hj.
  apply (PanelRun.wf_active c Hwf i li Eli) in Hi.
  apply (PanelRun.wf_active c Hwf j lj Elj) in Hj.
  eapply (NoDup_lookup (PanelRun.ids (Panel.lines c))).
  - apply (PanelRun.wf_nodup c Hwf).
  - unfold PanelRun.ids. rewrite list_lookup_fmap, Eli. reflexivity.
  - unfold PanelRun.ids. rewrite list_lookup_fmap, Elj. cbn. congruence.
Qed.

(** A frame that computes [idx] leaves the class [active] on line [idx]
    and nowhere else, and keeps the state well formed. *)
Lemma panel_step (c : Panel.Client) (idx : Z) :
  PanelRun.wf c -> Panel.frame_index c = Some idx ->
  PanelRun.wf (Panel.synccaptions c)
  /\ PanelRun.active_index (Panel.synccaptions c) = idx.
Proof.
  intros Hwf Hf. pose proof (panel_frame_index_range c idx Hf) as [_ Hrange].
  pose proof (sync_ids c) as Hids.
  unfold Panel.synccaptions in *. rewrite Hf in *.
  destruct (idx =? -1) eqn:E1; cbn [negb andb] in *.
  - apply Z.eqb_eq in E1. subst idx.
    destruct (bool_decide (Panel.activeLine c <> None)) eqn:Ed.
    + split.
      * split; cbn [Panel.lines Panel.set_highlight Panel.created Panel.activeLine] in *.
        -- rewrite Hids. apply Hwf.
        -- rewrite Hids. apply Hwf.
        -- discriminate.
        -- intros i l Hl. split; [|discriminate].
           rewrite list_lookup_fmap in Hl.
           destruct (Panel.lines c !! i); [|discriminate].
           injection Hl as <-. discriminate.
      * unfold PanelRun.active_index. cbn [Panel.lines Panel.set_highlight].
        rewrite actives_remove_marks. apply first_active_none.
        intros j. apply lookup_replicate_false.
    + split; [assumption|].
      apply bool_decide_eq_false_1 in Ed.
      assert (Hnone : Panel.activeLine c = None)
        by (destruct (Panel.activeLine c); [destruct Ed; discriminate|reflexivity]).
      apply first_active_none. intros j Hj. unfold PanelRun.actives in Hj.
      rewrite list_lookup_fmap in Hj.
      destruct (Panel.lines c !! j) as [l|] eqn:El; [|discriminate].
      injection Hj as Hj. apply (PanelRun.wf_active c Hwf j l El) in Hj.
      congruence.
  - apply Z.eqb_neq in E1. destruct Hrange as [?|Hrange]; [contradiction|].
    assert (Hk : (Z.to_nat idx < length (Panel.lines c))%nat) by lia.
    destruct (lookup_lt_is_Some_2 (Panel.lines c) _ Hk) as [lk Elk].
    assert (Eat : Panel.element_at (Panel.lines c) idx = Some (Panel.el_id (Panel.el lk))).
    { unfold Panel.element_at. rewrite Elk. reflexivity. }
    destruct (bool_decide (Panel.activeLine c = Panel.element_at (Panel.lines c) idx))
      eqn:Ed; cbn [negb] in *.
    + apply bool_decide_eq_true_1 in Ed. split; [assumption|].
      unfold PanelRun.active_index.
      rewrite (first_active_at _ 0 (Z.to_nat idx)); [lia| |].
      * unfold PanelRun.actives. rewrite list_lookup_fmap, Elk. cbn. f_equal.
        apply (PanelRun.wf_active c Hwf _ lk Elk). congruence.
      * intros j Hj. eapply wf_unique_active; [exact Hwf|exact Hj|].
        unfold PanelRun.actives. rewrite list_lookup_fmap, Elk. cbn. f_equal.
        apply (PanelRun.wf_active c Hwf _ lk Elk). congruence.
    + assert (Hact : PanelRun.actives (Panel.lines (Panel.set_highlight
                 (Panel.mark_near idx (alter Panel.add_active (Z.to_nat idx)
                    (Panel.remove_marks <$> Panel.lines c)))
                 (Panel.element_at (Panel.lines c) idx)
                 (Panel.element_at (Panel.lines c) idx) c))
               = <[Z.to_nat idx := true]> (replicate (length (Panel.lines c)) false))
        by apply actives_highlight.
      split.
      * split; cbn [Panel.created Panel.activeLine Panel.set_highlight].
        -- rewrite Hids. apply Hwf.
        -- rewrite Hids. apply Hwf.
        -- intros id Hid. apply (PanelRun.wf_fresh c Hwf).
           rewrite Eat in Hid. injection Hid as <-.
           unfold PanelRun.ids. apply list_elem_of_fmap. exists lk.
           split; [reflexivity|]. eapply list_elem_of_lookup_2. exact Elk.
        -- intros i l Hl.
           assert (Hi : PanelRun.actives (Panel.lines (Panel.set_highlight
                 (Panel.mark_near idx (alter Panel.add_active (Z.to_nat idx)
                    (Panel.remove_marks <$> Panel.lines c)))
                 (Panel.element_at (Panel.lines c) idx)
                 (Panel.element_at (Panel.lines c) idx) c)) !! i
               = Some (Panel.active (Panel.el l))).
           { unfold PanelRun.actives. rewrite list_lookup_fmap, Hl. reflexivity. }
           assert (Hidi : PanelRun.ids (Panel.lines c) !! i
                          = Some (Panel.el_id (Panel.el l))).
           { rewrite <- Hids. unfold PanelRun.ids.
             rewrite list_lookup_fmap, Hl. reflexivity. }
           rewrite Hact in Hi. rewrite Eat. split.
           ++ intros Ha. rewrite Ha in Hi. apply lookup_single_true in Hi as [-> _].
              unfold PanelRun.ids in Hidi. rewrite list_lookup_fmap, Elk in Hidi.
              cbn in Hidi. congruence.
           ++ intros [= Hid].
              assert (i = Z.to_nat idx) as ->.
              { eapply (NoDup_lookup (PanelRun.ids (Panel.lines c)));
                  [apply Hwf|exact Hidi|].
                unfold PanelRun.ids. rewrite list_lookup_fmap, Elk. cbn. congruence. }
              rewrite list_lookup_insert_eq in Hi
                by (rewrite length_replicate; exact Hk).
              congruence.
      * unfold PanelRun.active_index. rewrite Hact.
        rewrite (first_active_at _ 0 (Z.to_nat idx)); [lia| |].
        -- apply list_lookup_insert_eq. rewrite length_replicate. exact Hk.
        -- intros j Hj. apply lookup_single_true in Hj. tauto.
Qed.

(** The well-formed states are the ones the script reaches: a client
    with no job opened is well formed, and [buildcaptions] and
    [synccaptions] keep a client well formed. *)
Lemma panel_wf_blank (storage : gmap jsstring jsstring) :
  PanelRun.wf (Panel.blank storage).
Proof.
  split; cbn.
  - constructor.
  - intros id Hid. inversion Hid.
  - discriminate.
  - intros i l Hl. rewrite lookup_nil in Hl. discriminate.
Qed.

Lemma panel_wf_buildcaptions (data : option Transcript) (c : Panel.Client) :
  PanelRun.wf c -> PanelRun.wf (Panel.buildcaptions data c).
Proof.
  intros Hwf. unfold Panel.buildcaptions.
  destruct data as [[[raw|]]|].
  2,3: split; cbn;
    [constructor
    |intros id Hid; inversion Hid
    |apply Hwf
    |intros i l Hl; rewrite lookup_nil in Hl; discriminate].
  destruct (panel_push_lines raw [] (Panel.created c)) as (_ & Hids & Hact & Hn).
  destruct (Panel.push_lines raw [] (Panel.created c)) as [ls n].
  cbn [fst snd] in Hids, Hact, Hn. cbn [app] in Hids, Hact.
  split; cbn [Panel.lines Panel.created Panel.activeLine Panel.set_lines].
  - rewrite Hids. apply NoDup_seq.
  - intros id Hid. rewrite Hids in Hid. apply elem_of_seq in Hid. lia.
  - intros id Hid. pose proof (PanelRun.wf_stale c Hwf id Hid). lia.
  - intros i l Hl. split.
    + intros Ha. exfalso.
      assert (Hi : PanelRun.actives ls !! i = Some true).
      { unfold PanelRun.actives. rewrite list_lookup_fmap, Hl. cbn. congruence. }
      rewrite Hact in Hi. exact (lookup_replicate_false _ _ Hi).
    + intros Hid. exfalso.
      pose proof (PanelRun.wf_stale c Hwf _ Hid) as Hlt.
      assert (Hin : Panel.el_id (Panel.el l) ∈ PanelRun.ids ls).
      { unfold PanelRun.ids. apply list_elem_of_fmap. exists l.
        split; [reflexivity|]. eapply list_elem_of_lookup_2. exact Hl. }
      rewrite Hids in Hin. apply elem_of_seq in Hin. lia.
Qed.

Lemma panel_wf_synccaptions (c : Panel.Client) :
  PanelRun.wf c -> PanelRun.wf (Panel.synccaptions c).
Proof.
  intros Hwf. destruct (Panel.frame_index c) as [idx|] eqn:Hf.
  - apply (panel_step c idx Hwf Hf).
  - unfold Panel.synccaptions. rewrite Hf. exact Hwf.
Qed.

(** ** Runs of frames *)

Lemma nondecreasing_head (t : number) (ts : list number) :
  nondecreasing (t :: ts) = true -> forall t', t' ∈ ts -> le t t' = true.
Proof.
  revert t. induction ts as [|t2 ts IH]; intros t Hs t' Hin.
  - inversion Hin.
  - cbn [nondecreasing] in Hs. apply andb_true_iff in Hs as [H12 Hrest].
    apply elem_of_cons in Hin as [->|Hin]; [assumption|].
    eapply le_trans; [exact H12|]. apply IH; assumption.
Qed.

Lemma nondecreasing_tail (t : number) (ts : list number) :
  nondecreasing (t :: ts) = true -> nondecreasing ts = true.
Proof.
  cbn [nondecreasing]. destruct ts; [reflexivity|].
  intros Hs. apply andb_true_iff in Hs. tauto.
Qed.

Lemma nondecreasing_last (ts : list number) (tl : number) :
  nondecreasing ts = true -> last ts = Some tl -> le tl tl = true ->
  forall t, t ∈ ts -> le t tl = true.
Proof.
  induction ts as [|t1 ts IH]; intros Hs Hl Hrefl t Hin; [inversion Hin|].
  destruct ts as [|t2 ts].
  - cbn in Hl. injection Hl as <-.
    apply elem_of_cons in Hin as [->|Hin]; [assumption|inversion Hin].
  - assert (Hl' : last (t2 :: ts) = Some tl) by exact Hl.
    pose proof (nondecreasing_tail _ _ Hs) as Hs'.
    apply elem_of_cons in Hin as [->|Hin].
    + eapply le_trans; [|apply (IH Hs' Hl' Hrefl t2); left].
      cbn [nondecreasing] in Hs. apply andb_true_iff in Hs. tauto.
    + apply IH; assumption.
Qed.

(** Over the spans (0,2), (2,4) and for [1.9 <= t <= 2.1], the scan
    gives 0 up to the boundary and 1 past it. *)
Lemma scan_across_boundary (t : number) :
  le (lit 19 (-1)) t = true -> le t (lit 21 (-1)) = true ->
  scan [ (lit 0 0, lit 2 0); (lit 2 0, lit 4 0) ] t
  = if le t (lit 2 0) then 0 else 1.
Proof.
  intros Hlo Hhi. unfold scan. cbn [scan_from start end_ span_Timed fst snd].
  assert (H0 : le (lit 0 0) t = true)
    by (eapply le_trans; [|exact Hlo]; reflexivity).
  assert (H4 : le t (lit 4 0) = true)
    by (eapply le_trans; [exact Hhi|]; reflexivity).
  rewrite !ge_le, !gt_lt. rewrite H0, H4. cbn [andb].
  destruct (le t (lit 2 0)) eqn:H2; [reflexivity|].
  rewrite (le_not_lt _ _ H0).
  destruct (le_not_nan _ _ Hlo) as [_ Ht].
  rewrite (lt_le _ _ (not_le_lt t (lit 2 0) Ht eq_refl H2)). reflexivity.
Qed.

Lemma emitted_past_boundary (ts : list number) :
  Forall (fun t => le t (lit 2 0) = false) ts ->
  emitted 1 ((fun t => if le t (lit 2 0) then 0 else 1) <$> ts) = [].
Proof.
  induction 1 as [|t ts Ht _ IH]; [reflexivity|].
  cbn [fmap list_fmap emitted]. rewrite Ht. exact IH.
Qed.

Lemma nondecreasing_past_boundary (t : number) (ts : list number) :
  nondecreasing (t :: ts) = true -> le t (lit 2 0) = false ->
  Forall (fun t' => le t' (lit 2 0) = false) ts.
Proof.
  intros Hs Ht. apply Forall_forall. intros t' Hin.
  destruct (le t' (lit 2 0)) eqn:E; [|reflexivity].
  pose proof (nondecreasing_head _ _ Hs t' Hin) as Hle.
  rewrite (le_trans _ _ _ Hle E) in Ht. discriminate.
Qed.

(** Scan times that rise from at most 2 to more than 2 make the active
    index go from 0 to 1 once. *)
Lemma emitted_crossing (ts : list number) (tl : number) :
  nondecreasing ts = true -> last ts = Some tl -> le tl (lit 2 0) = false ->
  emitted 0 ((fun t => if le t (lit 2 0) then 0 else 1) <$> ts)
  = [Exit 0; Enter 1].
Proof.
  induction ts as [|t ts IH]; intros Hs Hl Htl; [discriminate|].
  cbn [fmap list_fmap emitted].
  destruct (le t (lit 2 0)) eqn:Ht.
  - destruct ts as [|t2 ts].
    + cbn in Hl. congruence.
    + cbn [transitions Z.eqb app]. apply IH; [|exact Hl|exact Htl].
      eapply nondecreasing_tail. exact Hs.
  - change (transitions 0 1) with [Exit 0; Enter 1].
    change (list_fmap number Z ?f ts) with (f <$> ts).
    rewrite emitted_past_boundary; [reflexivity|].
    eapply nondecreasing_past_boundary; eassumption.
Qed.

Section EngineRuns.

Context {S : Type} (frame : number -> S -> S) (active : S -> Z).
Context (inv : S -> Prop) (spans : list (number * number)).

Hypothesis frame_inv : forall clock s, inv s -> inv (frame clock s).
Hypothesis frame_active :
  forall clock s, inv s -> active (frame clock s) = scan spans (scan_time clock).

Lemma trace_actives (clocks : list number) (s : S) :
  inv s ->
  active <$> trace frame clocks s
  = (fun clock => scan spans (scan_time clock)) <$> clocks.
Proof.
  revert s. induction clocks as [|clock clocks IH]; intros s Hs; [reflexivity|].
  cbn [trace fmap list_fmap]. rewrite frame_active by assumption.
  f_equal. apply IH, frame_inv, Hs.
Qed.

End EngineRuns.

(** An engine over the spans (0,2), (2,4) whose scan time rises from 1.9
    to 2.1 leaves segment 0 and enters segment 1 once, and has one of the
    two active after every frame. *)
Lemma crossing_run {S : Type} (frame : number -> S -> S) (active : S -> Z)
    (inv : S -> Prop) :
  (forall clock s, inv s -> inv (frame clock s)) ->
  (forall clock s, inv s ->
     active (frame clock s)
     = scan [ (lit 0 0, lit 2 0); (lit 2 0, lit 4 0) ] (scan_time clock)) ->
  forall (s : S) (clock0 : number) (clocks : list number),
    inv s ->
    scan_time clock0 = lit 19 (-1) ->
    nondecreasing (scan_time <$> clock0 :: clocks) = true ->
    last (scan_time <$> clock0 :: clocks) = Some (lit 21 (-1)) ->
    active (frame clock0 s) = 0
    /\ emissions frame active clocks (frame clock0 s) = [Exit 0; Enter 1]
    /\ Forall (fun s' => active s' = 0 \/ active s' = 1)
         (trace frame clocks (frame clock0 s)).
Proof.
  intros Hinv Hact s clock0 clocks Hs H0 Hnd Hlast.
  cbn [fmap list_fmap] in Hnd, Hlast. rewrite H0 in Hnd, Hlast.
  change (list_fmap number number scan_time clocks) with (scan_time <$> clocks)
    in Hnd, Hlast.
  assert (Hlast' : last (scan_time <$> clocks) = Some (lit 21 (-1))).
  { destruct (scan_time <$> clocks) as [|t ts]; [|exact Hlast].
    cbn in Hlast. discriminate. }
  assert (Hrange : forall t, t ∈ scan_time <$> clocks ->
            le (lit 19 (-1)) t = true /\ le t (lit 21 (-1)) = true).
  { intros t Hin. split.
    - eapply nondecreasing_head; eassumption.
    - eapply nondecreasing_last; [|exact Hlast'|reflexivity|exact Hin].
      eapply nondecreasing_tail. exact Hnd. }
  assert (Hindices : active <$> trace frame clocks (frame clock0 s)
            = (fun t => if le t (lit 2 0) then 0 else 1) <$> (scan_time <$> clocks)).
  { rewrite (trace_actives frame active inv _ Hinv Hact) by (apply Hinv, Hs).
    rewrite <- list_fmap_compose. apply list_fmap_ext. intros i clock Hi.
    cbn. apply scan_across_boundary; apply Hrange;
      apply list_elem_of_fmap; exists clock;
      (split; [reflexivity|eapply list_elem_of_lookup_2; exact Hi]). }
  assert (Hfirst : active (frame clock0 s) = 0).
  { rewrite Hact by assumption. rewrite H0. reflexivity. }
  split; [exact Hfirst|]. split.
  - unfold emissions. rewrite Hfirst, Hindices.
    eapply emitted_crossing; [|exact Hlast'|reflexivity].
    eapply nondecreasing_tail. exact Hnd.
  - assert (Hall : Forall (fun a => a = 0 \/ a = 1)
                (active <$> trace frame clocks (frame clock0 s))).
    { rewrite Hindices. apply Forall_forall. intros a Ha.
      apply list_elem_of_fmap in Ha as (t & -> & _).
      destruct (le t (lit 2 0)); auto. }
    apply Forall_fmap in Hall. exact Hall.
Qed.

(** The first line carrying the class, if any. *)
Lemma first_active_cases (flags : list bool) (i : Z) :
  (PanelRun.first_active i flags = -1 /\ forall j, flags !! j = Some true -> False)
  \/ (exists k, PanelRun.first_active i flags = i + Z.of_nat k
        /\ flags !! k = Some true).
Proof.
  revert i. induction flags as [|b flags IH]; intros i; cbn [PanelRun.first_active].
  - left. split; [reflexivity|]. intros j Hj. rewrite lookup_nil in Hj. discriminate.
  - destruct b.
    + right. exists 0%nat. split; [lia|reflexivity].
    + destruct (IH (i + 1)) as [[E Hn]|(k & E & Hk)].
      * left. split; [exact E|]. intros [|j] Hj; [discriminate|]. exact (Hn j Hj).
      * right. exists (S k). split; [lia|exact Hk].
Qed.

(** ** Frames of the two revisions *)

Lemma overlay_sync_keeps (c : Overlay.Client) :
  Overlay.segments (Overlay.synccaptions c) = Overlay.segments c
  /\ Overlay.captionsVisible (Overlay.synccaptions c) = Overlay.captionsVisible c.
Proof.
  unfold Overlay.synccaptions. destruct (Overlay.frame_index c) as [idx|]; [|auto].
  destruct (negb (idx =? Overlay.activeIdx c)); auto.
Qed.

Lemma overlay_frame_active (clock : number) (c : Overlay.Client) :
  Overlay.segments c <> [] -> Overlay.captionsVisible c = true ->
  Overlay.activeIdx (OverlayRun.frame clock c)
  = scan (span <$> Overlay.segments c) (scan_time clock).
Proof.
  intros Hne Hv. unfold OverlayRun.frame.
  rewrite (overlay_frame_stores (Overlay.set_currentTime clock c) _
             (overlay_frame_index (Overlay.set_currentTime clock c) Hne Hv)).
  unfold scan. rewrite scan_from_spans. reflexivity.
Qed.

Lemma panel_frame_active (clock : number) (c : Panel.Client) :
  PanelRun.wf c -> Panel.lines c <> [] ->
  PanelRun.wf (PanelRun.frame clock c)
  /\ PanelRun.active_index (PanelRun.frame clock c)
     = scan (span <$> Panel.lines c) (scan_time clock).
Proof.
  intros Hwf Hne. unfold PanelRun.frame.
  assert (Hwf' : PanelRun.wf (Panel.set_currentTime clock c))
    by (destruct Hwf; split; assumption).
  destruct (panel_step _ _ Hwf' (panel_frame_index (Panel.set_currentTime clock c) Hne))
    as [Hw Ha].
  split; [exact Hw|]. rewrite Ha. unfold scan. rewrite scan_from_spans. reflexivity.
Qed.

(** ** Claims about highlight changes *)

(** C5. In every frame of the sync engine that computes an index: when
    the index equals the one that was active, the highlight is left as it
    is; when it differs, the segment that was active is left once and the
    computed one is entered once in that frame, and afterwards the
    computed segment alone is active; a computed [-1] clears the
    highlight.  So, over segments (0,2), (2,4), frames whose scan time
    [t] rises from 1.9 to 2.1 leave segment 0 and enter segment 1 exactly
    once, with exactly one of the two active after each frame. *)
Theorem highlight_changes_once_per_index_change :
  (forall (c : Overlay.Client) (idx : Z),
     Overlay.frame_index c = Some idx ->
     let c' := Overlay.synccaptions c in
     (idx = Overlay.activeIdx c -> c' = c)
     /\ Overlay.activeIdx c' = idx
     /\ (idx <> Overlay.activeIdx c ->
         Overlay.captionText c'
         = if idx =? -1 then [] else Overlay.text_at (Overlay.segments c) idx)
     /\ (idx <> Overlay.activeIdx c -> Overlay.activeIdx c <> -1 -> idx <> -1 ->
         transitions (Overlay.activeIdx c) (Overlay.activeIdx c')
         = [Exit (Overlay.activeIdx c); Enter idx]))
  /\ (forall (c : Panel.Client) (idx : Z),
        PanelRun.wf c -> Panel.frame_index c = Some idx ->
        let c' := Panel.synccaptions c in
        PanelRun.wf c'
        /\ (idx = PanelRun.active_index c ->
            PanelRun.actives (Panel.lines c') = PanelRun.actives (Panel.lines c))
        /\ PanelRun.active_index c' = idx
        /\ (forall i, PanelRun.actives (Panel.lines c') !! i = Some true ->
              Z.of_nat i = idx)
        /\ (idx <> PanelRun.active_index c -> PanelRun.active_index c <> -1 ->
            idx <> -1 ->
            transitions (PanelRun.active_index c) (PanelRun.active_index c')
            = [Exit (PanelRun.active_index c); Enter idx]))
  /\ (forall (c : Overlay.Client) (clock0 : number) (clocks : list number),
        span <$> Overlay.segments c = [ (lit 0 0, lit 2 0); (lit 2 0, lit 4 0) ] ->
        Overlay.captionsVisible c = true ->
        scan_time clock0 = lit 19 (-1) ->
        nondecreasing (scan_time <$> clock0 :: clocks) = true ->
        last (scan_time <$> clock0 :: clocks) = Some (lit 21 (-1)) ->
        let c0 := OverlayRun.frame clock0 c in
        Overlay.activeIdx c0 = 0
        /\ emissions OverlayRun.frame Overlay.activeIdx clocks c0 = [Exit 0; Enter 1]
        /\ Forall (fun c' => Overlay.activeIdx c' = 0 \/ Overlay.activeIdx c' = 1)
             (trace OverlayRun.frame clocks c0))
  /\ (forall (c : Panel.Client) (clock0 : number) (clocks : list number),
        PanelRun.wf c ->
        span <$> Panel.lines c = [ (lit 0 0, lit 2 0); (lit 2 0, lit 4 0) ] ->
        scan_time clock0 = lit 19 (-1) ->
        nondecreasing (scan_time <$> clock0 :: clocks) = true ->
        last (scan_time <$> clock0 :: clocks) = Some (lit 21 (-1)) ->
        let c0 := PanelRun.frame clock0 c in
        PanelRun.active_index c0 = 0
        /\ emissions PanelRun.frame PanelRun.active_index clocks c0 = [Exit 0; Enter 1]
        /\ Forall (fun c' => PanelRun.active_index c' = 0 \/ PanelRun.active_index c' = 1)
             (trace PanelRun.frame clocks c0)).
Proof.
  split; [|split; [|split]].
  - intros c idx Hf c'. subst c'.
    pose proof (overlay_frame_stores c idx Hf) as Hstore.
    split; [|split; [exact Hstore|split]].
    + intros ->. unfold Overlay.synccaptions. rewrite Hf, Z.eqb_refl. reflexivity.
    + intros Hne. unfold Overlay.synccaptions. rewrite Hf.
      apply Z.eqb_neq in Hne. rewrite Hne. cbn [negb Overlay.captionText Overlay.set_captions].
      destruct (idx =? -1); reflexivity.
    + intros Hne Hprev Hidx. rewrite Hstore. unfold transitions.
      apply not_eq_sym in Hne.
      apply Z.eqb_neq in Hne, Hprev, Hidx. rewrite Hne, Hprev, Hidx. reflexivity.
  - intros c idx Hwf Hf c'. subst c'.
    destruct (panel_step c idx Hwf Hf) as [Hwf' Hidx].
    split; [exact Hwf'|]. split; [|split; [exact Hidx|split]].
    + intros Heq. unfold Panel.synccaptions. rewrite Hf.
      destruct (negb (idx =? -1) && _) eqn:E1.
      * exfalso. apply andb_true_iff in E1 as [E1 E2].
        apply negb_true_iff, Z.eqb_neq in E1.
        apply negb_true_iff, bool_decide_eq_false_1 in E2. apply E2.
        destruct (panel_frame_index_range c idx Hf) as [_ [?|Hr]]; [contradiction|].
        destruct (lookup_lt_is_Some_2 (PanelRun.actives (Panel.lines c)) (Z.to_nat idx))
          as [b Hb]; [unfold PanelRun.actives; rewrite length_fmap; lia|].
        assert (Hb' : PanelRun.actives (Panel.lines c) !! Z.to_nat idx = Some true).
        { destruct b; [exact Hb|]. exfalso.
          destruct (first_active_cases (PanelRun.actives (Panel.lines c)) 0)
            as [[E _]|(k & E & Hk)].
          - unfold PanelRun.active_index in Heq. lia.
          - unfold PanelRun.active_index in Heq.
            assert (k = Z.to_nat idx) by lia. subst k. congruence. }
        unfold PanelRun.actives in Hb'. rewrite list_lookup_fmap in Hb'.
        destruct (Panel.lines c !! Z.to_nat idx) as [l|] eqn:El; [|discriminate].
        injection Hb' as Hb'. apply (PanelRun.wf_active c Hwf _ l El) in Hb'.
        unfold Panel.element_at. rewrite El. exact Hb'.
      * destruct ((idx =? -1) && _) eqn:E2; [|reflexivity].
        cbn [Panel.lines Panel.set_highlight]. rewrite actives_remove_marks.
        apply andb_true_iff in E2 as [E2 _]. apply Z.eqb_eq in E2.
        rewrite E2 in Heq. apply list_eq. intros i.
        destruct (PanelRun.actives (Panel.lines c) !! i) as [b|] eqn:Eb.
        -- rewrite lookup_replicate_2
             by (apply lookup_lt_Some in Eb; unfold PanelRun.actives in Eb;
                 rewrite length_fmap in Eb; exact Eb).
           destruct b; [|reflexivity]. exfalso.
           destruct (first_active_cases (PanelRun.actives (Panel.lines c)) 0)
             as [[_ Hn]|(k & E & _)].
           ++ exact (Hn i Eb).
           ++ unfold PanelRun.active_index in Heq. lia.
        -- apply lookup_ge_None in Eb. apply lookup_ge_None.
           unfold PanelRun.actives in Eb. rewrite length_fmap in Eb.
           rewrite length_replicate. exact Eb.
    + intros i Hi.
      destruct (first_active_cases
                  (PanelRun.actives (Panel.lines (Panel.synccaptions c))) 0)
        as [[_ Hn]|(k & E & Hk)].
      * destruct (Hn i Hi).
      * unfold PanelRun.active_index in Hidx.
        rewrite (wf_unique_active _ i k Hwf' Hi Hk). lia.
    + intros Hne Hprev Hi. rewrite Hidx. unfold transitions.
      apply not_eq_sym in Hne.
      apply Z.eqb_neq in Hne, Hprev, Hi. rewrite Hne, Hprev, Hi. reflexivity.
  - intros c clock0 clocks Hspans Hv.
    apply (crossing_run OverlayRun.frame Overlay.activeIdx
             (fun c => span <$> Overlay.segments c
                       = [ (lit 0 0, lit 2 0); (lit 2 0, lit 4 0) ]
                       /\ Overlay.captionsVisible c = true)).
    + intros clock s [Hs Hvis]. unfold OverlayRun.frame.
      destruct (overlay_sync_keeps (Overlay.set_currentTime clock s)) as [-> ->].
      split; assumption.
    + intros clock s [Hs Hvis]. rewrite overlay_frame_active; [|..|exact Hvis].
      * rewrite Hs. reflexivity.
      * intros E. rewrite E in Hs. discriminate.
    + split; assumption.
  - intros c clock0 clocks Hwf Hspans.
    apply (crossing_run PanelRun.frame PanelRun.active_index
             (fun c => PanelRun.wf c
                       /\ span <$> Panel.lines c
                          = [ (lit 0 0, lit 2 0); (lit 2 0, lit 4 0) ])).
    + intros clock s [Hw Hs].
      assert (Hne : Panel.lines s <> []) by (intros E; rewrite E in Hs; discriminate).
      split; [apply panel_frame_active; assumption|].
      unfold PanelRun.frame. rewrite sync_spans. exact Hs.
    + intros clock s [Hw Hs].
      assert (Hne : Panel.lines s <> []) by (intros E; rewrite E in Hs; discriminate).
      destruct (panel_frame_active clock s Hw Hne) as [_ ->]. rewrite Hs. reflexivity.
    + split; assumption.
Qed.

Lemma highlight_changes_once_per_index_change_witness :
  let c := Overlay.buildcaptions
      (Some {| t_segments := Some
         [ {| raw_text := Some (str "one"); raw_start := lit 0 0;
              raw_end := lit 2 0; words := None |};
           {| raw_text := Some (str "two"); raw_start := lit 2 0;
              raw_end := lit 4 0; words := None |} ] |})
      (Overlay.blank ∅) in
  let clocks := [lit 18 (-1); lit 185 (-2); lit 19 (-1); lit 195 (-2)] in
  scan_time (lit 175 (-2)) = lit 19 (-1)
  /\ nondecreasing (scan_time <$> lit 175 (-2) :: clocks) = true
  /\ emissions OverlayRun.frame Overlay.activeIdx clocks
       (OverlayRun.frame (lit 175 (-2)) c) = [Exit 0; Enter 1].
Proof.
  cbv zeta. split; [vm_compute; reflexivity|]. split; [vm_compute; reflexivity|].
  refine (proj1 (proj2 (proj1 (proj2 (proj2 highlight_changes_once_per_index_change))
    _ (lit 175 (-2)) [lit 18 (-1); lit 185 (-2); lit 19 (-1); lit 195 (-2)]
    _ _ _ _ _))); vm_compute; reflexivity.
Defined.

(** ** Claims about statelessness and the empty transcript *)

Lemma overlay_frame_of_empty (clock : number) (c : Overlay.Client) :
  Overlay.segments c = [] ->
  OverlayRun.frame clock c = Overlay.set_currentTime clock c.
Proof.
  intros He. unfold OverlayRun.frame, Overlay.synccaptions, Overlay.frame_index.
  cbn [Overlay.segments Overlay.set_currentTime]. rewrite He. reflexivity.
Qed.

Lemma panel_frame_of_empty (clock : number) (c : Panel.Client) :
  Panel.lines c = [] ->
  PanelRun.frame clock c = Panel.set_currentTime clock c.
Proof.
  intros He. unfold PanelRun.frame, Panel.synccaptions, Panel.frame_index.
  cbn [Panel.lines Panel.set_currentTime]. rewrite He. reflexivity.
Qed.

Lemma overlay_idle_trace (clocks : list number) (c : Overlay.Client) :
  Overlay.segments c = [] ->
  Forall (fun c' => Overlay.activeIdx c' = Overlay.activeIdx c
                    /\ Overlay.captionText c' = Overlay.captionText c
                    /\ Overlay.segments c' = [])
    (trace OverlayRun.frame clocks c).
Proof.
  revert c. induction clocks as [|clock clocks IH]; intros c He; cbn [trace].
  - constructor.
  - rewrite overlay_frame_of_empty by assumption. constructor.
    + cbn. auto.
    + apply (IH (Overlay.set_currentTime clock c) He).
Qed.

Lemma panel_idle_trace (clocks : list number) (c : Panel.Client) :
  Panel.lines c = [] ->
  Forall (fun c' => Panel.activeLine c' = Panel.activeLine c
                    /\ Panel.lines c' = []
                    /\ Panel.scrolledTo c' = Panel.scrolledTo c)
    (trace PanelRun.frame clocks c).
Proof.
  revert c. induction clocks as [|clock clocks IH]; intros c He; cbn [trace].
  - constructor.
  - rewrite panel_frame_of_empty by assumption. constructor.
    + cbn. auto.
    + apply (IH (Panel.set_currentTime clock c) He).
Qed.

Lemma emitted_constant (a : Z) (l : list Z) :
  Forall (fun b => b = a) l -> emitted a l = [].
Proof.
  induction 1 as [|b l -> _ IH]; [reflexivity|].
  cbn [emitted]. unfold transitions. rewrite Z.eqb_refl. exact IH.
Qed.

(** C8. On an empty segment list every frame returns at once and leaves
    the state as it was, whatever the clock reads: over any run of frames
    the active index and the caption shown never change and no highlight
    change is seen. *)
Theorem empty_transcript_is_idle (oc : Overlay.Client) (pc : Panel.Client)
    (clocks : list number) :
  Overlay.segments oc = [] -> Panel.lines pc = [] ->
  Overlay.synccaptions oc = oc
  /\ Panel.synccaptions pc = pc
  /\ Forall (fun c' => Overlay.activeIdx c' = Overlay.activeIdx oc
                       /\ Overlay.captionText c' = Overlay.captionText oc
                       /\ Overlay.segments c' = [])
       (trace OverlayRun.frame clocks oc)
  /\ emissions OverlayRun.frame Overlay.activeIdx clocks oc = []
  /\ Forall (fun c' => Panel.activeLine c' = Panel.activeLine pc
                       /\ Panel.lines c' = []
                       /\ Panel.scrolledTo c' = Panel.scrolledTo pc)
       (trace PanelRun.frame clocks pc).
Proof.
  intros Ho Hp. split; [|split; [|split; [|split]]].
  - unfold Overlay.synccaptions, Overlay.frame_index. rewrite Ho. reflexivity.
  - unfold Panel.synccaptions, Panel.frame_index. rewrite Hp. reflexivity.
  - apply overlay_idle_trace. exact Ho.
  - unfold emissions. apply emitted_constant. apply Forall_fmap.
    eapply Forall_impl; [apply overlay_idle_trace; exact Ho|].
    cbn. intros c' (E & _ & _). exact E.
  - apply panel_idle_trace. exact Hp.
Qed.

Lemma empty_transcript_is_idle_witness :
  Overlay.synccaptions (Overlay.blank ∅) = Overlay.blank ∅.
Proof.
  exact (proj1 (empty_transcript_is_idle (Overlay.blank ∅) (Panel.blank ∅)
                  [lit 0 0; lit 5 0] eq_refl eq_refl)).
Defined.

Lemma overlay_frame_index_agrees (c1 c2 : Overlay.Client) (t : number) :
  Overlay.segments c1 = Overlay.segments c2 ->
  Overlay.captionsVisible c1 = Overlay.captionsVisible c2 ->
  Overlay.frame_index (Overlay.set_currentTime t c1)
  = Overlay.frame_index (Overlay.set_currentTime t c2).
Proof.
  intros Hs Hv. unfold Overlay.frame_index.
  cbn [Overlay.segments Overlay.captionsVisible Overlay.currentTime
       Overlay.set_currentTime].
  rewrite Hs, Hv. reflexivity.
Qed.

Lemma panel_frame_index_agrees (c1 c2 : Panel.Client) (t : number) :
  span <$> Panel.lines c1 = span <$> Panel.lines c2 ->
  Panel.frame_index (Panel.set_currentTime t c1)
  = Panel.frame_index (Panel.set_currentTime t c2).
Proof.
  intros Hs. unfold Panel.frame_index.
  cbn [Panel.lines Panel.currentTime Panel.set_currentTime].
  assert (Hlen : length (Panel.lines c1) = length (Panel.lines c2)).
  { rewrite <- (length_fmap span (Panel.lines c1)), Hs. apply length_fmap. }
  rewrite Hlen. unfold scan.
  rewrite <- (scan_from_spans (Panel.lines c1)), Hs, scan_from_spans. reflexivity.
Qed.

(** C6. The index a frame computes is a function of the segments and of
    the clock alone: two clients with the same segments compute the same
    index at the same clock value whatever index each had stored, and a
    frame run after a jump of the clock, backward or forward, leaves the
    same active segment as a frame run at that clock value without the
    jump. *)
Theorem sync_index_is_stateless (oc1 oc2 : Overlay.Client)
    (pc1 pc2 : Panel.Client) (t : number) :
  Overlay.segments oc1 = Overlay.segments oc2 ->
  Overlay.captionsVisible oc1 = Overlay.captionsVisible oc2 ->
  span <$> Panel.lines pc1 = span <$> Panel.lines pc2 ->
  Overlay.frame_index (Overlay.set_currentTime t oc1)
  = Overlay.frame_index (Overlay.set_currentTime t oc2)
  /\ Panel.frame_index (Panel.set_currentTime t pc1)
     = Panel.frame_index (Panel.set_currentTime t pc2)
  /\ (forall idx, Overlay.frame_index (Overlay.set_currentTime t oc1) = Some idx ->
        Overlay.activeIdx (OverlayRun.frame t oc1) = idx
        /\ Overlay.activeIdx (OverlayRun.frame t oc2) = idx)
  /\ (forall idx, Panel.frame_index (Panel.set_currentTime t pc1) = Some idx ->
        PanelRun.wf pc1 -> PanelRun.wf pc2 ->
        PanelRun.active_index (PanelRun.frame t pc1) = idx
        /\ PanelRun.active_index (PanelRun.frame t pc2) = idx)
  /\ (forall t_before,
        Overlay.activeIdx (OverlayRun.frame t (OverlayRun.frame t_before oc1))
        = Overlay.activeIdx (OverlayRun.frame t oc1))
  /\ (forall t_before,
        Panel.activeLine (PanelRun.frame t (PanelRun.frame t_before pc1))
        = Panel.activeLine (PanelRun.frame t pc1)).
Proof.
  intros Hs Hv Hp.
  pose proof (overlay_frame_index_agrees oc1 oc2 t Hs Hv) as Ho.
  pose proof (panel_frame_index_agrees pc1 pc2 t Hp) as Hpi.
  split; [exact Ho|]. split; [exact Hpi|]. split; [|split; [|split]].
  - intros idx Hf. split; apply overlay_frame_stores; congruence.
  - intros idx Hf Hw1 Hw2. split.
    + apply panel_step; [destruct Hw1; split; assumption|exact Hf].
    + apply panel_step; [destruct Hw2; split; assumption|congruence].
  - intros t_before. unfold OverlayRun.frame at 1 3.
    destruct (overlay_sync_keeps (Overlay.set_currentTime t_before oc1)) as [Es Ev].
    pose proof (overlay_frame_index_agrees
                  (OverlayRun.frame t_before oc1) oc1 t Es Ev) as Hag.
    destruct (Overlay.frame_index (Overlay.set_currentTime t oc1)) as [idx|] eqn:Hf.
    + rewrite (overlay_frame_stores _ idx Hag), (overlay_frame_stores _ idx Hf).
      reflexivity.
    + unfold Overlay.synccaptions. rewrite Hag, Hf.
      cbn [Overlay.activeIdx Overlay.set_currentTime].
      unfold OverlayRun.frame, Overlay.synccaptions.
      destruct (Overlay.frame_index (Overlay.set_currentTime t_before oc1))
        as [idx'|] eqn:Hf'; [|reflexivity].
      exfalso. unfold Overlay.frame_index in Hf, Hf'.
      cbn [Overlay.segments Overlay.captionsVisible Overlay.set_currentTime] in Hf, Hf'.
      destruct ((length (Overlay.segments oc1) =? 0)%nat
                || negb (Overlay.captionsVisible oc1)); discriminate.
  - intros t_before. unfold PanelRun.frame at 1 3.
    pose proof (sync_spans (Panel.set_currentTime t_before pc1)) as Es.
    pose proof (sync_ids (Panel.set_currentTime t_before pc1)) as Ei.
    cbn [Panel.lines Panel.set_currentTime] in Es, Ei.
    pose proof (panel_frame_index_agrees
                  (PanelRun.frame t_before pc1) pc1 t Es) as Hag.
    destruct (Panel.frame_index (Panel.set_currentTime t pc1)) as [idx|] eqn:Hf.
    + rewrite (panel_frame_stores _ idx Hag), (panel_frame_stores _ idx Hf).
      destruct (idx =? -1); [reflexivity|].
      cbn [Panel.lines Panel.set_currentTime]. rewrite !element_at_ids.
      unfold PanelRun.frame. rewrite Ei. reflexivity.
    + unfold Panel.synccaptions. rewrite Hag, Hf.
      cbn [Panel.activeLine Panel.set_currentTime].
      unfold PanelRun.frame, Panel.synccaptions.
      destruct (Panel.frame_index (Panel.set_currentTime t_before pc1))
        as [idx'|] eqn:Hf'; [|reflexivity].
      exfalso. unfold Panel.frame_index in Hf, Hf'.
      cbn [Panel.lines Panel.set_currentTime] in Hf, Hf'.
      destruct (length (Panel.lines pc1) =? 0)%nat; discriminate.
Qed.

Lemma sync_index_is_stateless_witness :
  let fresh := Overlay.buildcaptions
      (Some {| t_segments := Some
         [ {| raw_text := Some (str "one"); raw_start := lit 0 0;
              raw_end := lit 2 0; words := None |};
           {| raw_text := Some (str "two"); raw_start := lit 2 0;
              raw_end := lit 4 0; words := None |};
           {| raw_text := Some (str "three"); raw_start := lit 5 0;
              raw_end := lit 7 0; words := None |} ] |})
      (Overlay.blank ∅) in
  let played := OverlayRun.frame (lit 6 0) fresh in
  Overlay.activeIdx played = 2
  /\ Overlay.frame_index (Overlay.set_currentTime (lit 5 (-1)) played)
     = Overlay.frame_index (Overlay.set_currentTime (lit 5 (-1)) fresh).
Proof.
  cbv zeta. split; [vm_compute; reflexivity|].
  refine (proj1 (sync_index_is_stateless _ _ (Panel.blank ∅) (Panel.blank ∅)
                   (lit 5 (-1)) _ _ _)); vm_compute; reflexivity.
Defined.

(** ** Claims about polling *)

Lemma string_eqb_eq (a b : jsstring) : string_eqb a b = true <-> a = b.
Proof. unfold string_eqb. apply bool_decide_eq_true. Qed.

Lemma reports_completed_not_error (res : FetchResult) :
  reports (str "error") res = true -> reports (str "completed") res = false.
Proof.
  destruct res as [|[|] [d|]]; cbn; try discriminate.
  intros He. apply string_eqb_eq in He. rewrite He. reflexivity.
Qed.

Lemma overlay_callback_other (id : jsstring) (res : FetchResult) (c : Overlay.Client) :
  reports (str "completed") res = false ->
  OverlayRun.view (Overlay.poll_callback id res c) = OverlayRun.view c
  /\ Overlay.localStorage (Overlay.poll_callback id res c) = Overlay.localStorage c
  /\ Overlay.currentJobId (Overlay.poll_callback id res c) = Overlay.currentJobId c
  /\ (reports (str "error") res = false -> Overlay.poll_callback id res c = c).
Proof.
  destruct res as [|[|] [d|]]; cbn [reports Overlay.poll_callback]; auto.
  intros ->. destruct (string_eqb (d_status d) (str "error")); auto.
  repeat split. discriminate.
Qed.

Lemma overlay_callback_error (id : jsstring) (res : FetchResult) (c : Overlay.Client) :
  reports (str "error") res = true ->
  Overlay.poll (Overlay.poll_callback id res c) = None
  /\ Overlay.statusMsg (Overlay.poll_callback id res c)
     = (str "Error", str "status-msg error")
  /\ Overlay.uploadBtn_disabled (Overlay.poll_callback id res c) = false.
Proof.
  intros He. pose proof (reports_completed_not_error res He) as Hc.
  destruct res as [|[|] [d|]]; cbn [reports] in *; try discriminate.
  cbn [Overlay.poll_callback]. rewrite Hc, He. repeat split.
Qed.

Lemma overlay_polling_stopped (responses : list FetchResult) (c : Overlay.Client) :
  Overlay.poll c = None -> Overlay.polling responses c = c.
Proof.
  intros Hp. induction responses as [|res responses IH]; [reflexivity|].
  cbn [Overlay.polling fold_left]. unfold Overlay.tick at 2. rewrite Hp. exact IH.
Qed.

Lemma overlay_polling_app (l1 l2 : list FetchResult) (c : Overlay.Client) :
  Overlay.polling (l1 ++ l2) c = Overlay.polling l2 (Overlay.polling l1 c).
Proof. unfold Overlay.polling. apply fold_left_app. Qed.

(** While no response reports completion, polling leaves the reader as
    it was; the timer stops only on an error report, which shows on the
    status line. *)
Lemma overlay_polling_pending (responses : list FetchResult) (c : Overlay.Client) :
  Forall (fun res => reports (str "completed") res = false) responses ->
  OverlayRun.view (Overlay.polling responses c) = OverlayRun.view c
  /\ (Overlay.poll (Overlay.polling responses c) = Overlay.poll c
      \/ (Overlay.poll (Overlay.polling responses c) = None
          /\ Overlay.statusMsg (Overlay.polling responses c)
             = (str "Error", str "status-msg error"))).
Proof.
  intros Hall. revert c. induction Hall as [|res responses Hres _ IH]; intros c.
  - cbn. auto.
  - cbn [Overlay.polling fold_left].
    fold (Overlay.polling responses (Overlay.tick res c)).
    destruct (Overlay.poll c) as [id|] eqn:Hp.
    + unfold Overlay.tick. rewrite Hp.
      destruct (overlay_callback_other id res c Hres) as (Hv & _ & _ & Hsame).
      destruct (reports (str "error") res) eqn:He.
      * destruct (overlay_callback_error id res c He) as (Hp' & Hst & _).
        rewrite overlay_polling_stopped by exact Hp'.
        split; [exact Hv|]. right. split; assumption.
      * rewrite (Hsame eq_refl). rewrite <- Hp. apply IH.
    + assert (Ht : Overlay.tick res c = c)
        by (unfold Overlay.tick; rewrite Hp; reflexivity).
      rewrite Ht, overlay_polling_stopped by exact Hp. auto.
Qed.

Lemma panel_callback_other (id : jsstring) (res : FetchResult) (c : Panel.Client) :
  reports (str "completed") res = false ->
  PanelRun.view (Panel.poll_callback id res c) = PanelRun.view c
  /\ Panel.localStorage (Panel.poll_callback id res c) = Panel.localStorage c
  /\ Panel.currentJobId (Panel.poll_callback id res c) = Panel.currentJobId c
  /\ (reports (str "error") res = false -> Panel.poll_callback id res c = c).
Proof.
  destruct res as [|[|] [d|]]; cbn [reports Panel.poll_callback]; auto.
  intros ->. destruct (string_eqb (d_status d) (str "error")); auto.
  repeat split. discriminate.
Qed.

Lemma panel_callback_error (id : jsstring) (res : FetchResult) (c : Panel.Client) :
  reports (str "error") res = true ->
  Panel.poll (Panel.poll_callback id res c) = None
  /\ Panel.statusMsg (Panel.poll_callback id res c)
     = (str "Error", str "status-msg error")
  /\ Panel.uploadBtn_disabled (Panel.poll_callback id res c) = false.
Proof.
  intros He. pose proof (reports_completed_not_error res He) as Hc.
  destruct res as [|[|] [d|]]; cbn [reports] in *; try discriminate.
  cbn [Panel.poll_callback]. rewrite Hc, He. repeat split.
Qed.

Lemma panel_polling_stopped (responses : list FetchResult) (c : Panel.Client) :
  Panel.poll c = None -> Panel.polling responses c = c.
Proof.
  intros Hp. induction responses as [|res responses IH]; [reflexivity|].
  cbn [Panel.polling fold_left]. unfold Panel.tick at 2. rewrite Hp. exact IH.
Qed.

Lemma panel_polling_app (l1 l2 : list FetchResult) (c : Panel.Client) :
  Panel.polling (l1 ++ l2) c = Panel.polling l2 (Panel.polling l1 c).
Proof. unfold Panel.polling. apply fold_left_app. Qed.

Lemma panel_polling_pending (responses : list FetchResult) (c : Panel.Client) :
  Forall (fun res => reports (str "completed") res = false) responses ->
  (PanelRun.view (Panel.polling responses c) = PanelRun.view c
   /\ Panel.localStorage (Panel.polling responses c) = Panel.localStorage c)
  /\ (Panel.poll (Panel.polling responses c) = Panel.poll c
      \/ (Panel.poll (Panel.polling responses c) = None
          /\ Panel.statusMsg (Panel.polling responses c)
             = (str "Error", str "status-msg error"))).
Proof.
  intros Hall. revert c. induction Hall as [|res responses Hres _ IH]; intros c.
  - cbn. auto.
  - cbn [Panel.polling fold_left].
    fold (Panel.polling responses (Panel.tick res c)).
    destruct (Panel.poll c) as [id|] eqn:Hp.
    + unfold Panel.tick. rewrite Hp.
      destruct (panel_callback_other id res c Hres) as (Hv & Hls & _ & Hsame).
      destruct (reports (str "error") res) eqn:He.
      * destruct (panel_callback_error id res c He) as (Hp' & Hst & _).
        rewrite panel_polling_stopped by exact Hp'.
        split; [split; assumption|]. right. split; assumption.
      * rewrite (Hsame eq_refl). rewrite <- Hp. apply IH.
    + assert (Ht : Panel.tick res c = c)
        by (unfold Panel.tick; rewrite Hp; reflexivity).
      rewrite Ht, panel_polling_stopped by exact Hp. auto.
Qed.

(** An error report ends a polling session for good: whatever was
    answered before, short of completion, and whatever comes after. *)
Lemma overlay_session_error (id : jsstring) (before after : list FetchResult)
    (res : FetchResult) (c : Overlay.Client) :
  Forall (fun r => reports (str "completed") r = false) before ->
  reports (str "error") res = true ->
  let c' := Overlay.polling (before ++ res :: after) (Overlay.startPoll id c) in
  OverlayRun.view c' = OverlayRun.view c
  /\ Overlay.poll c' = None
  /\ Overlay.statusMsg c' = (str "Error", str "status-msg error").
Proof.
  intros Hb He c'. subst c'. rewrite overlay_polling_app.
  cbn [Overlay.polling fold_left].
  fold (Overlay.polling after
          (Overlay.tick res (Overlay.polling before (Overlay.startPoll id c)))).
  destruct (overlay_polling_pending before (Overlay.startPoll id c) Hb)
    as (Hv & [Hp|[Hp Hst]]).
  - unfold Overlay.tick. rewrite Hp. cbn [Overlay.poll Overlay.startPoll Overlay.set_poll].
    destruct (overlay_callback_error id res
                (Overlay.polling before (Overlay.startPoll id c)) He) as (Hp' & Hst & _).
    destruct (overlay_callback_other id res
                (Overlay.polling before (Overlay.startPoll id c))
                (reports_completed_not_error res He)) as (Hv' & _).
    rewrite overlay_polling_stopped by exact Hp'.
    rewrite Hv', Hv. auto.
  - unfold Overlay.tick. rewrite Hp.
    rewrite overlay_polling_stopped by exact Hp. rewrite Hv. auto.
Qed.

Lemma panel_session_error (id : jsstring) (before after : list FetchResult)
    (res : FetchResult) (c : Panel.Client) :
  Forall (fun r => reports (str "completed") r = false) before ->
  reports (str "error") res = true ->
  let c' := Panel.polling (before ++ res :: after) (Panel.startPoll id c) in
  PanelRun.view c' = PanelRun.view c
  /\ Panel.localStorage c' = Panel.localStorage c
  /\ Panel.poll c' = None
  /\ Panel.statusMsg c' = (str "Error", str "status-msg error").
Proof.
  intros Hb He c'. subst c'. rewrite panel_polling_app.
  cbn [Panel.polling fold_left].
  fold (Panel.polling after
          (Panel.tick res (Panel.polling before (Panel.startPoll id c)))).
  destruct (panel_polling_pending before (Panel.startPoll id c) Hb)
    as ((Hv & Hls) & [Hp|[Hp Hst]]).
  - unfold Panel.tick. rewrite Hp. cbn [Panel.poll Panel.startPoll Panel.set_poll].
    destruct (panel_callback_error id res
                (Panel.polling before (Panel.startPoll id c)) He) as (Hp' & Hst & _).
    destruct (panel_callback_other id res
                (Panel.polling before (Panel.startPoll id c))
                (reports_completed_not_error res He)) as (Hv' & Hls' & _).
    rewrite panel_polling_stopped by exact Hp'.
    rewrite Hv', Hv, Hls', Hls. auto.
  - unfold Panel.tick. rewrite Hp.
    rewrite panel_polling_stopped by exact Hp. rewrite Hv, Hls. auto.
Qed.

Lemma overlay_settled_pending (id : jsstring) (responses : list FetchResult)
    (c : Overlay.Client) :
  Forall (fun r => reports (str "completed") r = false) responses ->
  OverlayRun.view (Overlay.settled id responses c) = OverlayRun.view c.
Proof.
  intros Hall. revert c. induction Hall as [|res responses Hres _ IH]; intros c;
    [reflexivity|].
  cbn [Overlay.settled fold_left].
  fold (Overlay.settled id responses (Overlay.poll_callback id res c)).
  rewrite IH. apply overlay_callback_other. exact Hres.
Qed.

Lemma panel_settled_pending (id : jsstring) (responses : list FetchResult)
    (c : Panel.Client) :
  Forall (fun r => reports (str "completed") r = false) responses ->
  PanelRun.view (Panel.settled id responses c) = PanelRun.view c.
Proof.
  intros Hall. revert c. induction Hall as [|res responses Hres _ IH]; intros c;
    [reflexivity|].
  cbn [Panel.settled fold_left].
  fold (Panel.settled id responses (Panel.poll_callback id res c)).
  rewrite IH. apply panel_callback_other. exact Hres.
Qed.

(** C9. The poll callback opens the reader view, loading the PDF, the
    audio and the transcript, only when the polled status is [completed].
    When the polled status is [error] the timer is cleared, the status
    line shows the error and the reader is left as it was; in a polling
    session whose answers, up to an error report, never report
    completion, the reader is not entered, whatever is answered later.
    Callbacks of requests still under way when the timer is cleared do
    not enter the reader either, as long as none reports completion. *)
Theorem reader_opens_only_for_completed_job (id : jsstring) (res : FetchResult)
    (before after : list FetchResult) (oc : Overlay.Client) (pc : Panel.Client) :
  (reports (str "completed") res = false ->
     OverlayRun.view (Overlay.poll_callback id res oc) = OverlayRun.view oc
     /\ PanelRun.view (Panel.poll_callback id res pc) = PanelRun.view pc
     /\ Panel.localStorage (Panel.poll_callback id res pc) = Panel.localStorage pc)
  /\ (forall d, res = HttpResponse true (Some d) ->
        d_status d = str "completed" ->
        let oc' := Overlay.poll_callback id res oc in
        let pc' := Panel.poll_callback id res pc in
        (Overlay.mainContent_shown (Overlay.reader oc') = true
         /\ Overlay.pdfFrame_src (Overlay.reader oc')
            = pdf_url d ++ (if includes (pdf_url d) 35%N then str "&" else str "#")
                ++ str "pageLayout=TwoPageRight&view=Fit"
         /\ Overlay.audio_src (Overlay.reader oc') = audio_url d
         /\ OverlayRun.captions oc'
            = match transcript d with
              | Some {| t_segments := Some raw |} => captions_of raw
              | _ => []
              end
         /\ Overlay.currentJobId oc' = Some id /\ Overlay.poll oc' = None)
        /\ (Panel.pdfFrame_src (Panel.reader pc')
             = pdf_url d ++ (if includes (pdf_url d) 35%N then str "&" else str "#")
                 ++ str "pageLayout=TwoPageRight&view=Fit"
            /\ Panel.audio_src (Panel.reader pc') = audio_url d
            /\ PanelRun.captions pc'
               = match transcript d with
                 | Some {| t_segments := Some raw |} => captions_of raw
                 | _ => []
                 end
            /\ Panel.currentJobId pc' = Some id /\ Panel.poll pc' = None))
  /\ (reports (str "error") res = true ->
      (Overlay.poll (Overlay.poll_callback id res oc) = None
       /\ Overlay.statusMsg (Overlay.poll_callback id res oc)
          = (str "Error", str "status-msg error")
       /\ OverlayRun.view (Overlay.poll_callback id res oc) = OverlayRun.view oc)
      /\ (Panel.poll (Panel.poll_callback id res pc) = None
          /\ Panel.statusMsg (Panel.poll_callback id res pc)
             = (str "Error", str "status-msg error")
          /\ PanelRun.view (Panel.poll_callback id res pc) = PanelRun.view pc))
  /\ (reports (str "error") res = true ->
      Forall (fun r => reports (str "completed") r = false) before ->
      let oc' := Overlay.polling (before ++ res :: after) (Overlay.startPoll id oc) in
      let pc' := Panel.polling (before ++ res :: after) (Panel.startPoll id pc) in
      (OverlayRun.view oc' = OverlayRun.view oc /\ Overlay.poll oc' = None
       /\ Overlay.statusMsg oc' = (str "Error", str "status-msg error"))
      /\ (PanelRun.view pc' = PanelRun.view pc
          /\ Panel.localStorage pc' = Panel.localStorage pc
          /\ Panel.poll pc' = None
          /\ Panel.statusMsg pc' = (str "Error", str "status-msg error")))
  /\ (Forall (fun r => reports (str "completed") r = false) before ->
      OverlayRun.view (Overlay.settled id before oc) = OverlayRun.view oc
      /\ PanelRun.view (Panel.settled id before pc) = PanelRun.view pc).
Proof.
  split; [|split; [|split; [|split]]].
  - intros Hc.
    destruct (overlay_callback_other id res oc Hc) as (Ho & _).
    destruct (panel_callback_other id res pc Hc) as (Hp & Hls & _).
    auto.
  - intros d -> Hd oc' pc'. subst oc' pc'.
    cbn [Overlay.poll_callback Panel.poll_callback].
    rewrite Hd. change (string_eqb (str "completed") (str "completed")) with true.
    cbv iota. unfold Overlay.show, Panel.show, Panel.buildcaptions.
    destruct (transcript d) as [[[raw|]]|].
    + split.
      * split; [reflexivity|]. split; [reflexivity|]. split; [reflexivity|].
        split; [apply overlay_buildcaptions_captions|].
        split; reflexivity.
      * match goal with
        | |- context [Panel.push_lines raw [] ?n] =>
            pose proof (panel_push_lines raw [] n) as (E & _);
            destruct (Panel.push_lines raw [] n) as [ls m]
        end.
        split; [reflexivity|]. split; [reflexivity|]. split; [exact E|].
        split; reflexivity.
    + split.
      * split; [reflexivity|]. split; [reflexivity|]. split; [reflexivity|].
        split; [reflexivity|]. split; reflexivity.
      * split; [reflexivity|]. split; [reflexivity|]. split; [reflexivity|].
        split; reflexivity.
    + split.
      * split; [reflexivity|]. split; [reflexivity|]. split; [reflexivity|].
        split; [reflexivity|]. split; reflexivity.
      * split; [reflexivity|]. split; [reflexivity|]. split; [reflexivity|].
        split; reflexivity.
  - intros He. pose proof (reports_completed_not_error res He) as Hc.
    destruct (overlay_callback_error id res oc He) as (? & ? & _).
    destruct (overlay_callback_other id res oc Hc) as (? & _).
    destruct (panel_callback_error id res pc He) as (? & ? & _).
    destruct (panel_callback_other id res pc Hc) as (? & _).
    auto.
  - intros He Hb oc' pc'. split.
    + apply overlay_session_error; assumption.
    + apply panel_session_error; assumption.
  - intros Hb. split.
    + apply overlay_settled_pending. exact Hb.
    + apply panel_settled_pending. exact Hb.
Qed.

Lemma reader_opens_only_for_completed_job_witness :
  let failed := HttpResponse true
      (Some {| d_status := str "error"; pdf_url := []; audio_url := [];
               transcript := None; title := None |}) in
  let done := HttpResponse true
      (Some {| d_status := str "completed"; pdf_url := str "/files/a.pdf";
               audio_url := str "/files/a.mp3"; transcript := None;
               title := None |}) in
  reports (str "error") failed = true
  /\ OverlayRun.view
       (Overlay.polling ([NetworkError] ++ failed :: [done])
          (Overlay.startPoll (str "job") (Overlay.blank ∅)))
     = OverlayRun.view (Overlay.blank ∅).
Proof.
  cbv zeta. split; [reflexivity|].
  refine (proj1 (proj1 (proj1 (proj2 (proj2 (proj2
    (reader_opens_only_for_completed_job (str "job") _ [NetworkError] _
       (Overlay.blank ∅) (Panel.blank ∅))))) _ _))).
  - reflexivity.
  - repeat constructor.
Defined.

(** ** Claims about resuming playback *)

Lemma parseFloat_empty : parseFloat [] = NaN.
Proof. reflexivity. Qed.

Lemma gt_nan (y : number) : gt NaN y = false.
Proof. unfold gt, SFltb. rewrite compare_nan_r; reflexivity. Qed.

Lemma panel_sync_currentTime (c : Panel.Client) :
  Panel.currentTime (Panel.synccaptions c) = Panel.currentTime c.
Proof.
  unfold Panel.synccaptions. destruct (Panel.frame_index c) as [idx|]; [|reflexivity].
  destruct (negb (idx =? -1) && _); [reflexivity|].
  destruct ((idx =? -1) && _); reflexivity.
Qed.

(** What the handler does to the playback position, by the stored
    value. *)
Lemma overlay_loadedmetadata_position (pathname : jsstring -> jsstring)
    (c : Overlay.Client) :
  Overlay.currentTime (Overlay.loadedmetadata pathname c)
  = match Overlay.localStorage c
            !! (str "pos_" ++ pathname (Overlay.audio_src (Overlay.reader c))) with
    | Some v =>
        if gt (parseFloat v) (lit 2 0) && is_finite (parseFloat v)
        then parseFloat v else Overlay.currentTime c
    | None => Overlay.currentTime c
    end.
Proof.
  unfold Overlay.loadedmetadata.
  cbn [Overlay.localStorage Overlay.audioPathName Overlay.set_audioPathName].
  destruct (Overlay.localStorage c !! _) as [v|]; [|reflexivity].
  destruct v as [|u v].
  - cbn [truthy andb]. rewrite parseFloat_empty, gt_nan. reflexivity.
  - cbn [truthy andb]. destruct (gt (parseFloat (u :: v)) (lit 2 0)); [|reflexivity].
    unfold Overlay.seek. cbn [andb].
    destruct (is_finite (parseFloat (u :: v))); reflexivity.
Qed.

Lemma panel_loadedmetadata_position (pathname : jsstring -> jsstring)
    (c : Panel.Client) :
  Panel.currentTime (Panel.loadedmetadata pathname c)
  = match Panel.localStorage c
            !! (str "pos_" ++ pathname (Panel.audio_src (Panel.reader c))) with
    | Some v =>
        if gt (parseFloat v) (lit 2 0) && is_finite (parseFloat v)
        then parseFloat v else Panel.currentTime c
    | None => Panel.currentTime c
    end.
Proof.
  unfold Panel.loadedmetadata.
  cbn [Panel.localStorage Panel.audioPathName Panel.set_audioPathName].
  destruct (Panel.localStorage c !! _) as [v|]; [|reflexivity].
  destruct v as [|u v].
  - cbn [truthy andb]. rewrite parseFloat_empty, gt_nan. reflexivity.
  - cbn [truthy andb]. destruct (gt (parseFloat (u :: v)) (lit 2 0)); [|reflexivity].
    unfold Panel.seek. cbn [andb].
    destruct (is_finite (parseFloat (u :: v))); [|reflexivity].
    apply panel_sync_currentTime.
Qed.

(** C10. On [loadedmetadata] the playback position is set from the value
    stored for the audio only when that value parses to a number greater
    than 2, and then to that number; a stored value of 2 or less, a
    missing value and a value that does not parse leave the position as
    it was. *)
Theorem resume_only_past_two_seconds (pathname : jsstring -> jsstring)
    (oc : Overlay.Client) (pc : Panel.Client) :
  let ostored := Overlay.localStorage oc
      !! (str "pos_" ++ pathname (Overlay.audio_src (Overlay.reader oc))) in
  let pstored := Panel.localStorage pc
      !! (str "pos_" ++ pathname (Panel.audio_src (Panel.reader pc))) in
  let oc' := Overlay.loadedmetadata pathname oc in
  let pc' := Panel.loadedmetadata pathname pc in
  (Overlay.currentTime oc' <> Overlay.currentTime oc ->
     exists v, ostored = Some v /\ gt (parseFloat v) (lit 2 0) = true
               /\ Overlay.currentTime oc' = parseFloat v)
  /\ (Panel.currentTime pc' <> Panel.currentTime pc ->
      exists v, pstored = Some v /\ gt (parseFloat v) (lit 2 0) = true
                /\ Panel.currentTime pc' = parseFloat v)
  /\ (forall v, gt (parseFloat v) (lit 2 0) = true ->
        is_finite (parseFloat v) = true ->
        (ostored = Some v -> Overlay.currentTime oc' = parseFloat v)
        /\ (pstored = Some v -> Panel.currentTime pc' = parseFloat v))
  /\ (forall v, le (parseFloat v) (lit 2 0) = true \/ parseFloat v = NaN ->
        (ostored = Some v -> Overlay.currentTime oc' = Overlay.currentTime oc)
        /\ (pstored = Some v -> Panel.currentTime pc' = Panel.currentTime pc))
  /\ (ostored = None -> Overlay.currentTime oc' = Overlay.currentTime oc)
  /\ (pstored = None -> Panel.currentTime pc' = Panel.currentTime pc).
Proof.
  cbv zeta.
  rewrite (overlay_loadedmetadata_position pathname oc).
  rewrite (panel_loadedmetadata_position pathname pc).
  destruct (Overlay.localStorage oc !! _) as [ov|];
    destruct (Panel.localStorage pc !! _) as [pv|].
  all: repeat match goal with |- _ /\ _ => split end.
  all: try (intros H; exfalso; apply H; reflexivity).
  all: try reflexivity.
  all: try discriminate.
  all: try (intros v Hgt Hfin; split; intros [= ->]; rewrite Hgt, Hfin; reflexivity).
  all: try (intros v Hle; assert (Hgt : gt (parseFloat v) (lit 2 0) = false)
              by (destruct Hle as [Hle| ->];
                  [apply le_not_lt; exact Hle|apply gt_nan]);
            split; intros [= ->]; rewrite Hgt; reflexivity).
  all: try (intros Hne;
            match goal with
            | |- exists v, Some ?w = Some v /\ _ =>
                exists w; destruct (gt (parseFloat w) (lit 2 0)) eqn:Hgt;
                [destruct (is_finite (parseFloat w)); cbn [andb] in Hne;
                 [auto|destruct Hne; reflexivity]
                |destruct Hne; reflexivity]
            end).
Qed.

Lemma resume_only_past_two_seconds_witness :
  let store : gmap jsstring jsstring :=
    {[ str "pos_/files/a.mp3" := str "12.5" ]} in
  let c := Overlay.set_localStorage store
      (Overlay.show (str "/files/a.pdf") (str "/files/a.mp3") None None
         (Overlay.blank ∅)) in
  gt (parseFloat (str "12.5")) (lit 2 0) = true
  /\ is_finite (parseFloat (str "12.5")) = true
  /\ Overlay.currentTime (Overlay.loadedmetadata (fun src => src) c)
     = lit 125 (-1).
Proof.
  cbv zeta. split; [reflexivity|]. split; [reflexivity|].
  refine (proj1 (proj1 (proj2 (proj2 (resume_only_past_two_seconds (fun src => src)
    _ (Panel.blank ∅)))) (str "12.5") eq_refl eq_refl) _).
  vm_compute. reflexivity.
Defined.

(** * Further properties of the script *)

(** ** The scan on any list *)

Lemma scan_from_sound {A} `{Timed A} (l : list A) (t : number) (i : Z) :
  scan_from i l t = -1
  \/ exists k s, scan_from i l t = i + Z.of_nat k /\ l !! k = Some s
       /\ qualifies t s = true
       /\ forall j s', (j < k)%nat -> l !! j = Some s' ->
            qualifies t s' = false /\ gt (start s') t = false.
Proof.
  revert i. induction l as [|s rest IH]; intros i; cbn [scan_from]; [auto|].
  destruct (ge t (start s) && le t (end_ s)) eqn:Hq.
  - right. exists 0%nat, s. split; [lia|]. split; [reflexivity|].
    split; [exact Hq|]. intros j s' Hj. lia.
  - destruct (gt (start s) t) eqn:Hg; [auto|].
    destruct (IH (i + 1)) as [E|(k & s1 & E & Hk & Hqk & Hbefore)]; [auto|].
    right. exists (S k), s1. split; [lia|]. split; [exact Hk|].
    split; [exact Hqk|]. intros [|j] s' Hlt Hj.
    + injection Hj as <-. split; assumption.
    + apply (Hbefore j s'); [lia|exact Hj].
Qed.

(** X1. Sorted or not, the index the scan returns is [-1] or that of a
    segment that holds [t]; every segment before it neither holds [t] nor
    starts after [t]. *)
Theorem scan_result_holds_t {A} `{Timed A} (segments : list A) (t : number) :
  scan segments t = -1
  \/ exists k s, scan segments t = Z.of_nat k /\ segments !! k = Some s
       /\ ge t (start s) = true /\ le t (end_ s) = true
       /\ forall j s', (j < k)%nat -> segments !! j = Some s' ->
            qualifies t s' = false /\ gt (start s') t = false.
Proof.
  unfold scan.
  destruct (scan_from_sound segments t 0) as [E|(k & s & E & Hk & Hq & Hb)]; [auto|].
  right. exists k, s. split; [lia|]. split; [exact Hk|].
  apply andb_true_iff in Hq as [Hge Hle]. auto.
Qed.

(** ** Transcripts in time order *)

Lemma starts_sorted_cons {A} `{Timed A} (s : A) (l : list A) :
  starts_sorted l = true ->
  (forall s', s' ∈ l -> le (start s) (start s') = true) ->
  starts_sorted (s :: l) = true.
Proof.
  intros Hl Hs. destruct l as [|s2 l]; [reflexivity|].
  cbn [starts_sorted]. apply andb_true_iff. split; [apply Hs; left|exact Hl].
Qed.

Lemma overlay_push_captions_app (raw : list RawSegment) (acc : list Overlay.Segment) :
  Overlay.push_captions raw acc = acc ++ Overlay.push_captions raw [].
Proof.
  revert acc. induction raw as [|seg raw IH]; intros acc; cbn [Overlay.push_captions].
  - rewrite app_nil_r. reflexivity.
  - destruct (negb (truthy (caption_text seg))); [apply IH|].
    rewrite (IH (acc ++ _)), (IH ([] ++ _)), <- app_assoc. reflexivity.
Qed.

Lemma overlay_push_captions_starts (raw : list RawSegment) (s : Overlay.Segment) :
  s ∈ Overlay.push_captions raw [] ->
  exists seg, seg ∈ raw /\ Overlay.seg_start s = caption_start seg.
Proof.
  induction raw as [|seg raw IH]; cbn [Overlay.push_captions]; intros Hin.
  - inversion Hin.
  - destruct (negb (truthy (caption_text seg))).
    + destruct (IH Hin) as (seg' & Hin' & E). exists seg'. split; [right|]; assumption.
    + rewrite overlay_push_captions_app in Hin.
      apply elem_of_app in Hin as [Hin|Hin].
      * apply list_elem_of_singleton in Hin. subst s. exists seg. split; [left|reflexivity].
      * destruct (IH Hin) as (seg' & Hin' & E). exists seg'. split; [right|]; assumption.
Qed.

Lemma overlay_push_captions_sorted (raw : list RawSegment) :
  starts_sorted raw = true -> starts_sorted (Overlay.push_captions raw []) = true.
Proof.
  induction raw as [|seg raw IH]; intros Hs; [reflexivity|].
  pose proof (starts_sorted_tail _ _ Hs) as Hs'.
  cbn [Overlay.push_captions].
  destruct (negb (truthy (caption_text seg))); [apply IH; exact Hs'|].
  rewrite overlay_push_captions_app. cbn [app].
  apply starts_sorted_cons; [apply IH; exact Hs'|].
  intros s' Hin. apply overlay_push_captions_starts in Hin as (seg' & Hin & E).
  change (le (caption_start seg) (Overlay.seg_start s') = true). rewrite E.
  apply (starts_sorted_head seg raw Hs seg' Hin).
Qed.

Lemma starts_sorted_spans {A} `{Timed A} (l : list A) :
  starts_sorted (span <$> l) = starts_sorted l.
Proof.
  induction l as [|s1 l IH]; [reflexivity|].
  destruct l as [|s2 l]; [reflexivity|].
  change (le (start s1) (start s2) && starts_sorted (span <$> s2 :: l)
          = le (start s1) (start s2) && starts_sorted (s2 :: l)).
  rewrite IH. reflexivity.
Qed.

Lemma built_spans_agree (raw : list RawSegment) (oc : Overlay.Client)
    (pc : Panel.Client) :
  span <$> Panel.lines (Panel.buildcaptions (Some {| t_segments := Some raw |}) pc)
  = span <$> Overlay.segments
               (Overlay.buildcaptions (Some {| t_segments := Some raw |}) oc).
Proof.
  pose proof (overlay_buildcaptions_captions raw oc) as Ho.
  pose proof (panel_buildcaptions_captions raw pc) as Hp.
  transitivity ((fun x : jsstring * number * number => (x.1.2, x.2))
                  <$> captions_of raw).
  - rewrite <- Hp. unfold PanelRun.captions. rewrite <- list_fmap_compose.
    reflexivity.
  - rewrite <- Ho. unfold OverlayRun.captions. rewrite <- list_fmap_compose.
    reflexivity.
Qed.

(** X2. When the raw segments of a transcript are in time order by the
    bounds of their captions, the captions [buildcaptions] keeps are in
    time order too, so that the scan over them, early exit and all,
    returns what the full scan returns. *)
Theorem built_captions_stay_sorted (raw : list RawSegment) (oc : Overlay.Client)
    (pc : Panel.Client) (t : number) :
  starts_sorted raw = true ->
  let oc' := Overlay.buildcaptions (Some {| t_segments := Some raw |}) oc in
  let pc' := Panel.buildcaptions (Some {| t_segments := Some raw |}) pc in
  starts_sorted (Overlay.segments oc') = true
  /\ scan (Overlay.segments oc') t = full_scan (Overlay.segments oc') t
  /\ starts_sorted (Panel.lines pc') = true
  /\ scan (Panel.lines pc') t = full_scan (Panel.lines pc') t.
Proof.
  intros Hs oc' pc'.
  assert (Ho : starts_sorted (Overlay.segments oc') = true)
    by (apply (overlay_push_captions_sorted raw Hs)).
  assert (Hp : starts_sorted (Panel.lines pc') = true).
  { rewrite <- starts_sorted_spans. subst pc'.
    rewrite (built_spans_agree raw oc pc), starts_sorted_spans. exact Ho. }
  split; [exact Ho|]. split; [apply scan_from_full_scan; exact Ho|].
  split; [exact Hp|]. apply scan_from_full_scan. exact Hp.
Qed.

Lemma built_captions_stay_sorted_witness :
  let raw := [ {| raw_text := Some (str "one"); raw_start := lit 0 0;
                  raw_end := lit 2 0; words := None |};
               {| raw_text := Some (str "  "); raw_start := lit 2 0;
                  raw_end := lit 3 0; words := None |};
               {| raw_text := Some (str "three"); raw_start := lit 5 0;
                  raw_end := lit 7 0; words := None |} ] in
  starts_sorted raw = true
  /\ starts_sorted
       (Overlay.segments
          (Overlay.buildcaptions (Some {| t_segments := Some raw |}) (Overlay.blank ∅)))
     = true.
Proof.
  cbv zeta. split; [vm_compute; reflexivity|].
  refine (proj1 (built_captions_stay_sorted _ (Overlay.blank ∅) (Panel.blank ∅)
                   (lit 0 0) _)).
  vm_compute. reflexivity.
Defined.

(** ** Repeating a frame *)

Lemma panel_frame_index_sync (c : Panel.Client) :
  Panel.frame_index (Panel.synccaptions c) = Panel.frame_index c.
Proof.
  pose proof (sync_spans c) as Hs.
  pose proof (panel_sync_currentTime c) as Ht.
  unfold Panel.frame_index.
  assert (Hlen : length (Panel.lines (Panel.synccaptions c)) = length (Panel.lines c)).
  { rewrite <- (length_fmap span (Panel.lines (Panel.synccaptions c))), Hs.
    apply length_fmap. }
  rewrite Hlen, Ht. unfold scan.
  rewrite <- (scan_from_spans (Panel.lines (Panel.synccaptions c))), Hs,
    scan_from_spans.
  reflexivity.
Qed.

(** X3. A frame run again with the clock where it was changes nothing:
    the caption, the classes of the lines and the scroll target stay as
    the first frame left them. *)
Theorem repeated_frame_changes_nothing (oc : Overlay.Client) (pc : Panel.Client) :
  Overlay.synccaptions (Overlay.synccaptions oc) = Overlay.synccaptions oc
  /\ Panel.synccaptions (Panel.synccaptions pc) = Panel.synccaptions pc.
Proof.
  split.
  - destruct (Overlay.frame_index oc) as [idx|] eqn:Hf.
    + pose proof (overlay_frame_stores oc idx Hf) as Hstore.
      destruct (overlay_sync_keeps oc) as [Hs Hv].
      assert (Hf' : Overlay.frame_index (Overlay.synccaptions oc) = Some idx).
      { unfold Overlay.frame_index in *. rewrite Hs, Hv.
        replace (Overlay.currentTime (Overlay.synccaptions oc))
          with (Overlay.currentTime oc); [exact Hf|].
        unfold Overlay.synccaptions, Overlay.frame_index.
        destruct ((length (Overlay.segments oc) =? 0)%nat
                  || negb (Overlay.captionsVisible oc)); [reflexivity|].
        destruct (negb (_ =? Overlay.activeIdx oc)); reflexivity. }
      unfold Overlay.synccaptions at 1. rewrite Hf', Hstore, Z.eqb_refl. reflexivity.
    + unfold Overlay.synccaptions. rewrite Hf, Hf. reflexivity.
  - destruct (Panel.frame_index pc) as [idx|] eqn:Hf.
    + pose proof (panel_frame_stores pc idx Hf) as Hstore.
      pose proof (panel_frame_index_sync pc) as Hf'. rewrite Hf in Hf'.
      pose proof (sync_ids pc) as Hids.
      unfold Panel.synccaptions at 1. rewrite Hf', Hstore.
      destruct (idx =? -1) eqn:E; cbn [negb andb].
      * rewrite bool_decide_eq_false_2 by (intros H; apply H; reflexivity).
        reflexivity.
      * rewrite !element_at_ids, Hids.
        rewrite bool_decide_eq_true_2 by reflexivity. reflexivity.
    + unfold Panel.synccaptions. rewrite Hf, Hf. reflexivity.
Qed.

(** ** Escaping *)

Ltac each_unit Hin :=
  repeat (apply elem_of_cons in Hin as [->|Hin]; [split; discriminate|]);
  inversion Hin.

Lemma esc_unit_safe (c d : N) :
  d ∈ esc_unit c -> d <> 60%N /\ d <> 62%N.
Proof.
  unfold esc_unit.
  destruct (c =? 38)%N eqn:E1; [cbn; intros Hin; each_unit Hin|].
  destruct (c =? 60)%N eqn:E2; [cbn; intros Hin; each_unit Hin|].
  destruct (c =? 62)%N eqn:E3; [cbn; intros Hin; each_unit Hin|].
  destruct (c =? 160)%N eqn:E4; [cbn; intros Hin; each_unit Hin|].
  intros Hin. apply list_elem_of_singleton in Hin. subst d.
  apply N.eqb_neq in E2, E3. auto.
Qed.

Lemma esc_app (a b : jsstring) : esc (a ++ b) = esc a ++ esc b.
Proof.
  induction a as [|c a IH]; [reflexivity|].
  cbn [esc app]. rewrite IH, app_assoc. reflexivity.
Qed.

Lemma esc_unit_head (c : N) :
  exists u rest, esc_unit c = u :: rest
    /\ (u = 38%N -> exists v rest', rest = v :: rest'
          /\ (c = 38%N /\ v = 97%N \/ c = 60%N /\ v = 108%N
              \/ c = 62%N /\ v = 103%N \/ c = 160%N /\ v = 110%N))
    /\ (u <> 38%N -> u = c /\ rest = []).
Proof.
  unfold esc_unit.
  destruct (c =? 38)%N eqn:E1.
  { apply N.eqb_eq in E1. subst c. eexists _, _. split; [reflexivity|].
    split; [intros _; eexists _, _; split; [reflexivity|]; auto|intros Hn; exfalso; apply Hn; reflexivity]. }
  destruct (c =? 60)%N eqn:E2.
  { apply N.eqb_eq in E2. subst c. eexists _, _. split; [reflexivity|].
    split; [intros _; eexists _, _; split; [reflexivity|]; auto|intros Hn; exfalso; apply Hn; reflexivity]. }
  destruct (c =? 62)%N eqn:E3.
  { apply N.eqb_eq in E3. subst c. eexists _, _. split; [reflexivity|].
    split; [intros _; eexists _, _; split; [reflexivity|]; auto|intros Hn; exfalso; apply Hn; reflexivity]. }
  destruct (c =? 160)%N eqn:E4.
  { apply N.eqb_eq in E4. subst c. eexists _, _. split; [reflexivity|].
    split; [intros _; eexists _, _; split; [reflexivity|]; auto 6|intros Hn; exfalso; apply Hn; reflexivity]. }
  apply N.eqb_neq in E1. exists c, []. split; [reflexivity|].
  split; [congruence|auto].
Qed.

Lemma esc_unit_inj (c d : N) (a b : jsstring) :
  esc_unit c ++ a = esc_unit d ++ b -> c = d /\ a = b.
Proof.
  intros E.
  destruct (esc_unit_head c) as (u & r & Ec & Hamp & Hplain).
  destruct (esc_unit_head d) as (u' & r' & Ed & Hamp' & Hplain').
  assert (Hu : u = u') by (rewrite Ec, Ed in E; cbn in E; congruence).
  subst u'. destruct (decide (u = 38%N)) as [->|Hne].
  - destruct (Hamp eq_refl) as (v & t & -> & Hc).
    destruct (Hamp' eq_refl) as (v' & t' & -> & Hd).
    assert (Hv : v = v') by (rewrite Ec, Ed in E; cbn in E; congruence).
    subst v'.
    assert (c = d) as -> by (destruct Hc as [[-> ->]|[[-> ->]|[[-> ->]|[-> ->]]]];
                             destruct Hd as [[-> ?]|[[-> ?]|[[-> ?]|[-> ?]]]];
                             congruence).
    split; [reflexivity|]. apply app_inv_head in E. exact E.
  - rewrite Ec, Ed in E.
    destruct (Hplain Hne) as [Hc ->]. destruct (Hplain' Hne) as [Hd ->].
    cbn in E. split; [congruence|congruence].
Qed.

(** X4. Escaped text holds no [<] and no [>], so it cannot open or close
    a tag; text without [&], [<], [>] and no-break spaces is left as it
    is; and different texts stay different. *)
Theorem esc_leaves_no_markup (s s' : jsstring) :
  ((60%N ∉ esc s) /\ (62%N ∉ esc s))
  /\ (Forall (fun c => c <> 38%N /\ c <> 60%N /\ c <> 62%N /\ c <> 160%N) s ->
      esc s = s)
  /\ (esc s = esc s' -> s = s').
Proof.
  split; [|split].
  - induction s as [|c s [IH1 IH2]]; [split; apply not_elem_of_nil|].
    cbn [esc]. split; intros Hin; apply elem_of_app in Hin as [Hin|Hin];
      try (apply esc_unit_safe in Hin; tauto); tauto.
  - induction 1 as [|c s (H1 & H2 & H3 & H4) _ IH]; [reflexivity|].
    cbn [esc]. unfold esc_unit.
    apply N.eqb_neq in H1, H2, H3, H4. rewrite H1, H2, H3, H4, IH. reflexivity.
  - revert s'. induction s as [|c s IH]; intros [|d s'] E.
    + reflexivity.
    + cbn [esc] in E. destruct (esc_unit_head d) as (u & r & Ed & _).
      rewrite Ed in E. discriminate.
    + cbn [esc] in E. destruct (esc_unit_head c) as (u & r & Ec & _).
      rewrite Ec in E. discriminate.
    + cbn [esc] in E. apply esc_unit_inj in E as [-> E]. f_equal. apply IH, E.
Qed.

Lemma esc_leaves_no_markup_witness :
  Forall (fun c => c <> 38%N /\ c <> 60%N /\ c <> 62%N /\ c <> 160%N) (str "plain")
  /\ esc (str "plain") = str "plain".
Proof.
  assert (H : Forall (fun c => c <> 38%N /\ c <> 60%N /\ c <> 62%N /\ c <> 160%N)
                (str "plain")) by (repeat constructor; discriminate).
  split; [exact H|].
  exact (proj1 (proj2 (esc_leaves_no_markup (str "plain") [])) H).
Defined.

(** ** The lines next to the active one *)

Lemma nears_add_near (i : nat) (ls : list Panel.Line) :
  PanelPage.nears (alter Panel.add_near i ls) = <[i := true]> (PanelPage.nears ls).
Proof.
  unfold PanelPage.nears.
  rewrite (list_fmap_alter _ Panel.add_near (fun _ => true))
    by (apply Forall_forall; reflexivity).
  symmetry. apply list_insert_alter.
Qed.

Lemma nears_length (ls : list Panel.Line) : length (PanelPage.nears ls) = length ls.
Proof. apply length_fmap. Qed.

Lemma nears_fold (idx : Z) (offsets : list Z) (ls : list Panel.Line) (j : nat) :
  let mark := fun (ls : list Panel.Line) (o : Z) =>
    if negb (o =? 0) && (0 <=? idx + o) && (idx + o <? Z.of_nat (length ls))
    then alter Panel.add_near (Z.to_nat (idx + o)) ls else ls in
  PanelPage.nears (fold_left mark offsets ls) !! j = Some true
  <-> PanelPage.nears ls !! j = Some true
      \/ ((j < length ls)%nat
          /\ exists o, o ∈ offsets /\ o <> 0 /\ Z.of_nat j = idx + o).
Proof.
  intros mark. revert ls. induction offsets as [|o offsets IH]; intros ls.
  - cbn [fold_left]. split; [auto|]. intros [H|(_ & o & Ho & _)]; [exact H|].
    inversion Ho.
  - cbn [fold_left]. rewrite IH. clear IH.
    assert (Hlen : length (mark ls o) = length ls).
    { unfold mark. destruct (_ && _); [apply length_alter|reflexivity]. }
    rewrite Hlen.
    assert (Hstep : PanelPage.nears (mark ls o) !! j = Some true
              <-> PanelPage.nears ls !! j = Some true
                  \/ ((j < length ls)%nat /\ o <> 0 /\ Z.of_nat j = idx + o)).
    { unfold mark.
      destruct (negb (o =? 0) && (0 <=? idx + o) && (idx + o <? Z.of_nat (length ls)))
        eqn:Hc.
      - apply andb_true_iff in Hc as [Hc H3]. apply andb_true_iff in Hc as [H1 H2].
        apply negb_true_iff, Z.eqb_neq in H1. apply Z.leb_le in H2.
        apply Z.ltb_lt in H3.
        rewrite nears_add_near, list_lookup_insert.
        rewrite nears_length.
        destruct (decide (Z.to_nat (idx + o) = j /\ (Z.to_nat (idx + o) < length ls)%nat))
          as [[Hj Hlt]|Hn].
        + split; [|reflexivity]. intros _. right. split; [lia|]. split; [exact H1|lia].
        + split; [auto|]. intros [H|(Hlt & _ & Hj)]; [exact H|].
          exfalso. apply Hn. split; lia.
      - split; [auto|]. intros [H|(Hlt & Hne & Hj)]; [exact H|]. exfalso.
        apply Z.eqb_neq in Hne. rewrite Hne in Hc. cbn [negb andb] in Hc.
        apply andb_false_iff in Hc as [Hc|Hc].
        + apply Z.leb_gt in Hc. lia.
        + apply Z.ltb_ge in Hc. lia. }
    rewrite Hstep. split.
    + intros [[H|(Hlt & Hne & Hj)]|(Hlt & o' & Ho' & Hne & Hj)].
      * auto.
      * right. split; [exact Hlt|]. exists o. split; [left|]. auto.
      * right. split; [exact Hlt|]. exists o'. split; [right; exact Ho'|]. auto.
    + intros [H|(Hlt & o' & Ho' & Hne & Hj)]; [auto|].
      apply elem_of_cons in Ho' as [->|Ho'].
      * left. right. auto.
      * right. split; [exact Hlt|]. exists o'. auto.
Qed.

Lemma nears_remove_marks (ls : list Panel.Line) :
  PanelPage.nears (Panel.remove_marks <$> ls) = replicate (length ls) false.
Proof.
  unfold PanelPage.nears. induction ls as [|l ls IH]; [reflexivity|].
  cbn. f_equal. exact IH.
Qed.

(** X5. A frame that moves the highlight to line [idx] marks as [near]
    the lines one or two places before and after it, as far as the list
    reaches, and no other line; the panel scrolls to the highlighted
    line's element. *)
Theorem near_marks_surround_highlight (c : Panel.Client) (idx : Z) :
  Panel.frame_index c = Some idx ->
  idx <> -1 ->
  Panel.activeLine c <> Panel.element_at (Panel.lines c) idx ->
  let c' := Panel.synccaptions c in
  (forall j : nat,
     PanelPage.nears (Panel.lines c') !! j = Some true
     <-> (j < length (Panel.lines c))%nat /\ Z.of_nat j <> idx
         /\ idx - 2 <= Z.of_nat j <= idx + 2)
  /\ Panel.scrolledTo c' = Panel.element_at (Panel.lines c) idx
  /\ Panel.activeLine c' = Panel.element_at (Panel.lines c) idx.
Proof.
  intros Hf Hidx Hne c'. subst c'. unfold Panel.synccaptions. rewrite Hf.
  apply Z.eqb_neq in Hidx. rewrite Hidx.
  rewrite bool_decide_eq_false_2 by exact Hne.
  cbn [negb andb Panel.lines Panel.scrolledTo Panel.activeLine Panel.set_highlight].
  split; [|split; reflexivity].
  intros j. unfold Panel.mark_near.
  rewrite (nears_fold idx [-2; -1; 0; 1; 2]).
  rewrite length_alter, length_fmap.
  unfold PanelPage.nears at 1.
  rewrite fmap_alter_same by reflexivity.
  fold (PanelPage.nears (Panel.remove_marks <$> Panel.lines c)).
  rewrite nears_remove_marks. split.
  - intros [H|(Hlt & o & Ho & Hne0 & Hj)].
    + exfalso. exact (lookup_replicate_false _ _ H).
    + split; [exact Hlt|].
      repeat (apply elem_of_cons in Ho as [->|Ho]; [lia|]). inversion Ho.
  - intros (Hlt & Hj & Hr). right. split; [exact Hlt|].
    exists (Z.of_nat j - idx). split; [|lia].
    assert (Ho : Z.of_nat j - idx = -2 \/ Z.of_nat j - idx = -1
                 \/ Z.of_nat j - idx = 1 \/ Z.of_nat j - idx = 2) by lia.
    destruct Ho as [-> | [-> | [-> | ->]]]; repeat constructor.
Qed.

Lemma near_marks_surround_highlight_witness :
  let seg := fun (w : string) (a b : Z) =>
    {| raw_text := Some (str w); raw_start := lit a 0; raw_end := lit b 0;
       words := None |} in
  let c := Panel.set_currentTime (lit 3 0)
      (Panel.buildcaptions
         (Some {| t_segments := Some
            [ seg "one"%string 0 2; seg "two"%string 2 4; seg "three"%string 4 6; seg "four"%string 6 8;
              seg "five"%string 8 10 ] |})
         (Panel.blank ∅)) in
  Panel.frame_index c = Some 1
  /\ PanelPage.nears (Panel.lines (Panel.synccaptions c)) !! 3%nat = Some true.
Proof.
  cbv zeta. split; [vm_compute; reflexivity|].
  refine (proj2 (proj1 (near_marks_surround_highlight _ 1 _ _ _) 3%nat) _).
  - vm_compute; reflexivity.
  - lia.
  - vm_compute. discriminate.
  - vm_compute. repeat split; try lia; discriminate.
Defined.

(** ** Sessions that end in completion *)

Lemma overlay_polling_undecided (id : jsstring) (responses : list FetchResult)
    (c : Overlay.Client) :
  Forall (fun r => reports (str "completed") r = false
                   /\ reports (str "error") r = false) responses ->
  Overlay.poll c = Some id ->
  Overlay.polling responses c = c.
Proof.
  intros Hall Hp. induction Hall as [|res responses [Hc He] _ IH]; [reflexivity|].
  cbn [Overlay.polling fold_left]. unfold Overlay.tick at 2. rewrite Hp.
  destruct (overlay_callback_other id res c Hc) as (_ & _ & _ & Hsame).
  rewrite (Hsame He). exact IH.
Qed.

Lemma panel_polling_undecided (id : jsstring) (responses : list FetchResult)
    (c : Panel.Client) :
  Forall (fun r => reports (str "completed") r = false
                   /\ reports (str "error") r = false) responses ->
  Panel.poll c = Some id ->
  Panel.polling responses c = c.
Proof.
  intros Hall Hp. induction Hall as [|res responses [Hc He] _ IH]; [reflexivity|].
  cbn [Panel.polling fold_left]. unfold Panel.tick at 2. rewrite Hp.
  destruct (panel_callback_other id res c Hc) as (_ & _ & _ & Hsame).
  rewrite (Hsame He). exact IH.
Qed.





(** ** Uploading *)



(** X8. The panel revision does not look at the [ok] flag of the upload
    response: whenever the body can be read, a refused upload included,
    it polls the job the body names, [undefined] when it names none, with
    the button still disabled and loading and the status line at
    [Transcribing]; and the page stays so for as long as the status
    answers report neither completion nor an error. *)
Theorem refused_upload_still_polled (ok : bool) (st : jsstring)
    (job : option jsstring) (responses : list FetchResult) (pp : PanelPage.Page) :
  both_chosen (PanelPage.chooser pp) = true ->
  Forall (fun r => reports (str "completed") r = false
                   /\ reports (str "error") r = false) responses ->
  let c := PanelPage.client (PanelPage.upload (UploadAnswered ok st (JobId job)) pp) in
  Panel.poll c = Some (default (str "undefined") job)
  /\ Panel.uploadBtn_disabled c = true
  /\ Panel.uploadBtn_loading c = true
  /\ Panel.statusMsg c = (str "Transcribing" ++ [8230%N], str "status-msg working")
  /\ Panel.polling responses c = c.
Proof.
  intros Hp Hall c. subst c. unfold PanelPage.upload, PanelPage.upload_click.
  rewrite Hp. cbn [PanelPage.client PanelPage.with_client PanelPage.upload_settled].
  repeat (split; [reflexivity|]).
  apply (panel_polling_undecided (polled_id job)); [exact Hall|reflexivity].
Qed.

Lemma refused_upload_still_polled_witness :
  Panel.poll
    (PanelPage.client
       (PanelPage.upload (UploadAnswered false (str "Bad Gateway") (JobId None))
          {| PanelPage.client := Panel.blank ∅;
             PanelPage.chooser :=
               {| pdfFile := Some (str "a.pdf"); audioFile := Some (str "a.mp3");
                  pdfLabel := str "a.pdf"; audioLabel := str "a.mp3";
                  pdfChip_selected := true; audioChip_selected := true |};
             PanelPage.player :=
               {| nightMode := false; speedIdx := 1; playbackRate := lit 1 0;
                  paused := true; volume := lit 1 0; muted := false;
                  duration := NaN |} |}))
  = Some (str "undefined").
Proof.
  refine (proj1 (refused_upload_still_polled false (str "Bad Gateway") None
    [NetworkError; HttpResponse false None] _ _ _)).
  - reflexivity.
  - repeat (constructor; [split; reflexivity|]). constructor.
Defined.

(** ** From the upload to the reader *)

Lemma overlay_run_app (pathname : jsstring -> jsstring)
    (numberToString : number -> jsstring) (l1 l2 : list OverlayPage.Event)
    (p : OverlayPage.Page) :
  OverlayPage.run pathname numberToString (l1 ++ l2) p
  = OverlayPage.run pathname numberToString l2
      (OverlayPage.run pathname numberToString l1 p).
Proof. unfold OverlayPage.run. apply fold_left_app. Qed.

Lemma panel_run_app (pathname : jsstring -> jsstring)
    (numberToString : number -> jsstring) (l1 l2 : list PanelPage.Event)
    (p : PanelPage.Page) :
  PanelPage.run pathname numberToString (l1 ++ l2) p
  = PanelPage.run pathname numberToString l2
      (PanelPage.run pathname numberToString l1 p).
Proof. unfold PanelPage.run. apply fold_left_app. Qed.

Lemma overlay_run_ticks (pathname : jsstring -> jsstring)
    (numberToString : number -> jsstring) (responses : list FetchResult)
    (p : OverlayPage.Page) :
  OverlayPage.client
    (OverlayPage.run pathname numberToString (OverlayPage.Tick <$> responses) p)
  = Overlay.polling responses (OverlayPage.client p).
Proof.
  revert p. induction responses as [|res responses IH]; intros p; [reflexivity|].
  cbn [fmap list_fmap OverlayPage.run fold_left].
  fold (OverlayPage.run pathname numberToString (OverlayPage.Tick <$> responses)
          (OverlayPage.step pathname numberToString (OverlayPage.Tick res) p)).
  rewrite IH. reflexivity.
Qed.

Lemma panel_run_ticks (pathname : jsstring -> jsstring)
    (numberToString : number -> jsstring) (responses : list FetchResult)
    (p : PanelPage.Page) :
  PanelPage.client
    (PanelPage.run pathname numberToString (PanelPage.Tick <$> responses) p)
  = Panel.polling responses (PanelPage.client p).
Proof.
  revert p. induction responses as [|res responses IH]; intros p; [reflexivity|].
  cbn [fmap list_fmap PanelPage.run fold_left].
  fold (PanelPage.run pathname numberToString (PanelPage.Tick <$> responses)
          (PanelPage.step pathname numberToString (PanelPage.Tick res) p)).
  rewrite IH. reflexivity.
Qed.

Lemma overlay_upload_session (pathname : jsstring -> jsstring)
    (numberToString : number -> jsstring) (id st : jsstring) (res : FetchResult)
    (before : list FetchResult) (op : OverlayPage.Page) :
  both_chosen (OverlayPage.chooser op) = true ->
  Forall (fun r => reports (str "completed") r = false
                   /\ reports (str "error") r = false) before ->
  OverlayPage.client
    (OverlayPage.run pathname numberToString
       (OverlayPage.Upload (UploadAnswered true st (JobId (Some id)))
        :: (OverlayPage.Tick <$> before) ++ [OverlayPage.Tick res]) op)
  = Overlay.poll_callback id res
      (Overlay.startPoll id
         (OverlayPage.client
            (OverlayPage.upload (UploadAnswered true st (JobId (Some id))) op))).
Proof.
  intros Ho Hb.
  change (OverlayPage.Upload (UploadAnswered true st (JobId (Some id)))
          :: (OverlayPage.Tick <$> before) ++ [OverlayPage.Tick res])
    with ([OverlayPage.Upload (UploadAnswered true st (JobId (Some id)))]
          ++ (OverlayPage.Tick <$> before) ++ [OverlayPage.Tick res]).
  rewrite !overlay_run_app.
  set (p1 := OverlayPage.run pathname numberToString
               [OverlayPage.Upload (UploadAnswered true st (JobId (Some id)))] op).
  set (p2 := OverlayPage.run pathname numberToString (OverlayPage.Tick <$> before) p1).
  assert (H1 : OverlayPage.client p1
               = Overlay.startPoll id
                   (OverlayPage.client
                      (OverlayPage.upload (UploadAnswered true st (JobId (Some id))) op))).
  { subst p1. cbn [OverlayPage.run fold_left OverlayPage.step].
    unfold OverlayPage.upload. rewrite Ho. reflexivity. }
  assert (H2 : OverlayPage.client p2 = OverlayPage.client p1).
  { subst p2. rewrite overlay_run_ticks.
    apply (overlay_polling_undecided id); [exact Hb|]. rewrite H1. reflexivity. }
  change (OverlayPage.client
            (OverlayPage.run pathname numberToString [OverlayPage.Tick res] p2))
    with (Overlay.tick res (OverlayPage.client p2)).
  rewrite H2, H1. reflexivity.
Qed.

Lemma panel_upload_session (pathname : jsstring -> jsstring)
    (numberToString : number -> jsstring) (id st : jsstring) (res : FetchResult)
    (before : list FetchResult) (pp : PanelPage.Page) :
  both_chosen (PanelPage.chooser pp) = true ->
  Forall (fun r => reports (str "completed") r = false
                   /\ reports (str "error") r = false) before ->
  PanelPage.client
    (PanelPage.run pathname numberToString
       (PanelPage.Upload (UploadAnswered true st (JobId (Some id)))
        :: (PanelPage.Tick <$> before) ++ [PanelPage.Tick res]) pp)
  = Panel.poll_callback id res
      (Panel.startPoll id
         (PanelPage.client
            (PanelPage.upload (UploadAnswered true st (JobId (Some id))) pp))).
Proof.
  intros Hp Hb.
  change (PanelPage.Upload (UploadAnswered true st (JobId (Some id)))
          :: (PanelPage.Tick <$> before) ++ [PanelPage.Tick res])
    with ([PanelPage.Upload (UploadAnswered true st (JobId (Some id)))]
          ++ (PanelPage.Tick <$> before) ++ [PanelPage.Tick res]).
  rewrite !panel_run_app.
  set (p1 := PanelPage.run pathname numberToString
               [PanelPage.Upload (UploadAnswered true st (JobId (Some id)))] pp).
  set (p2 := PanelPage.run pathname numberToString (PanelPage.Tick <$> before) p1).
  assert (H1 : PanelPage.client p1
               = Panel.startPoll id
                   (PanelPage.client
                      (PanelPage.upload (UploadAnswered true st (JobId (Some id))) pp))).
  { subst p1. cbn [PanelPage.run fold_left PanelPage.step].
    unfold PanelPage.upload. rewrite Hp. reflexivity. }
  assert (H2 : PanelPage.client p2 = PanelPage.client p1).
  { subst p2. rewrite panel_run_ticks.
    apply (panel_polling_undecided id); [exact Hb|]. rewrite H1. reflexivity. }
  change (PanelPage.client
            (PanelPage.run pathname numberToString [PanelPage.Tick res] p2))
    with (Panel.tick res (PanelPage.client p2)).
  rewrite H2, H1. reflexivity.
Qed.

Lemma storage_lastJobId (id a b : jsstring) (m : gmap jsstring jsstring) :
  <[ str "panelCaptionsVisible" := a ]>
    (<[ str "panelPdfVisible" := b ]> (<[ str "lastJobId" := id ]> m))
  !! str "lastJobId" = Some id.
Proof.
  rewrite lookup_insert_ne by (intros E; vm_compute in E; discriminate E).
  rewrite lookup_insert_ne by (intros E; vm_compute in E; discriminate E).
  apply lookup_insert_eq.
Qed.

(** What the callback of a completed job leaves behind. *)
Lemma overlay_completed_fields (id : jsstring) (d : StatusDoc) (c : Overlay.Client) :
  d_status d = str "completed" ->
  let c' := Overlay.poll_callback id (HttpResponse true (Some d)) c in
  Overlay.audio_src (Overlay.reader c') = audio_url d
  /\ Overlay.mainContent_shown (Overlay.reader c') = true
  /\ OverlayRun.captions c'
     = match transcript d with
       | Some {| t_segments := Some raw |} => captions_of raw
       | _ => []
       end
  /\ Overlay.currentJobId c' = Some id
  /\ Overlay.poll c' = None
  /\ Overlay.uploadBtn_disabled c' = false
  /\ Overlay.uploadBtn_loading c' = false
  /\ Overlay.statusMsg c' = (str "Ready", str "status-msg ready").
Proof.
  intros Hd c'. subst c'. apply string_eqb_eq in Hd.
  cbn [Overlay.poll_callback]. rewrite Hd.
  unfold Overlay.show, Overlay.buildcaptions, OverlayRun.captions.
  destruct (transcript d) as [[[raw|]]|];
    cbn [Overlay.segments Overlay.set_captions Overlay.reader Overlay.set_reader
         Overlay.audio_src Overlay.mainContent_shown Overlay.currentJobId
         Overlay.poll Overlay.uploadBtn_disabled Overlay.uploadBtn_loading
         Overlay.statusMsg];
    (split; [reflexivity|]); (split; [reflexivity|]);
    (split; [first [apply overlay_push_captions|reflexivity]|]);
    do 4 (split; [reflexivity|]); reflexivity.
Qed.

Lemma panel_completed_fields (id : jsstring) (d : StatusDoc) (c : Panel.Client) :
  d_status d = str "completed" ->
  let c' := Panel.poll_callback id (HttpResponse true (Some d)) c in
  Panel.audio_src (Panel.reader c') = audio_url d
  /\ PanelRun.captions c'
     = match transcript d with
       | Some {| t_segments := Some raw |} => captions_of raw
       | _ => []
       end
  /\ Panel.currentJobId c' = Some id
  /\ Panel.poll c' = None
  /\ Panel.uploadBtn_disabled c' = false
  /\ Panel.uploadBtn_loading c' = false
  /\ Panel.statusMsg c' = (str "Ready", str "status-msg ready")
  /\ Panel.localStorage c' !! str "lastJobId" = Some id
  /\ Panel.pdfVisible c' = Panel.pdfVisible c
  /\ Panel.captionsVisible c' = Panel.captionsVisible c.
Proof.
  intros Hd c'. subst c'. apply string_eqb_eq in Hd.
  cbn [Panel.poll_callback]. rewrite Hd.
  unfold Panel.show, Panel.buildcaptions, PanelRun.captions.
  destruct (transcript d) as [[[raw|]]|].
  - match goal with
    | |- context [Panel.push_lines raw [] ?k] =>
        pose proof (panel_push_lines raw [] k) as (Hcap & _);
        destruct (Panel.push_lines raw [] k) as [ls n]
    end.
    cbn [fst] in Hcap. rewrite fmap_nil, app_nil_l in Hcap.
    split; [reflexivity|]. split; [exact Hcap|].
    do 5 (split; [reflexivity|]).
    split; [apply storage_lastJobId|]. split; reflexivity.
  - split; [reflexivity|]. split; [reflexivity|].
    do 5 (split; [reflexivity|]).
    split; [apply storage_lastJobId|]. split; reflexivity.
  - split; [reflexivity|]. split; [reflexivity|].
    do 5 (split; [reflexivity|]).
    split; [apply storage_lastJobId|]. split; reflexivity.
Qed.

(** X9. From the click to the reader: with both files chosen, an upload
    answered with a job id, followed by status answers that report
    neither completion nor an error and then by one that reports
    completion, ends with the reader open on that answer's audio and
    captions, the job recorded as the current one, the timer cleared, the
    button enabled again and the status line at [Ready]; the panel
    revision has also stored the job as the last one. *)
Theorem upload_opens_reader (pathname : jsstring -> jsstring)
    (numberToString : number -> jsstring) (id st : jsstring) (d : StatusDoc)
    (before : list FetchResult) (op : OverlayPage.Page) (pp : PanelPage.Page) :
  both_chosen (OverlayPage.chooser op) = true ->
  both_chosen (PanelPage.chooser pp) = true ->
  Forall (fun r => reports (str "completed") r = false
                   /\ reports (str "error") r = false) before ->
  d_status d = str "completed" ->
  let oc := OverlayPage.client
    (OverlayPage.run pathname numberToString
       (OverlayPage.Upload (UploadAnswered true st (JobId (Some id)))
        :: (OverlayPage.Tick <$> before)
        ++ [OverlayPage.Tick (HttpResponse true (Some d))]) op) in
  let pc := PanelPage.client
    (PanelPage.run pathname numberToString
       (PanelPage.Upload (UploadAnswered true st (JobId (Some id)))
        :: (PanelPage.Tick <$> before)
        ++ [PanelPage.Tick (HttpResponse true (Some d))]) pp) in
  (Overlay.audio_src (Overlay.reader oc) = audio_url d
   /\ Overlay.mainContent_shown (Overlay.reader oc) = true
   /\ OverlayRun.captions oc
      = match transcript d with
        | Some {| t_segments := Some raw |} => captions_of raw
        | _ => []
        end
   /\ Overlay.currentJobId oc = Some id
   /\ Overlay.poll oc = None
   /\ Overlay.uploadBtn_disabled oc = false
   /\ Overlay.uploadBtn_loading oc = false
   /\ Overlay.statusMsg oc = (str "Ready", str "status-msg ready"))
  /\ (Panel.audio_src (Panel.reader pc) = audio_url d
      /\ PanelRun.captions pc
         = match transcript d with
           | Some {| t_segments := Some raw |} => captions_of raw
           | _ => []
           end
      /\ Panel.currentJobId pc = Some id
      /\ Panel.poll pc = None
      /\ Panel.uploadBtn_disabled pc = false
      /\ Panel.uploadBtn_loading pc = false
      /\ Panel.statusMsg pc = (str "Ready", str "status-msg ready")
      /\ Panel.localStorage pc !! str "lastJobId" = Some id).
Proof.
  intros Ho Hp Hb Hd oc pc. subst oc pc.
  rewrite (overlay_upload_session _ _ _ _ _ _ _ Ho Hb).
  rewrite (panel_upload_session _ _ _ _ _ _ _ Hp Hb).
  split.
  - exact (overlay_completed_fields id d _ Hd).
  - destruct (panel_completed_fields id d
                (Panel.startPoll id
                   (PanelPage.client
                      (PanelPage.upload (UploadAnswered true st (JobId (Some id))) pp)))
                Hd)
      as (H1 & H2 & H3 & H4 & H5 & H6 & H7 & H8 & _).
    repeat (split; [assumption|]). assumption.
Qed.

Lemma upload_opens_reader_witness :
  let ch := {| pdfFile := Some (str "a.pdf"); audioFile := Some (str "a.mp3");
               pdfLabel := str "a.pdf"; audioLabel := str "a.mp3";
               pdfChip_selected := true; audioChip_selected := true |} in
  let pl := {| nightMode := false; speedIdx := 1; playbackRate := lit 1 0;
               paused := true; volume := lit 1 0; muted := false;
               duration := NaN |} in
  let d := {| d_status := str "completed"; pdf_url := str "/files/a.pdf";
              audio_url := str "/files/a.mp3"; transcript := None;
              title := None |} in
  Panel.localStorage
    (PanelPage.client
       (PanelPage.run (fun s => s) (fun _ => [])
          (PanelPage.Upload (UploadAnswered true (str "OK") (JobId (Some (str "j1"))))
           :: (PanelPage.Tick <$> [NetworkError])
           ++ [PanelPage.Tick (HttpResponse true (Some d))])
          {| PanelPage.client := Panel.blank ∅; PanelPage.chooser := ch;
             PanelPage.player := pl |}))
  !! str "lastJobId" = Some (str "j1").
Proof.
  cbv zeta.
  refine (proj2 (proj2 (proj2 (proj2 (proj2 (proj2 (proj2 (proj2
    (upload_opens_reader (fun s => s) (fun _ => []) (str "j1") (str "OK")
       {| d_status := str "completed"; pdf_url := str "/files/a.pdf";
          audio_url := str "/files/a.mp3"; transcript := None; title := None |}
       [NetworkError]
       {| OverlayPage.client := Overlay.blank ∅;
          OverlayPage.chooser :=
            {| pdfFile := Some (str "a.pdf"); audioFile := Some (str "a.mp3");
               pdfLabel := str "a.pdf"; audioLabel := str "a.mp3";
               pdfChip_selected := true; audioChip_selected := true |};
          OverlayPage.player :=
            {| nightMode := false; speedIdx := 1; playbackRate := lit 1 0;
               paused := true; volume := lit 1 0; muted := false;
               duration := NaN |};
          OverlayPage.saveThrottle := 0 |}
       {| PanelPage.client := Panel.blank ∅;
          PanelPage.chooser :=
            {| pdfFile := Some (str "a.pdf"); audioFile := Some (str "a.mp3");
               pdfLabel := str "a.pdf"; audioLabel := str "a.mp3";
               pdfChip_selected := true; audioChip_selected := true |};
          PanelPage.player :=
            {| nightMode := false; speedIdx := 1; playbackRate := lit 1 0;
               paused := true; volume := lit 1 0; muted := false;
               duration := NaN |} |} _ _ _ _))))))))).
  - reflexivity.
  - reflexivity.
  - repeat (constructor; [split; reflexivity|]). constructor.
  - reflexivity.
Defined.

(** ** What the page keeps over any run of events *)

Ltac key_ne := let E := fresh in intros E; vm_compute in E; discriminate E.

Lemma panel_wf_same (c c' : Panel.Client) :
  Panel.lines c' = Panel.lines c ->
  Panel.activeLine c' = Panel.activeLine c ->
  Panel.created c' = Panel.created c ->
  PanelRun.wf c -> PanelRun.wf c'.
Proof.
  intros Hl Ha Hc [H1 H2 H3 H4]. split; rewrite ?Hl, ?Ha, ?Hc; assumption.
Qed.

Lemma panel_sync_keeps (c : Panel.Client) :
  Panel.pdfVisible (Panel.synccaptions c) = Panel.pdfVisible c
  /\ Panel.captionsVisible (Panel.synccaptions c) = Panel.captionsVisible c
  /\ Panel.localStorage (Panel.synccaptions c) = Panel.localStorage c.
Proof.
  unfold Panel.synccaptions. destruct (Panel.frame_index c) as [idx|]; [|auto].
  destruct (negb (idx =? -1) && _); [auto|].
  destruct ((idx =? -1) && _); auto.
Qed.

Lemma panel_seek_keeps (v : number) (c : Panel.Client) :
  let c' := default c (Panel.seek v c) in
  Panel.lines c' = Panel.lines c
  /\ Panel.activeLine c' = Panel.activeLine c
  /\ Panel.created c' = Panel.created c
  /\ Panel.pdfVisible c' = Panel.pdfVisible c
  /\ Panel.captionsVisible c' = Panel.captionsVisible c
  /\ Panel.localStorage c' = Panel.localStorage c.
Proof. unfold Panel.seek. destruct (is_finite v); cbn; auto 10. Qed.

Lemma panel_loadedmetadata_keeps (pathname : jsstring -> jsstring) (c : Panel.Client) :
  let c' := Panel.loadedmetadata pathname c in
  (PanelRun.wf c -> PanelRun.wf c')
  /\ Panel.pdfVisible c' = Panel.pdfVisible c
  /\ Panel.captionsVisible c' = Panel.captionsVisible c
  /\ Panel.localStorage c' = Panel.localStorage c.
Proof.
  cbv zeta. unfold Panel.loadedmetadata.
  set (c1 := Panel.set_audioPathName _ c).
  assert (Hwf1 : PanelRun.wf c -> PanelRun.wf c1)
    by (apply panel_wf_same; reflexivity).
  destruct (Panel.localStorage c1 !! _) as [savedTime|]; [|auto].
  destruct (truthy savedTime && _); [|auto].
  unfold Panel.seek. destruct (is_finite _); [|auto].
  destruct (panel_sync_keeps (Panel.set_currentTime (parseFloat savedTime) c1))
    as (H1 & H2 & H3).
  rewrite H1, H2, H3. split; [|auto].
  intros Hwf. apply panel_wf_synccaptions.
  apply (panel_wf_same c1); try reflexivity. auto.
Qed.

Lemma panel_tick_keeps (res : FetchResult) (c : Panel.Client) :
  let c' := Panel.tick res c in
  (PanelRun.wf c -> PanelRun.wf c')
  /\ Panel.pdfVisible c' = Panel.pdfVisible c
  /\ Panel.captionsVisible c' = Panel.captionsVisible c
  /\ (Panel.localStorage c' = Panel.localStorage c
      \/ exists id,
           Panel.localStorage c'
           = <[ str "panelCaptionsVisible" :=
                str (if Panel.captionsVisible c then "true" else "false") ]>
               (<[ str "panelPdfVisible" :=
                   str (if Panel.pdfVisible c then "true" else "false") ]>
                  (<[ str "lastJobId" := id ]> (Panel.localStorage c)))).
Proof.
  cbv zeta. unfold Panel.tick. destruct (Panel.poll c) as [id|]; [|auto].
  destruct res as [|[|] [d|]]; cbn [Panel.poll_callback]; auto.
  destruct (string_eqb (d_status d) (str "completed")).
  - unfold Panel.show.
    match goal with
    | |- context [Panel.buildcaptions ?t ?c0] => set (c1 := c0)
    end.
    assert (Hwf1 : PanelRun.wf c -> PanelRun.wf c1)
      by (apply panel_wf_same; reflexivity).
    split; [intros Hwf; apply panel_wf_buildcaptions; auto|].
    unfold Panel.buildcaptions.
    destruct (transcript d) as [[[raw|]]|];
      [destruct (Panel.push_lines raw [] (Panel.created c1)) as [ls n]| |];
      (split; [reflexivity|]); (split; [reflexivity|]); right; exists id; reflexivity.
  - destruct (string_eqb (d_status d) (str "error")); [|auto].
    split; [apply panel_wf_same; reflexivity|auto].
Qed.

Lemma panel_blank_reads (st : gmap jsstring jsstring) :
  Panel.pdfVisible (Panel.blank st)
  = negb (bool_decide (st !! str "panelPdfVisible" = Some (str "false")))
  /\ Panel.captionsVisible (Panel.blank st)
     = negb (bool_decide (st !! str "panelCaptionsVisible" = Some (str "false"))).
Proof. split; reflexivity. Qed.

Lemma flag_reads_back (b : bool) :
  negb (bool_decide (Some (str (if b then "true" else "false")) = Some (str "false")))
  = b
  /\ bool_decide (Some (str (if b then "true" else "false")) = Some (str "true")) = b.
Proof. destruct b; split; vm_compute; reflexivity. Qed.

(** The storage after [applyPanelVisibility()] reads back as the
    visibility in effect, and the night preference is as before. *)
Lemma panel_stored_visibility (pdf captions : bool) (st : gmap jsstring jsstring) :
  let st' := <[ str "panelCaptionsVisible" := str (if captions then "true" else "false") ]>
               (<[ str "panelPdfVisible" := str (if pdf then "true" else "false") ]> st) in
  Panel.pdfVisible (Panel.blank st') = pdf
  /\ Panel.captionsVisible (Panel.blank st') = captions
  /\ stored_nightMode st' = stored_nightMode st.
Proof.
  cbv zeta. destruct (panel_blank_reads
    (<[ str "panelCaptionsVisible" := str (if captions then "true" else "false") ]>
       (<[ str "panelPdfVisible" := str (if pdf then "true" else "false") ]> st)))
    as [-> ->].
  unfold stored_nightMode.
  rewrite lookup_insert_eq.
  rewrite (lookup_insert_ne _ (str "panelCaptionsVisible") (str "panelPdfVisible"))
    by key_ne.
  rewrite lookup_insert_eq.
  rewrite (lookup_insert_ne _ (str "panelCaptionsVisible") (str "pdfNightMode"))
    by key_ne.
  rewrite (lookup_insert_ne _ (str "panelPdfVisible") (str "pdfNightMode"))
    by key_ne.
  split; [apply flag_reads_back|]. split; [apply flag_reads_back|reflexivity].
Qed.

(** A key that is none of the three preferences does not change what a
    reload reads. *)
Lemma panel_other_key (k v : jsstring) (st : gmap jsstring jsstring) :
  k <> str "panelPdfVisible" -> k <> str "panelCaptionsVisible" ->
  k <> str "pdfNightMode" ->
  Panel.pdfVisible (Panel.blank (<[ k := v ]> st)) = Panel.pdfVisible (Panel.blank st)
  /\ Panel.captionsVisible (Panel.blank (<[ k := v ]> st))
     = Panel.captionsVisible (Panel.blank st)
  /\ stored_nightMode (<[ k := v ]> st) = stored_nightMode st.
Proof.
  intros H1 H2 H3.
  destruct (panel_blank_reads (<[ k := v ]> st)) as [-> ->].
  destruct (panel_blank_reads st) as [-> ->]. unfold stored_nightMode.
  rewrite !lookup_insert_ne by assumption. auto.
Qed.

Lemma stored_night (b : bool) (st : gmap jsstring jsstring) :
  let st' := <[ str "pdfNightMode" := str (if b then "true" else "false") ]> st in
  stored_nightMode st' = b
  /\ Panel.pdfVisible (Panel.blank st') = Panel.pdfVisible (Panel.blank st)
  /\ Panel.captionsVisible (Panel.blank st') = Panel.captionsVisible (Panel.blank st)
  /\ Overlay.captionsVisible (Overlay.blank st')
     = Overlay.captionsVisible (Overlay.blank st).
Proof.
  cbv zeta. unfold stored_nightMode. rewrite lookup_insert_eq.
  split; [apply flag_reads_back|].
  destruct (panel_blank_reads
              (<[ str "pdfNightMode" := str (if b then "true" else "false") ]> st))
    as [-> ->].
  destruct (panel_blank_reads st) as [-> ->].
  cbn [Overlay.captionsVisible Overlay.blank].
  rewrite (lookup_insert_ne _ (str "pdfNightMode") (str "panelPdfVisible")) by key_ne.
  rewrite (lookup_insert_ne _ (str "pdfNightMode") (str "panelCaptionsVisible"))
    by key_ne.
  auto.
Qed.

Lemma control_key_night (k : Key) (pl : Player) :
  nightMode (control_key k pl) = nightMode pl.
Proof.
  destruct k; cbn [control_key]; try reflexivity.
  - unfold set_volume. destruct (le _ _ && le _ _); reflexivity.
  - unfold set_volume. destruct (le _ _ && le _ _); reflexivity.
Qed.

Lemma panel_night_click_keeps (p : PanelPage.Page) :
  PanelPage.client (PanelPage.night_click p)
  = Panel.set_localStorage
      (<[ str "pdfNightMode" :=
          str (if negb (nightMode (PanelPage.player p)) then "true" else "false") ]>
         (Panel.localStorage (PanelPage.client p))) (PanelPage.client p)
  /\ nightMode (PanelPage.player (PanelPage.night_click p))
     = negb (nightMode (PanelPage.player p)).
Proof. split; reflexivity. Qed.

Lemma panel_agrees_night_click (p : PanelPage.Page) :
  PanelPage.reload_agrees p -> PanelPage.reload_agrees (PanelPage.night_click p).
Proof.
  intros (H1 & H2 & H3). unfold PanelPage.reload_agrees.
  destruct (panel_night_click_keeps p) as [-> ->].
  cbn [Panel.localStorage Panel.set_localStorage Panel.pdfVisible
       Panel.captionsVisible].
  destruct (stored_night (negb (nightMode (PanelPage.player p)))
              (Panel.localStorage (PanelPage.client p))) as (E1 & E2 & E3 & _).
  rewrite E1, E2, E3. auto.
Qed.

Lemma panel_agrees_same (p p' : PanelPage.Page) :
  Panel.localStorage (PanelPage.client p') = Panel.localStorage (PanelPage.client p) ->
  Panel.pdfVisible (PanelPage.client p') = Panel.pdfVisible (PanelPage.client p) ->
  Panel.captionsVisible (PanelPage.client p')
  = Panel.captionsVisible (PanelPage.client p) ->
  nightMode (PanelPage.player p') = nightMode (PanelPage.player p) ->
  PanelPage.reload_agrees p -> PanelPage.reload_agrees p'.
Proof.
  unfold PanelPage.reload_agrees. intros -> -> -> ->. auto.
Qed.

Lemma panel_visible_same (c c' : Panel.Client) :
  Panel.pdfVisible c' = Panel.pdfVisible c ->
  Panel.captionsVisible c' = Panel.captionsVisible c ->
  PanelPage.some_panel_visible c -> PanelPage.some_panel_visible c'.
Proof. unfold PanelPage.some_panel_visible. intros -> ->. auto. Qed.

Lemma panel_agrees_apply (pdf captions : bool) (p : PanelPage.Page) :
  PanelPage.reload_agrees p ->
  PanelPage.reload_agrees
    (PanelPage.with_client
       (PanelPage.show_toggles
          (Panel.applyPanelVisibility
             (PanelPage.set_visible pdf captions (PanelPage.client p)))) p).
Proof.
  intros (H1 & H2 & H3). unfold PanelPage.reload_agrees.
  cbn [PanelPage.client PanelPage.with_client PanelPage.player Panel.localStorage
       PanelPage.show_toggles Panel.set_reader Panel.applyPanelVisibility
       Panel.set_localStorage PanelPage.set_visible Panel.pdfVisible
       Panel.captionsVisible].
  destruct (panel_stored_visibility pdf captions
              (Panel.localStorage (PanelPage.client p))) as (E1 & E2 & E3).
  rewrite E1, E2, E3. auto.
Qed.

Lemma panel_seek_inert (v : number) (p : PanelPage.Page) :
  let p' := PanelPage.with_client (default (PanelPage.client p)
                                     (Panel.seek v (PanelPage.client p))) p in
  (PanelRun.wf (PanelPage.client p) -> PanelRun.wf (PanelPage.client p'))
  /\ (PanelPage.some_panel_visible (PanelPage.client p)
      -> PanelPage.some_panel_visible (PanelPage.client p'))
  /\ (PanelPage.reload_agrees p -> PanelPage.reload_agrees p').
Proof.
  cbv zeta.
  destruct (panel_seek_keeps v (PanelPage.client p)) as (H1 & H2 & H3 & H4 & H5 & H6).
  split; [apply panel_wf_same; assumption|].
  split; [apply panel_visible_same; assumption|].
  apply panel_agrees_same; assumption || reflexivity.
Qed.

Ltac panel_inert :=
  split; [apply panel_wf_same; reflexivity|];
  split; [apply panel_visible_same; reflexivity|];
  apply panel_agrees_same; reflexivity.

Lemma panel_step_keeps (pathname : jsstring -> jsstring)
    (numberToString : number -> jsstring) (e : PanelPage.Event) (p : PanelPage.Page) :
  let p' := PanelPage.step pathname numberToString e p in
  (PanelRun.wf (PanelPage.client p) -> PanelRun.wf (PanelPage.client p'))
  /\ (PanelPage.some_panel_visible (PanelPage.client p)
      -> PanelPage.some_panel_visible (PanelPage.client p'))
  /\ (PanelPage.reload_agrees p -> PanelPage.reload_agrees p').
Proof.
  cbv zeta. destruct e as [file|file|o|id| |res|clock| | | | | | |typing k];
    cbn [PanelPage.step].
  - (* PdfChange *) panel_inert.
  - (* AudioChange *) panel_inert.
  - (* Upload *)
    unfold PanelPage.upload, PanelPage.upload_click.
    destruct (both_chosen (PanelPage.chooser p)); [|auto].
    destruct o as [message|ok st [message|job]]; panel_inert.
  - (* HistoryClick *) panel_inert.
  - (* RestoreSession *)
    unfold PanelPage.restore_session.
    destruct (Panel.localStorage (PanelPage.client p) !! str "lastJobId")
      as [[|u id]|]; panel_inert.
  - (* Tick *)
    destruct (panel_tick_keeps res (PanelPage.client p)) as (Hwf & Hp & Hc & Hst).
    split; [exact Hwf|]. split; [apply panel_visible_same; assumption|].
    destruct Hst as [Hst|[id Hst]].
    + apply panel_agrees_same; assumption || reflexivity.
    + intros (H1 & H2 & H3). unfold PanelPage.reload_agrees.
      cbn [PanelPage.client PanelPage.with_client PanelPage.player].
      rewrite Hst, Hp, Hc.
      destruct (panel_stored_visibility (Panel.pdfVisible (PanelPage.client p))
                  (Panel.captionsVisible (PanelPage.client p))
                  (<[ str "lastJobId" := id ]>
                     (Panel.localStorage (PanelPage.client p))))
        as (E1 & E2 & E3).
      rewrite E1, E2, E3.
      destruct (panel_other_key (str "lastJobId") id
                  (Panel.localStorage (PanelPage.client p)))
        as (_ & _ & E4); [key_ne|key_ne|key_ne|].
      rewrite E4. auto.
  - (* Frame *)
    destruct (panel_sync_keeps (Panel.set_currentTime clock (PanelPage.client p)))
      as (Hp & Hc & Hst).
    split.
    { intros Hwf. apply panel_wf_synccaptions.
      revert Hwf. apply panel_wf_same; reflexivity. }
    split; [apply panel_visible_same; assumption|].
    apply panel_agrees_same; assumption || reflexivity.
  - (* LoadedMetadata *)
    destruct (panel_loadedmetadata_keeps pathname (PanelPage.client p))
      as (Hwf & Hp & Hc & Hst).
    split; [exact Hwf|]. split; [apply panel_visible_same; assumption|].
    apply panel_agrees_same; assumption || reflexivity.
  - (* TimeUpdate *)
    unfold PanelPage.timeupdate.
    destruct (truthy _ && gt _ _); [|auto].
    split; [destruct (truthy (Panel.audioPathName (PanelPage.client p)));
            apply panel_wf_same; reflexivity|].
    split; [destruct (truthy (Panel.audioPathName (PanelPage.client p)));
            apply panel_visible_same; reflexivity|].
    intros (H1 & H2 & H3). unfold PanelPage.reload_agrees.
    cbn [PanelPage.client PanelPage.with_client PanelPage.player].
    match goal with
    | |- context [Panel.set_localStorage (<[ ?k := ?v ]> ?st) ?c1] =>
        destruct (panel_other_key k v st) as (E1 & E2 & E3);
          [key_ne|key_ne|key_ne|];
        change (Panel.localStorage (Panel.set_localStorage (<[ k := v ]> st) c1))
          with (<[ k := v ]> st);
        rewrite E1, E2, E3
    end.
    destruct (truthy (Panel.audioPathName (PanelPage.client p))); auto.
  - (* TogglePdf *)
    unfold PanelPage.toggle_pdf.
    destruct (Panel.pdfVisible (PanelPage.client p)
              && negb (Panel.captionsVisible (PanelPage.client p))) eqn:Hlock;
      [auto|].
    split; [apply panel_wf_same; reflexivity|].
    split; [|apply panel_agrees_apply].
    intros _. unfold PanelPage.some_panel_visible. cbn.
    destruct (Panel.pdfVisible (PanelPage.client p)),
             (Panel.captionsVisible (PanelPage.client p)); try reflexivity;
      discriminate.
  - (* ToggleCaptions *)
    unfold PanelPage.toggle_captions.
    destruct (Panel.captionsVisible (PanelPage.client p)
              && negb (Panel.pdfVisible (PanelPage.client p))) eqn:Hlock;
      [auto|].
    split; [apply panel_wf_same; reflexivity|].
    split; [|apply panel_agrees_apply].
    intros _. unfold PanelPage.some_panel_visible. cbn.
    destruct (Panel.pdfVisible (PanelPage.client p)),
             (Panel.captionsVisible (PanelPage.client p)); try reflexivity;
      discriminate.
  - (* NightClick *)
    split; [apply panel_wf_same; reflexivity|].
    split; [apply panel_visible_same; reflexivity|].
    apply panel_agrees_night_click.
  - (* SpeedClick *) panel_inert.
  - (* KeyDown *)
    unfold PanelPage.keydown. destruct typing; [auto|].
    destruct k;
      try (split; [apply panel_wf_same; reflexivity|];
           split; [apply panel_visible_same; reflexivity|];
           apply panel_agrees_same; try reflexivity; apply control_key_night).
    + apply panel_seek_inert.
    + apply panel_seek_inert.
    + split; [apply panel_wf_same; reflexivity|].
      split; [apply panel_visible_same; reflexivity|].
      apply panel_agrees_night_click.
Qed.

Lemma panel_run_keeps (pathname : jsstring -> jsstring)
    (numberToString : number -> jsstring) (events : list PanelPage.Event)
    (p : PanelPage.Page) :
  let p' := PanelPage.run pathname numberToString events p in
  (PanelRun.wf (PanelPage.client p) -> PanelRun.wf (PanelPage.client p'))
  /\ (PanelPage.some_panel_visible (PanelPage.client p)
      -> PanelPage.some_panel_visible (PanelPage.client p'))
  /\ (PanelPage.reload_agrees p -> PanelPage.reload_agrees p').
Proof.
  cbv zeta. revert p. induction events as [|e events IH]; intros p; [cbn; auto|].
  cbn [PanelPage.run fold_left].
  fold (PanelPage.run pathname numberToString events
          (PanelPage.step pathname numberToString e p)).
  destruct (panel_step_keeps pathname numberToString e p) as (S1 & S2 & S3).
  destruct (IH (PanelPage.step pathname numberToString e p)) as (R1 & R2 & R3).
  auto.
Qed.

Lemma overlay_shown_same (c c' : Overlay.Client) :
  Overlay.segments c' = Overlay.segments c ->
  Overlay.activeIdx c' = Overlay.activeIdx c ->
  Overlay.captionText c' = Overlay.captionText c ->
  OverlayPage.caption_matches c /\ OverlayPage.active_in_range c ->
  OverlayPage.caption_matches c' /\ OverlayPage.active_in_range c'.
Proof.
  unfold OverlayPage.caption_matches, OverlayPage.active_in_range.
  intros -> -> ->. auto.
Qed.

Lemma overlay_sync_shown (c : Overlay.Client) :
  OverlayPage.caption_matches c /\ OverlayPage.active_in_range c ->
  OverlayPage.caption_matches (Overlay.synccaptions c)
  /\ OverlayPage.active_in_range (Overlay.synccaptions c).
Proof.
  intros Hc. unfold Overlay.synccaptions.
  destruct (Overlay.frame_index c) as [idx|] eqn:Hf; [|exact Hc].
  destruct (negb (idx =? Overlay.activeIdx c)); [|exact Hc].
  unfold OverlayPage.caption_matches, OverlayPage.active_in_range.
  cbn [Overlay.captionText Overlay.activeIdx Overlay.segments Overlay.set_captions].
  split; [destruct (idx =? -1); reflexivity|].
  unfold Overlay.frame_index in Hf.
  destruct (_ || _); [discriminate|]. injection Hf as <-. apply scan_range.
Qed.

Lemma overlay_sync_storage (c : Overlay.Client) :
  Overlay.localStorage (Overlay.synccaptions c) = Overlay.localStorage c.
Proof.
  unfold Overlay.synccaptions. destruct (Overlay.frame_index c) as [idx|]; [|auto].
  destruct (negb (idx =? Overlay.activeIdx c)); auto.
Qed.

Lemma overlay_seek_keeps (v : number) (c : Overlay.Client) :
  let c' := default c (Overlay.seek v c) in
  Overlay.segments c' = Overlay.segments c
  /\ Overlay.activeIdx c' = Overlay.activeIdx c
  /\ Overlay.captionText c' = Overlay.captionText c
  /\ Overlay.captionsVisible c' = Overlay.captionsVisible c
  /\ Overlay.localStorage c' = Overlay.localStorage c.
Proof. unfold Overlay.seek. destruct (is_finite v); cbn; auto 10. Qed.

Lemma overlay_loadedmetadata_keeps (pathname : jsstring -> jsstring)
    (c : Overlay.Client) :
  let c' := Overlay.loadedmetadata pathname c in
  Overlay.segments c' = Overlay.segments c
  /\ Overlay.activeIdx c' = Overlay.activeIdx c
  /\ Overlay.captionText c' = Overlay.captionText c
  /\ Overlay.captionsVisible c' = Overlay.captionsVisible c
  /\ Overlay.localStorage c' = Overlay.localStorage c.
Proof.
  cbv zeta. unfold Overlay.loadedmetadata.
  set (c1 := Overlay.set_audioPathName _ c).
  destruct (Overlay.localStorage c1 !! _) as [savedTime|]; [|auto 10].
  destruct (truthy savedTime && _); [|auto 10].
  unfold Overlay.seek. destruct (is_finite _); auto 10.
Qed.

Lemma overlay_tick_keeps (res : FetchResult) (c : Overlay.Client) :
  let c' := Overlay.tick res c in
  (OverlayPage.caption_matches c /\ OverlayPage.active_in_range c ->
   OverlayPage.caption_matches c' /\ OverlayPage.active_in_range c')
  /\ Overlay.captionsVisible c' = Overlay.captionsVisible c
  /\ (Overlay.localStorage c' = Overlay.localStorage c
      \/ Overlay.localStorage c'
         = <[ str "panelCaptionsVisible" :=
              str (if Overlay.captionsVisible c then "true" else "false") ]>
             (Overlay.localStorage c)).
Proof.
  cbv zeta. unfold Overlay.tick. destruct (Overlay.poll c) as [id|]; [|auto].
  destruct res as [|[|] [d|]]; cbn [Overlay.poll_callback]; auto.
  destruct (string_eqb (d_status d) (str "completed")).
  - unfold Overlay.show, Overlay.buildcaptions.
    destruct (transcript d) as [[[raw|]]|];
      (split; [intros _; split; [reflexivity|left; reflexivity]|]);
      (split; [reflexivity|right; reflexivity]).
  - destruct (string_eqb (d_status d) (str "error")); [|auto].
    split; [apply overlay_shown_same; reflexivity|auto].
Qed.

Lemma overlay_stored_visibility (captions : bool) (st : gmap jsstring jsstring) :
  let st' := <[ str "panelCaptionsVisible" := str (if captions then "true" else "false") ]>
               st in
  Overlay.captionsVisible (Overlay.blank st') = captions
  /\ stored_nightMode st' = stored_nightMode st.
Proof.
  cbv zeta. cbn [Overlay.captionsVisible Overlay.blank]. unfold stored_nightMode.
  rewrite lookup_insert_eq.
  rewrite (lookup_insert_ne _ (str "panelCaptionsVisible") (str "pdfNightMode"))
    by key_ne.
  split; [apply flag_reads_back|reflexivity].
Qed.

Lemma overlay_other_key (k v : jsstring) (st : gmap jsstring jsstring) :
  k <> str "panelCaptionsVisible" -> k <> str "pdfNightMode" ->
  Overlay.captionsVisible (Overlay.blank (<[ k := v ]> st))
  = Overlay.captionsVisible (Overlay.blank st)
  /\ stored_nightMode (<[ k := v ]> st) = stored_nightMode st.
Proof.
  intros H1 H2. cbn [Overlay.captionsVisible Overlay.blank]. unfold stored_nightMode.
  rewrite !lookup_insert_ne by assumption. auto.
Qed.

Lemma overlay_agrees_same (p p' : OverlayPage.Page) :
  Overlay.localStorage (OverlayPage.client p')
  = Overlay.localStorage (OverlayPage.client p) ->
  Overlay.captionsVisible (OverlayPage.client p')
  = Overlay.captionsVisible (OverlayPage.client p) ->
  nightMode (OverlayPage.player p') = nightMode (OverlayPage.player p) ->
  OverlayPage.reload_agrees p -> OverlayPage.reload_agrees p'.
Proof. unfold OverlayPage.reload_agrees. intros -> -> ->. auto. Qed.

Lemma overlay_agrees_night_click (p : OverlayPage.Page) :
  OverlayPage.reload_agrees p -> OverlayPage.reload_agrees (OverlayPage.night_click p).
Proof.
  intros (H1 & H2). unfold OverlayPage.reload_agrees.
  change (Overlay.localStorage (OverlayPage.client (OverlayPage.night_click p)))
    with (<[ str "pdfNightMode" :=
             str (if negb (nightMode (OverlayPage.player p)) then "true" else "false") ]>
            (Overlay.localStorage (OverlayPage.client p))).
  change (nightMode (OverlayPage.player (OverlayPage.night_click p)))
    with (negb (nightMode (OverlayPage.player p))).
  change (Overlay.captionsVisible (OverlayPage.client (OverlayPage.night_click p)))
    with (Overlay.captionsVisible (OverlayPage.client p)).
  destruct (stored_night (negb (nightMode (OverlayPage.player p)))
              (Overlay.localStorage (OverlayPage.client p))) as (E1 & _ & _ & E4).
  rewrite E1, E4. auto.
Qed.

Lemma overlay_seek_inert (v : number) (p : OverlayPage.Page) :
  let p' := OverlayPage.with_client (default (OverlayPage.client p)
                                       (Overlay.seek v (OverlayPage.client p))) p in
  (OverlayPage.caption_matches (OverlayPage.client p)
   /\ OverlayPage.active_in_range (OverlayPage.client p) ->
   OverlayPage.caption_matches (OverlayPage.client p')
   /\ OverlayPage.active_in_range (OverlayPage.client p'))
  /\ (OverlayPage.reload_agrees p -> OverlayPage.reload_agrees p').
Proof.
  cbv zeta.
  destruct (overlay_seek_keeps v (OverlayPage.client p)) as (H1 & H2 & H3 & H4 & H5).
  split; [apply overlay_shown_same; assumption|].
  apply overlay_agrees_same; assumption || reflexivity.
Qed.

Ltac overlay_inert :=
  split; [apply overlay_shown_same; reflexivity|];
  apply overlay_agrees_same; reflexivity.

Lemma overlay_step_keeps (pathname : jsstring -> jsstring)
    (numberToString : number -> jsstring) (e : OverlayPage.Event)
    (p : OverlayPage.Page) :
  let p' := OverlayPage.step pathname numberToString e p in
  (OverlayPage.caption_matches (OverlayPage.client p)
   /\ OverlayPage.active_in_range (OverlayPage.client p) ->
   OverlayPage.caption_matches (OverlayPage.client p')
   /\ OverlayPage.active_in_range (OverlayPage.client p'))
  /\ (OverlayPage.reload_agrees p -> OverlayPage.reload_agrees p').
Proof.
  cbv zeta. destruct e as [file|file|o|id|res|clock| |now| | | |typing k];
    cbn [OverlayPage.step].
  - overlay_inert.
  - overlay_inert.
  - unfold OverlayPage.upload, OverlayPage.upload_click.
    destruct (both_chosen (OverlayPage.chooser p)); [|auto].
    destruct o as [message|[|] st [message|job]]; overlay_inert.
  - overlay_inert.
  - (* Tick *)
    destruct (overlay_tick_keeps res (OverlayPage.client p)) as (Hs & Hc & Hst).
    split; [exact Hs|].
    destruct Hst as [Hst|Hst].
    + apply overlay_agrees_same; assumption || reflexivity.
    + intros (H1 & H2). unfold OverlayPage.reload_agrees.
      cbn [OverlayPage.client OverlayPage.with_client OverlayPage.player].
      rewrite Hst, Hc.
      destruct (overlay_stored_visibility
                  (Overlay.captionsVisible (OverlayPage.client p))
                  (Overlay.localStorage (OverlayPage.client p))) as (E1 & E2).
      rewrite E1, E2. auto.
  - (* Frame *)
    split.
    + intros Hc. apply overlay_sync_shown. revert Hc.
      apply overlay_shown_same; reflexivity.
    + apply overlay_agrees_same; try reflexivity.
      * cbn [OverlayPage.client OverlayPage.with_client].
        rewrite overlay_sync_storage. reflexivity.
      * cbn [OverlayPage.client OverlayPage.with_client].
        rewrite (proj2 (overlay_sync_keeps _)). reflexivity.
  - (* LoadedMetadata *)
    destruct (overlay_loadedmetadata_keeps pathname (OverlayPage.client p))
      as (H1 & H2 & H3 & H4 & H5).
    split; [apply overlay_shown_same; assumption|].
    apply overlay_agrees_same; assumption || reflexivity.
  - (* TimeUpdate *)
    unfold OverlayPage.timeupdate.
    destruct (now - OverlayPage.saveThrottle p <? 3000); [auto|].
    destruct (truthy _ && gt _ _); [|overlay_inert].
    split; [destruct (truthy (Overlay.audioPathName (OverlayPage.client p)));
            apply overlay_shown_same; reflexivity|].
    intros (H1 & H2). unfold OverlayPage.reload_agrees.
    cbn [OverlayPage.client OverlayPage.player].
    match goal with
    | |- context [Overlay.set_localStorage (<[ ?k := ?v ]> ?st) ?c1] =>
        destruct (overlay_other_key k v st) as (E1 & E2); [key_ne|key_ne|];
        change (Overlay.localStorage (Overlay.set_localStorage (<[ k := v ]> st) c1))
          with (<[ k := v ]> st);
        rewrite E1, E2
    end.
    destruct (truthy (Overlay.audioPathName (OverlayPage.client p))); auto.
  - (* ToggleCaptions *)
    split; [apply overlay_shown_same; reflexivity|].
    intros (H1 & H2). unfold OverlayPage.reload_agrees, OverlayPage.toggle_captions.
    cbn [OverlayPage.client OverlayPage.with_client OverlayPage.player
         Overlay.localStorage OverlayPage.show_toggles Overlay.set_reader
         Overlay.applyPanelVisibility Overlay.set_localStorage
         OverlayPage.set_captionsVisible Overlay.captionsVisible].
    destruct (overlay_stored_visibility
                (negb (Overlay.captionsVisible (OverlayPage.client p)))
                (Overlay.localStorage (OverlayPage.client p))) as (E1 & E2).
    rewrite E1, E2. auto.
  - (* NightClick *)
    split; [apply overlay_shown_same; reflexivity|apply overlay_agrees_night_click].
  - (* SpeedClick *) overlay_inert.
  - (* KeyDown *)
    unfold OverlayPage.keydown. destruct typing; [auto|].
    destruct k;
      try (split; [apply overlay_shown_same; reflexivity|];
           apply overlay_agrees_same; try reflexivity; apply control_key_night).
    + apply overlay_seek_inert.
    + apply overlay_seek_inert.
    + split; [apply overlay_shown_same; reflexivity|apply overlay_agrees_night_click].
Qed.

Lemma overlay_run_keeps (pathname : jsstring -> jsstring)
    (numberToString : number -> jsstring) (events : list OverlayPage.Event)
    (p : OverlayPage.Page) :
  let p' := OverlayPage.run pathname numberToString events p in
  (OverlayPage.caption_matches (OverlayPage.client p)
   /\ OverlayPage.active_in_range (OverlayPage.client p) ->
   OverlayPage.caption_matches (OverlayPage.client p')
   /\ OverlayPage.active_in_range (OverlayPage.client p'))
  /\ (OverlayPage.reload_agrees p -> OverlayPage.reload_agrees p').
Proof.
  cbv zeta. revert p. induction events as [|e events IH]; intros p; [cbn; auto|].
  cbn [OverlayPage.run fold_left].
  fold (OverlayPage.run pathname numberToString events
          (OverlayPage.step pathname numberToString e p)).
  destruct (overlay_step_keeps pathname numberToString e p) as (S1 & S2).
  destruct (IH (OverlayPage.step pathname numberToString e p)) as (R1 & R2).
  auto.
Qed.

(** X10. Every state the panel page reaches from a fresh load, whatever
    the events and the answers of the server, is well formed: the caption
    elements are distinct and were created by the script, the class
    [active] sits on the line [activeLine] refers to and on no other, and
    so at most one line is highlighted. *)
Theorem panel_reachable_states_well_formed (pathname : jsstring -> jsstring)
    (numberToString : number -> jsstring) (storage : gmap jsstring jsstring)
    (ch : Chooser) (pl : Player) (events : list PanelPage.Event) :
  let c := PanelPage.client
    (PanelPage.run pathname numberToString events
       {| PanelPage.client := Panel.blank storage; PanelPage.chooser := ch;
          PanelPage.player := pl |}) in
  PanelRun.wf c
  /\ forall i j, PanelRun.actives (Panel.lines c) !! i = Some true ->
       PanelRun.actives (Panel.lines c) !! j = Some true -> i = j.
Proof.
  intros c.
  assert (Hwf : PanelRun.wf c).
  { apply (panel_run_keeps pathname numberToString events). apply panel_wf_blank. }
  split; [exact Hwf|]. intros i j. apply wf_unique_active, Hwf.
Qed.

(** X11. The two toggles never hide both panels: when at least one of
    the PDF panel and the captions panel is visible, at least one is
    visible after any run of events. *)
Theorem one_panel_stays_visible (pathname : jsstring -> jsstring)
    (numberToString : number -> jsstring) (events : list PanelPage.Event)
    (p : PanelPage.Page) :
  PanelPage.some_panel_visible (PanelPage.client p) ->
  PanelPage.some_panel_visible
    (PanelPage.client (PanelPage.run pathname numberToString events p)).
Proof. apply (panel_run_keeps pathname numberToString events p). Qed.

Lemma one_panel_stays_visible_witness :
  PanelPage.some_panel_visible
    (PanelPage.client
       (PanelPage.run (fun s => s) (fun _ => [])
          [PanelPage.TogglePdf; PanelPage.ToggleCaptions; PanelPage.TogglePdf]
          {| PanelPage.client := Panel.blank ∅;
             PanelPage.chooser :=
               {| pdfFile := None; audioFile := None; pdfLabel := [];
                  audioLabel := []; pdfChip_selected := false;
                  audioChip_selected := false |};
             PanelPage.player :=
               {| nightMode := false; speedIdx := 1; playbackRate := lit 1 0;
                  paused := true; volume := lit 1 0; muted := false;
                  duration := NaN |} |})).
Proof.
  apply one_panel_stays_visible. vm_compute. reflexivity.
Defined.

(** X12. Preferences survive a reload: if the visibility of the panels
    and the night mode in effect are the ones the script would read from
    the storage on load, as they are once the page has loaded, then this
    is still so after any run of events, in both revisions. *)
Theorem preferences_survive_reload (pathname : jsstring -> jsstring)
    (numberToString : number -> jsstring) (oevents : list OverlayPage.Event)
    (pevents : list PanelPage.Event) (op : OverlayPage.Page) (pp : PanelPage.Page) :
  (OverlayPage.reload_agrees op ->
   OverlayPage.reload_agrees (OverlayPage.run pathname numberToString oevents op))
  /\ (PanelPage.reload_agrees pp ->
      PanelPage.reload_agrees (PanelPage.run pathname numberToString pevents pp)).
Proof.
  split.
  - apply (overlay_run_keeps pathname numberToString oevents op).
  - apply (panel_run_keeps pathname numberToString pevents pp).
Qed.

Lemma preferences_survive_reload_witness :
  let ch := {| pdfFile := None; audioFile := None; pdfLabel := [];
               audioLabel := []; pdfChip_selected := false;
               audioChip_selected := false |} in
  let pl := {| nightMode := false; speedIdx := 1; playbackRate := lit 1 0;
               paused := true; volume := lit 1 0; muted := false;
               duration := NaN |} in
  PanelPage.reload_agrees
    (PanelPage.run (fun s => s) (fun _ => [])
       [PanelPage.TogglePdf; PanelPage.NightClick; PanelPage.KeyDown false KeyN;
        PanelPage.NightClick]
       {| PanelPage.client := Panel.blank ∅; PanelPage.chooser := ch;
          PanelPage.player := pl |}).
Proof.
  cbv zeta.
  refine (proj2 (preferences_survive_reload (fun s => s) (fun _ => []) []
    [PanelPage.TogglePdf; PanelPage.NightClick; PanelPage.KeyDown false KeyN;
     PanelPage.NightClick]
    {| OverlayPage.client := Overlay.blank ∅;
       OverlayPage.chooser :=
         {| pdfFile := None; audioFile := None; pdfLabel := [];
            audioLabel := []; pdfChip_selected := false;
            audioChip_selected := false |};
       OverlayPage.player :=
         {| nightMode := false; speedIdx := 1; playbackRate := lit 1 0;
            paused := true; volume := lit 1 0; muted := false;
            duration := NaN |};
       OverlayPage.saveThrottle := 0 |} _) _).
  vm_compute. repeat split; reflexivity.
Defined.

(** X13. In every state the overlay page reaches from a fresh load, the
    active index is [-1] or the index of a segment, and the caption the
    overlay holds is the text of the active segment, empty when none is
    active. *)
Theorem overlay_caption_is_active_segment (pathname : jsstring -> jsstring)
    (numberToString : number -> jsstring) (storage : gmap jsstring jsstring)
    (ch : Chooser) (pl : Player) (throttle : Z) (events : list OverlayPage.Event) :
  let c := OverlayPage.client
    (OverlayPage.run pathname numberToString events
       {| OverlayPage.client := Overlay.blank storage; OverlayPage.chooser := ch;
          OverlayPage.player := pl; OverlayPage.saveThrottle := throttle |}) in
  OverlayPage.caption_matches c /\ OverlayPage.active_in_range c.
Proof.
  intros c. apply (overlay_run_keeps pathname numberToString events).
  split; [reflexivity|left; reflexivity].
Qed.

(** ** The speed button *)

Lemma speed_click_index (pl : Player) :
  speedIdx (speed_click pl) = ((speedIdx pl + 1) mod 6)%nat
  /\ playbackRate (speed_click pl)
     = default NaN (speeds !! ((speedIdx pl + 1) mod 6)%nat).
Proof. split; reflexivity. Qed.

Lemma speed_clicks_index (k : nat) (pl : Player) :
  speedIdx (Nat.iter k speed_click pl) = ((speedIdx pl + k) mod 6)%nat
  \/ (k = 0%nat /\ speedIdx (Nat.iter k speed_click pl) = speedIdx pl).
Proof.
  induction k as [|k IH]; [right; auto|]. left.
  change (Nat.iter (S k) speed_click pl)
    with (speed_click (Nat.iter k speed_click pl)).
  rewrite (proj1 (speed_click_index _)).
  destruct IH as [->|[-> ->]].
  - rewrite Nat.Div0.add_mod_idemp_l. f_equal. lia.
  - reflexivity.
Qed.

(** X14. The speed button steps through the six speeds in a cycle: after
    a click the playback rate is the entry of [speeds] at the new index,
    six clicks bring back the index and its rate, and fewer clicks give
    another index. *)
Theorem speed_button_cycles (pl : Player) (k : nat) :
  (speedIdx pl < 6)%nat -> (0 < k < 6)%nat ->
  speeds !! speedIdx (speed_click pl) = Some (playbackRate (speed_click pl))
  /\ speedIdx (Nat.iter 6 speed_click pl) = speedIdx pl
  /\ speeds !! speedIdx pl = Some (playbackRate (Nat.iter 6 speed_click pl))
  /\ speedIdx (Nat.iter k speed_click pl) <> speedIdx pl.
Proof.
  intros Hs Hk.
  assert (Hlook : forall i, (i < 6)%nat -> speeds !! i = Some (default NaN (speeds !! i))).
  { intros i Hi. do 6 (destruct i as [|i]; [reflexivity|]). lia. }
  assert (H6 : speedIdx (Nat.iter 6 speed_click pl) = speedIdx pl).
  { destruct (speed_clicks_index 6 pl) as [->|[E _]]; [|discriminate E].
    rewrite Nat.Div0.add_mod, Nat.Div0.mod_same, Nat.add_0_r, Nat.Div0.mod_mod.
    apply Nat.mod_small, Hs. }
  split; [|split; [exact H6|split]].
  - destruct (speed_click_index pl) as [-> ->].
    apply Hlook, Nat.mod_upper_bound. discriminate.
  - change (Nat.iter 6 speed_click pl) with (speed_click (Nat.iter 5 speed_click pl)).
    change (Nat.iter 6 speed_click pl) with (speed_click (Nat.iter 5 speed_click pl))
      in H6.
    destruct (speed_click_index (Nat.iter 5 speed_click pl)) as [Ei ->].
    rewrite Ei in H6. rewrite H6. apply Hlook, Hs.
  - destruct (speed_clicks_index k pl) as [->|[E _]]; [|lia].
    intros E.
    assert (Hm : ((speedIdx pl + k) mod 6 < 6)%nat)
      by (apply Nat.mod_upper_bound; discriminate).
    pose proof (Nat.div_mod_eq (speedIdx pl + k) 6) as Hd.
    rewrite E in Hd.
    assert (Hq : ((speedIdx pl + k) / 6 = 0 \/ (speedIdx pl + k) / 6 = 1
                  \/ 2 <= (speedIdx pl + k) / 6)%nat) by lia.
    destruct Hq as [Hq|[Hq|Hq]]; [rewrite Hq in Hd; lia|rewrite Hq in Hd; lia|].
    assert (Hlt : (speedIdx pl + k < 12)%nat) by lia.
    pose proof (Nat.Div0.div_lt_upper_bound (speedIdx pl + k) 6 2) as Hu.
    lia.
Qed.

Lemma speed_button_cycles_witness :
  let pl := {| nightMode := false; speedIdx := 1; playbackRate := lit 1 0;
               paused := true; volume := lit 1 0; muted := false;
               duration := NaN |} in
  playbackRate (speed_click pl) = lit 125 (-2)
  /\ speedIdx (Nat.iter 3 speed_click pl) <> speedIdx pl.
Proof.
  cbv zeta. split; [vm_compute; reflexivity|].
  refine (proj2 (proj2 (proj2 (speed_button_cycles _ 3 _ _)))); cbn; lia.
Defined.

(** ** Seeking with the keyboard *)

Lemma shr_1_nonneg (mrs : shr_record) : 0 <= shr_m mrs -> 0 <= shr_m (shr_1 mrs).
Proof.
  destruct mrs as [m r s]. cbn [shr_m shr_1].
  destruct m as [|[p|p|]|p]; cbn [shr_m]; lia.
Qed.

Lemma iter_shr_1_nonneg (p : positive) (mrs : shr_record) :
  0 <= shr_m mrs -> 0 <= shr_m (SpecFloat.iter_pos shr_1 p mrs).
Proof.
  revert mrs. induction p as [p IH|p IH|]; intros mrs H; cbn [SpecFloat.iter_pos].
  - apply IH, IH, shr_1_nonneg, H.
  - apply IH, IH, H.
  - apply shr_1_nonneg, H.
Qed.

Lemma shr_fexp_nonneg (m e : Z) (l : location) :
  0 <= m -> 0 <= shr_m (fst (shr_fexp prec emax m e l)).
Proof.
  intros H. unfold shr_fexp, shr.
  assert (H0 : 0 <= shr_m (shr_record_of_loc m l))
    by (destruct l as [|[| |]]; exact H).
  destruct (fexp prec emax (Zdigits2 m + e) - e) as [|p|p]; cbn [fst]; try exact H0.
  apply iter_shr_1_nonneg, H0.
Qed.

Lemma round_nearest_even_nonneg (m : Z) (l : location) :
  0 <= m -> 0 <= round_nearest_even m l.
Proof.
  intros H. destruct l as [|[| |]]; cbn [round_nearest_even]; try lia.
  destruct (Z.even m); lia.
Qed.

Lemma binary_round_aux_plus (m e : Z) (l : location) :
  0 <= m -> plus_signed (binary_round_aux prec emax false m e l) = true.
Proof.
  intros H. unfold binary_round_aux.
  pose proof (shr_fexp_nonneg m e l H) as H1.
  destruct (shr_fexp prec emax m e l) as [mrs' e']. cbn [fst] in H1.
  pose proof (shr_fexp_nonneg _ e' loc_Exact
                (round_nearest_even_nonneg _ (loc_of_shr_record mrs') H1)) as H2.
  destruct (shr_fexp prec emax _ e' loc_Exact) as [mrs'' e'']. cbn [fst] in H2.
  destruct (shr_m mrs'') as [|p|p]; [reflexivity| |lia].
  destruct (e'' <=? emax - prec); reflexivity.
Qed.

(** The sum of a number that is not negative and a positive finite one
    carries the sign [+]. *)
Lemma add_plus_signed (x : number) (my : positive) (ey : Z) :
  le (lit 0 0) x = true ->
  plus_signed (add x (S754_finite false my ey)) = true.
Proof.
  intros Hx. destruct x as [s|[|]| |[|] mx ex]; try discriminate Hx; try reflexivity.
  unfold add, SFadd, binary_normalize. cbn [cond_Zopp].
  match goal with
  | |- context [Z.pos ?a + Z.pos ?b] => change (Z.pos a + Z.pos b) with (Z.pos (a + b))
  end.
  cbn iota. unfold binary_round.
  destruct (shl_align _ _ _) as [mz ez].
  apply binary_round_aux_plus. lia.
Qed.

Lemma ten_is_positive : exists my ey, lit 10 0 = S754_finite false my ey.
Proof. vm_compute. eauto. Qed.

Lemma finite_below_infinity (x : number) :
  is_finite x = true -> is_nan x = false /\ lt x (S754_infinity false) = true.
Proof. destruct x as [s|s| |s m e]; try discriminate; intros _; split; reflexivity. Qed.

(** X15. ArrowRight while the duration is still unknown ([NaN], as before
    the metadata has loaded): the overlay revision, which takes the
    duration for [Infinity], moves ten seconds forward; the panel
    revision, which takes it for [0], jumps back to the start. *)
Theorem arrow_right_with_unknown_duration (op : OverlayPage.Page)
    (pp : PanelPage.Page) :
  is_nan (duration (OverlayPage.player op)) = true ->
  is_finite (add (Overlay.currentTime (OverlayPage.client op)) (lit 10 0)) = true ->
  is_nan (duration (PanelPage.player pp)) = true ->
  le (lit 0 0) (Panel.currentTime (PanelPage.client pp)) = true ->
  Overlay.currentTime (OverlayPage.client (OverlayPage.keydown false ArrowRight op))
  = add (Overlay.currentTime (OverlayPage.client op)) (lit 10 0)
  /\ Panel.currentTime (PanelPage.client (PanelPage.keydown false ArrowRight pp))
     = lit 0 0.
Proof.
  intros Hod Hof Hpd Hpc. split.
  - cbn [OverlayPage.keydown OverlayPage.client OverlayPage.with_client].
    unfold OverlayPage.seek_forward.
    destruct (duration (OverlayPage.player op)); try discriminate Hod.
    cbn [is_finite]. destruct (finite_below_infinity _ Hof) as [Hn Hlt].
    unfold math_min. rewrite Hn, Hlt. cbn [is_nan orb].
    unfold Overlay.seek. rewrite Hof. reflexivity.
  - cbn [PanelPage.keydown PanelPage.client PanelPage.with_client].
    unfold PanelPage.seek_forward. rewrite Hpd. cbn [orb].
    destruct ten_is_positive as (my & ey & E10). rewrite E10.
    pose proof (add_plus_signed _ my ey Hpc) as Hs.
    set (x := add _ (S754_finite false my ey)) in *.
    destruct x as [[|]|[|]| |[|] m e]; try discriminate Hs; reflexivity.
Qed.

Lemma arrow_right_with_unknown_duration_witness :
  let pl := {| nightMode := false; speedIdx := 1; playbackRate := lit 1 0;
               paused := false; volume := lit 1 0; muted := false;
               duration := NaN |} in
  let ch := {| pdfFile := None; audioFile := None; pdfLabel := [];
               audioLabel := []; pdfChip_selected := false;
               audioChip_selected := false |} in
  Overlay.currentTime
    (OverlayPage.client
       (OverlayPage.keydown false ArrowRight
          {| OverlayPage.client := Overlay.set_currentTime (lit 35 (-1)) (Overlay.blank ∅);
             OverlayPage.chooser := ch; OverlayPage.player := pl;
             OverlayPage.saveThrottle := 0 |}))
  = lit 135 (-1)
  /\ Panel.currentTime
       (PanelPage.client
          (PanelPage.keydown false ArrowRight
             {| PanelPage.client := Panel.set_currentTime (lit 35 (-1)) (Panel.blank ∅);
                PanelPage.chooser := ch; PanelPage.player := pl |}))
     = lit 0 0.
Proof.
  cbv zeta.
  refine (arrow_right_with_unknown_duration
    {| OverlayPage.client := Overlay.set_currentTime (lit 35 (-1)) (Overlay.blank ∅);
       OverlayPage.chooser := _; OverlayPage.player := _;
       OverlayPage.saveThrottle := 0 |}
    {| PanelPage.client := Panel.set_currentTime (lit 35 (-1)) (Panel.blank ∅);
       PanelPage.chooser := _; PanelPage.player := _ |} _ _ _ _);
    vm_compute; reflexivity.
Defined.

Lemma le_refl (x : number) : is_nan x = false -> le x x = true.
Proof.
  intros H. apply le_spec. split; [exact H|]. split; [exact H|]. right. reflexivity.
Qed.

Lemma math_min_le (a b : number) :
  is_nan (math_min a b) = false -> le (math_min a b) a = true.
Proof.
  unfold math_min. destruct (is_nan a) eqn:Ha; [discriminate|].
  destruct (is_nan b) eqn:Hb; [discriminate|]. cbn [orb]. intros _.
  assert (H : le (if lt b a then b else a) a = true).
  { destruct (lt b a) eqn:E; [apply lt_le, E|apply le_refl, Ha]. }
  destruct a as [[|]|[|]| |[|] ma ea]; try exact H;
    destruct b as [[|]|[|]| |[|] mb eb]; try exact H; reflexivity.
Qed.

Lemma math_max_ge (a b : number) :
  is_nan (math_max a b) = false -> le a (math_max a b) = true.
Proof.
  unfold math_max. destruct (is_nan a) eqn:Ha; [discriminate|].
  destruct (is_nan b) eqn:Hb; [discriminate|]. cbn [orb]. intros _.
  assert (H : le a (if lt a b then b else a) = true).
  { destruct (lt a b) eqn:E; [apply lt_le, E|apply le_refl, Ha]. }
  destruct a as [[|]|[|]| |[|] ma ea]; try exact H;
    destruct b as [[|]|[|]| |[|] mb eb]; try exact H; reflexivity.
Qed.

Lemma finite_not_nan (x : number) : is_finite x = true -> is_nan x = false.
Proof. destruct x; try discriminate; reflexivity. Qed.

(** X16. The seeking shortcuts stay on the track: after ArrowLeft the
    position is not below [0], and after ArrowRight with a known duration
    it is not beyond the duration, in both revisions. *)
Theorem seeking_stays_on_track (op : OverlayPage.Page) (pp : PanelPage.Page) :
  le (lit 0 0) (Overlay.currentTime (OverlayPage.client op)) = true ->
  le (Overlay.currentTime (OverlayPage.client op)) (duration (OverlayPage.player op))
  = true ->
  is_finite (duration (OverlayPage.player op)) = true ->
  le (lit 0 0) (Panel.currentTime (PanelPage.client pp)) = true ->
  le (Panel.currentTime (PanelPage.client pp)) (duration (PanelPage.player pp)) = true ->
  is_finite (duration (PanelPage.player pp)) = true ->
  (le (lit 0 0)
      (Overlay.currentTime (OverlayPage.client (OverlayPage.keydown false ArrowLeft op)))
   = true
   /\ le (Overlay.currentTime
            (OverlayPage.client (OverlayPage.keydown false ArrowRight op)))
         (duration (OverlayPage.player op)) = true)
  /\ (le (lit 0 0)
         (Panel.currentTime (PanelPage.client (PanelPage.keydown false ArrowLeft pp)))
      = true
      /\ le (Panel.currentTime
               (PanelPage.client (PanelPage.keydown false ArrowRight pp)))
            (duration (PanelPage.player pp)) = true).
Proof.
  intros Ho0 Hod Hof Hp0 Hpd Hpf. split; split.
  - cbn [OverlayPage.keydown OverlayPage.client OverlayPage.with_client].
    unfold OverlayPage.seek_back, Overlay.seek.
    destruct (is_finite (math_max _ _)) eqn:Hf; [|exact Ho0].
    apply math_max_ge, finite_not_nan, Hf.
  - cbn [OverlayPage.keydown OverlayPage.client OverlayPage.with_client].
    unfold OverlayPage.seek_forward, Overlay.seek. rewrite Hof.
    destruct (is_finite (math_min _ _)) eqn:Hf; [|exact Hod].
    apply math_min_le, finite_not_nan, Hf.
  - cbn [PanelPage.keydown PanelPage.client PanelPage.with_client].
    unfold PanelPage.seek_back, Panel.seek.
    destruct (is_finite (math_max _ _)) eqn:Hf; [|exact Hp0].
    apply math_max_ge, finite_not_nan, Hf.
  - cbn [PanelPage.keydown PanelPage.client PanelPage.with_client].
    unfold PanelPage.seek_forward, Panel.seek.
    rewrite (finite_not_nan _ Hpf). cbn [orb].
    destruct (SFeqb (duration (PanelPage.player pp)) (lit 0 0)) eqn:Hz.
    + destruct (is_finite (math_min _ _)) eqn:Hf; [|exact Hpd].
      cbn [default Panel.currentTime Panel.set_currentTime].
      apply (le_trans _ (lit 0 0)); [apply math_min_le, finite_not_nan, Hf|].
      destruct (duration (PanelPage.player pp)) as [[|]|[|]| |[|] m e];
        try discriminate Hz; reflexivity.
    + destruct (is_finite (math_min _ _)) eqn:Hf; [|exact Hpd].
      apply math_min_le, finite_not_nan, Hf.
Qed.

Lemma seeking_stays_on_track_witness :
  let pl := {| nightMode := false; speedIdx := 1; playbackRate := lit 1 0;
               paused := false; volume := lit 1 0; muted := false;
               duration := lit 40 0 |} in
  let ch := {| pdfFile := None; audioFile := None; pdfLabel := [];
               audioLabel := []; pdfChip_selected := false;
               audioChip_selected := false |} in
  le (Panel.currentTime
        (PanelPage.client
           (PanelPage.keydown false ArrowRight
              {| PanelPage.client := Panel.set_currentTime (lit 35 0) (Panel.blank ∅);
                 PanelPage.chooser := ch; PanelPage.player := pl |})))
     (lit 40 0) = true.
Proof.
  cbv zeta.
  refine (proj2 (proj2 (seeking_stays_on_track
    {| OverlayPage.client := Overlay.set_currentTime (lit 35 0) (Overlay.blank ∅);
       OverlayPage.chooser := _;
       OverlayPage.player :=
         {| nightMode := false; speedIdx := 1; playbackRate := lit 1 0;
            paused := false; volume := lit 1 0; muted := false;
            duration := lit 40 0 |};
       OverlayPage.saveThrottle := 0 |}
    {| PanelPage.client := Panel.set_currentTime (lit 35 0) (Panel.blank ∅);
       PanelPage.chooser := _; PanelPage.player := _ |} _ _ _ _ _ _)));
    vm_compute; reflexivity.
  Unshelve.
  exact {| pdfFile := None; audioFile := None; pdfLabel := [];
           audioLabel := []; pdfChip_selected := false;
           audioChip_selected := false |}.
Defined.

(** ** Saving and restoring the position *)

Lemma gt_two_gt_zero (x : number) : gt x (lit 2 0) = true -> gt x (lit 0 0) = true.
Proof.
  rewrite !gt_lt. intros H. apply lt_spec in H as (H2 & Hx & Hlt).
  apply lt_spec. split; [reflexivity|]. split; [exact Hx|].
  apply (lex_lt_trans _ (rank (lit 2 0))); [|exact Hlt].
  vm_compute. left. reflexivity.
Qed.

(** X17. A position saved by [timeupdate] is the one [loadedmetadata]
    restores, in the panel revision: when a source is set, the position
    is finite and past two seconds, its text reads back as the same
    number, and the cached path, if any, is the path of the source, then
    a page that loads the same source over the storage left by the save
    resumes at that position. *)
Theorem saved_position_is_restored (pathname : jsstring -> jsstring)
    (numberToString : number -> jsstring) (c c2 : Panel.Client) :
  truthy (Panel.audio_src (Panel.reader c)) = true ->
  gt (Panel.currentTime c) (lit 2 0) = true ->
  is_finite (Panel.currentTime c) = true ->
  parseFloat (numberToString (Panel.currentTime c)) = Panel.currentTime c ->
  (Panel.audioPathName c = []
   \/ Panel.audioPathName c = pathname (Panel.audio_src (Panel.reader c))) ->
  Panel.localStorage c2
  = Panel.localStorage (PanelPage.timeupdate pathname numberToString c) ->
  Panel.audio_src (Panel.reader c2) = Panel.audio_src (Panel.reader c) ->
  Panel.currentTime (Panel.loadedmetadata pathname c2) = Panel.currentTime c.
Proof.
  intros Hsrc Hgt Hfin Hrt Hpath Hst Hsame.
  rewrite panel_loadedmetadata_position, Hst, Hsame.
  unfold PanelPage.timeupdate. rewrite Hsrc, (gt_two_gt_zero _ Hgt). cbn [andb].
  assert (Hkey : Panel.audioPathName
                   (if truthy (Panel.audioPathName c) then c
                    else Panel.set_audioPathName
                           (pathname (Panel.audio_src (Panel.reader c))) c)
                 = pathname (Panel.audio_src (Panel.reader c))).
  { destruct Hpath as [E|E].
    - rewrite E. reflexivity.
    - destruct (truthy (Panel.audioPathName c)); [exact E|reflexivity]. }
  cbn [Panel.localStorage Panel.set_localStorage]. rewrite Hkey.
  rewrite lookup_insert_eq.
  assert (Hct : Panel.currentTime
                  (if truthy (Panel.audioPathName c) then c
                   else Panel.set_audioPathName
                          (pathname (Panel.audio_src (Panel.reader c))) c)
                = Panel.currentTime c)
    by (destruct (truthy (Panel.audioPathName c)); reflexivity).
  rewrite Hct, Hrt, Hgt, Hfin. reflexivity.
Qed.

Lemma saved_position_is_restored_witness :
  let shown := Panel.set_currentTime (lit 125 (-1))
    (Panel.show (str "/files/a.pdf") (str "/files/a.mp3") None None (Panel.blank ∅)) in
  let text := fun x : number =>
    if SFeqb x (lit 125 (-1)) then str "12.5" else str "0" in
  let later := Panel.show (str "/files/a.pdf") (str "/files/a.mp3") None None
    (Panel.blank (Panel.localStorage (PanelPage.timeupdate (fun s => s) text shown))) in
  Panel.currentTime (Panel.loadedmetadata (fun s => s) later) = lit 125 (-1).
Proof.
  cbv zeta.
  refine (saved_position_is_restored (fun s => s)
    (fun x : number => if SFeqb x (lit 125 (-1)) then str "12.5" else str "0")
    (Panel.set_currentTime (lit 125 (-1))
       (Panel.show (str "/files/a.pdf") (str "/files/a.mp3") None None (Panel.blank ∅)))
    _ _ _ _ _ _ _ _).
  - vm_compute; reflexivity.
  - vm_compute; reflexivity.
  - vm_compute; reflexivity.
  - vm_compute; reflexivity.
  - left. vm_compute; reflexivity.
  - vm_compute; reflexivity.
  - vm_compute; reflexivity.
Defined.



(** ** The last session and the history *)

(** X19. The panel revision reopens the last job on the next load: once
    a job with a non-empty id has completed, a page loaded over the
    storage it left starts on the landing view with the status
    [Restoring last session], polls that job, and opens the reader again
    when an answer reports completion. *)
Theorem last_session_is_restored (id : jsstring) (d d2 : StatusDoc)
    (before : list FetchResult) (c : Panel.Client) :
  d_status d = str "completed" ->
  id <> [] ->
  Forall (fun r => reports (str "completed") r = false
                   /\ reports (str "error") r = false) before ->
  d_status d2 = str "completed" ->
  let stored := Panel.localStorage (Panel.poll_callback id (HttpResponse true (Some d)) c) in
  let fresh := PanelPage.restore_session (Panel.blank stored) in
  Panel.poll fresh = Some id
  /\ Panel.reader fresh = Panel.landing
  /\ Panel.statusMsg fresh
     = (str "Restoring last session" ++ [8230%N], str "status-msg working")
  /\ Panel.audio_src
       (Panel.reader (Panel.polling (before ++ [HttpResponse true (Some d2)]) fresh))
     = audio_url d2
  /\ Panel.currentJobId (Panel.polling (before ++ [HttpResponse true (Some d2)]) fresh)
     = Some id.
Proof.
  intros Hd Hid Hb Hd2 stored fresh.
  destruct (panel_completed_fields id d c Hd) as (_ & _ & _ & _ & _ & _ & _ & Hk & _).
  fold stored in Hk.
  assert (Hfresh : fresh
    = Panel.startPoll id
        (Panel.set_statusMsg
           (status_line (str "Restoring last session" ++ [8230%N]) (str "working"))
           (Panel.blank stored))).
  { subst fresh. unfold PanelPage.restore_session.
    cbn [Panel.localStorage Panel.blank]. rewrite Hk.
    destruct id as [|u id]; [congruence|reflexivity]. }
  split; [rewrite Hfresh; reflexivity|].
  split; [rewrite Hfresh; reflexivity|].
  split; [rewrite Hfresh; reflexivity|].
  assert (Hrun : Panel.polling (before ++ [HttpResponse true (Some d2)]) fresh
                 = Panel.poll_callback id (HttpResponse true (Some d2)) fresh).
  { rewrite panel_polling_app.
    rewrite (panel_polling_undecided id before)
      by (exact Hb || (rewrite Hfresh; reflexivity)).
    cbn [Panel.polling fold_left]. unfold Panel.tick. rewrite Hfresh. reflexivity. }
  rewrite Hrun.
  destruct (panel_completed_fields id d2 fresh Hd2) as (H1 & _ & H3 & _).
  auto.
Qed.

Lemma last_session_is_restored_witness :
  let d := {| d_status := str "completed"; pdf_url := str "/files/a.pdf";
              audio_url := str "/files/a.mp3"; transcript := None;
              title := None |} in
  Panel.poll
    (PanelPage.restore_session
       (Panel.blank
          (Panel.localStorage
             (Panel.poll_callback (str "j1") (HttpResponse true (Some d))
                (Panel.blank ∅)))))
  = Some (str "j1").
Proof.
  cbv zeta.
  refine (proj1 (last_session_is_restored (str "j1")
    {| d_status := str "completed"; pdf_url := str "/files/a.pdf";
       audio_url := str "/files/a.mp3"; transcript := None; title := None |}
    {| d_status := str "completed"; pdf_url := str "/files/a.pdf";
       audio_url := str "/files/a.mp3"; transcript := None; title := None |}
    [NetworkError] (Panel.blank ∅) _ _ _ _)).
  - reflexivity.
  - discriminate.
  - repeat (constructor; [split; reflexivity|]). constructor.
  - reflexivity.
Defined.

(** X20. Opening a job from the history: a click on a history item puts
    the button in its loading state and polls the job, and once an answer
    reports completion the reader is open on it and the button is enabled
    again, whether or not files are chosen; with no two files chosen a
    click on the enabled button still uploads nothing. *)
Theorem history_item_opens_reader (pathname : jsstring -> jsstring)
    (numberToString : number -> jsstring) (id : jsstring) (d : StatusDoc)
    (before : list FetchResult) (o : UploadOutcome)
    (op : OverlayPage.Page) (pp : PanelPage.Page) :
  Forall (fun r => reports (str "completed") r = false
                   /\ reports (str "error") r = false) before ->
  d_status d = str "completed" ->
  both_chosen (OverlayPage.chooser op) = false ->
  both_chosen (PanelPage.chooser pp) = false ->
  let oclick := OverlayPage.run pathname numberToString [OverlayPage.HistoryClick id] op in
  let pclick := PanelPage.run pathname numberToString [PanelPage.HistoryClick id] pp in
  let oend := OverlayPage.run pathname numberToString
                ((OverlayPage.Tick <$> before)
                 ++ [OverlayPage.Tick (HttpResponse true (Some d))]) oclick in
  let pend := PanelPage.run pathname numberToString
                ((PanelPage.Tick <$> before)
                 ++ [PanelPage.Tick (HttpResponse true (Some d))]) pclick in
  (Overlay.uploadBtn_disabled (OverlayPage.client oclick) = true
   /\ Overlay.poll (OverlayPage.client oclick) = Some id
   /\ Overlay.audio_src (Overlay.reader (OverlayPage.client oend)) = audio_url d
   /\ Overlay.currentJobId (OverlayPage.client oend) = Some id
   /\ Overlay.uploadBtn_disabled (OverlayPage.client oend) = false
   /\ OverlayPage.upload o oend = oend)
  /\ (Panel.uploadBtn_disabled (PanelPage.client pclick) = true
      /\ Panel.poll (PanelPage.client pclick) = Some id
      /\ Panel.audio_src (Panel.reader (PanelPage.client pend)) = audio_url d
      /\ Panel.currentJobId (PanelPage.client pend) = Some id
      /\ Panel.uploadBtn_disabled (PanelPage.client pend) = false
      /\ PanelPage.upload o pend = pend).
Proof.
  intros Hb Hd Hoc Hpc oclick pclick oend pend. split.
  - split; [reflexivity|]. split; [reflexivity|].
    assert (Hch : OverlayPage.chooser oend = OverlayPage.chooser op).
    { subst oend. rewrite overlay_run_app.
      assert (Hgen : forall rs q,
        OverlayPage.chooser
          (OverlayPage.run pathname numberToString (OverlayPage.Tick <$> rs) q)
        = OverlayPage.chooser q).
      { induction rs as [|r rs IH]; intros q; [reflexivity|].
        cbn [fmap list_fmap OverlayPage.run fold_left].
        fold (OverlayPage.run pathname numberToString (OverlayPage.Tick <$> rs)
                (OverlayPage.step pathname numberToString (OverlayPage.Tick r) q)).
        rewrite IH. reflexivity. }
      change [OverlayPage.Tick (HttpResponse true (Some d))]
        with (OverlayPage.Tick <$> [HttpResponse true (Some d)]).
      rewrite !Hgen. reflexivity. }
    assert (Hend : OverlayPage.client oend
                   = Overlay.poll_callback id (HttpResponse true (Some d))
                       (OverlayPage.client oclick)).
    { subst oend. rewrite overlay_run_app.
      change [OverlayPage.Tick (HttpResponse true (Some d))]
        with (OverlayPage.Tick <$> [HttpResponse true (Some d)]).
      rewrite !overlay_run_ticks.
      rewrite (overlay_polling_undecided id before) by (exact Hb || reflexivity).
      reflexivity. }
    rewrite Hend.
    destruct (overlay_completed_fields id d (OverlayPage.client oclick) Hd)
      as (H1 & _ & _ & H4 & _ & H6 & _).
    repeat (split; [assumption|]).
    unfold OverlayPage.upload. rewrite Hch, Hoc. reflexivity.
  - split; [reflexivity|]. split; [reflexivity|].
    assert (Hch : PanelPage.chooser pend = PanelPage.chooser pp).
    { subst pend. rewrite panel_run_app.
      assert (Hgen : forall rs q,
        PanelPage.chooser
          (PanelPage.run pathname numberToString (PanelPage.Tick <$> rs) q)
        = PanelPage.chooser q).
      { induction rs as [|r rs IH]; intros q; [reflexivity|].
        cbn [fmap list_fmap PanelPage.run fold_left].
        fold (PanelPage.run pathname numberToString (PanelPage.Tick <$> rs)
                (PanelPage.step pathname numberToString (PanelPage.Tick r) q)).
        rewrite IH. reflexivity. }
      change [PanelPage.Tick (HttpResponse true (Some d))]
        with (PanelPage.Tick <$> [HttpResponse true (Some d)]).
      rewrite !Hgen. reflexivity. }
    assert (Hend : PanelPage.client pend
                   = Panel.poll_callback id (HttpResponse true (Some d))
                       (PanelPage.client pclick)).
    { subst pend. rewrite panel_run_app.
      change [PanelPage.Tick (HttpResponse true (Some d))]
        with (PanelPage.Tick <$> [HttpResponse true (Some d)]).
      rewrite !panel_run_ticks.
      rewrite (panel_polling_undecided id before) by (exact Hb || reflexivity).
      reflexivity. }
    rewrite Hend.
    destruct (panel_completed_fields id d (PanelPage.client pclick) Hd)
      as (H1 & _ & H3 & _ & H5 & _).
    repeat (split; [assumption|]).
    unfold PanelPage.upload. rewrite Hch, Hpc. reflexivity.
Qed.

Lemma history_item_opens_reader_witness :
  let d := {| d_status := str "completed"; pdf_url := str "/files/a.pdf";
              audio_url := str "/files/a.mp3"; transcript := None;
              title := None |} in
  let ch := {| pdfFile := None; audioFile := None; pdfLabel := [];
               audioLabel := []; pdfChip_selected := false;
               audioChip_selected := false |} in
  let pl := {| nightMode := false; speedIdx := 1; playbackRate := lit 1 0;
               paused := true; volume := lit 1 0; muted := false;
               duration := NaN |} in
  Overlay.uploadBtn_disabled
    (OverlayPage.client
       (OverlayPage.run (fun s => s) (fun _ => [])
          ((OverlayPage.Tick <$> [NetworkError])
           ++ [OverlayPage.Tick (HttpResponse true (Some d))])
          (OverlayPage.run (fun s => s) (fun _ => [])
             [OverlayPage.HistoryClick (str "j1")]
             {| OverlayPage.client := Overlay.blank ∅; OverlayPage.chooser := ch;
                OverlayPage.player := pl; OverlayPage.saveThrottle := 0 |})))
  = false.
Proof.
  cbv zeta.
  refine (proj1 (proj2 (proj2 (proj2 (proj2 (proj1
    (history_item_opens_reader (fun s => s) (fun _ => []) (str "j1")
       {| d_status := str "completed"; pdf_url := str "/files/a.pdf";
          audio_url := str "/files/a.mp3"; transcript := None; title := None |}
       [NetworkError] (UploadRejected [])
       {| OverlayPage.client := Overlay.blank ∅;
          OverlayPage.chooser :=
            {| pdfFile := None; audioFile := None; pdfLabel := [];
               audioLabel := []; pdfChip_selected := false;
               audioChip_selected := false |};
          OverlayPage.player :=
            {| nightMode := false; speedIdx := 1; playbackRate := lit 1 0;
               paused := true; volume := lit 1 0; muted := false;
               duration := NaN |};
          OverlayPage.saveThrottle := 0 |}
       {| PanelPage.client := Panel.blank ∅;
          PanelPage.chooser :=
            {| pdfFile := None; audioFile := None; pdfLabel := [];
               audioLabel := []; pdfChip_selected := false;
               audioChip_selected := false |};
          PanelPage.player :=
            {| nightMode := false; speedIdx := 1; playbackRate := lit 1 0;
               paused := true; volume := lit 1 0; muted := false;
               duration := NaN |} |} _ _ _ _))))))).
  - repeat (constructor; [split; reflexivity|]). constructor.
  - reflexivity.
  - reflexivity.
  - reflexivity.
Defined.

(** ** Choosing the files *)

Lemma chooser_change_ready (pathname : jsstring -> jsstring)
    (numberToString : number -> jsstring) (e : PanelPage.Event) (p : PanelPage.Page) :
  match e with PanelPage.PdfChange _ | PanelPage.AudioChange _ => True | _ => False end ->
  Panel.uploadBtn_disabled
    (PanelPage.client (PanelPage.step pathname numberToString e p))
  = negb (both_chosen (PanelPage.chooser (PanelPage.step pathname numberToString e p))).
Proof. destruct e; try contradiction; intros _; reflexivity. Qed.

Lemma chooser_change_ready_overlay (pathname : jsstring -> jsstring)
    (numberToString : number -> jsstring) (e : OverlayPage.Event)
    (p : OverlayPage.Page) :
  match e with OverlayPage.PdfChange _ | OverlayPage.AudioChange _ => True | _ => False end ->
  Overlay.uploadBtn_disabled
    (OverlayPage.client (OverlayPage.step pathname numberToString e p))
  = negb (both_chosen (OverlayPage.chooser (OverlayPage.step pathname numberToString e p))).
Proof. destruct e; try contradiction; intros _; reflexivity. Qed.

(** X21. After the file inputs have changed, whatever was chosen or
    cleared and in whatever order, the upload button is enabled exactly
    when both inputs hold a file; an input that is cleared keeps showing
    the name of the file chosen before. *)
Theorem upload_enabled_with_both_files (pathname : jsstring -> jsstring)
    (numberToString : number -> jsstring)
    (oevents : list OverlayPage.Event) (pevents : list PanelPage.Event)
    (name : jsstring) (op : OverlayPage.Page) (pp : PanelPage.Page) :
  oevents <> [] -> pevents <> [] ->
  Forall (fun e => match e with
                   | OverlayPage.PdfChange _ | OverlayPage.AudioChange _ => True
                   | _ => False
                   end) oevents ->
  Forall (fun e => match e with
                   | PanelPage.PdfChange _ | PanelPage.AudioChange _ => True
                   | _ => False
                   end) pevents ->
  let op' := OverlayPage.run pathname numberToString oevents op in
  let pp' := PanelPage.run pathname numberToString pevents pp in
  (Overlay.uploadBtn_disabled (OverlayPage.client op')
   = negb (both_chosen (OverlayPage.chooser op'))
   /\ Panel.uploadBtn_disabled (PanelPage.client pp')
      = negb (both_chosen (PanelPage.chooser pp')))
  /\ (let cleared := PanelPage.run pathname numberToString
                       [PanelPage.PdfChange (Some name); PanelPage.PdfChange None] pp in
      pdfLabel (PanelPage.chooser cleared) = name
      /\ pdfChip_selected (PanelPage.chooser cleared) = true
      /\ pdfFile (PanelPage.chooser cleared) = None
      /\ Panel.uploadBtn_disabled (PanelPage.client cleared) = true).
Proof.
  intros Ho Hp Hoall Hpall op' pp'. split; [split|].
  - subst op'. destruct (exists_last Ho) as (es & e & ->).
    apply Forall_app in Hoall as [_ He]. apply Forall_inv in He.
    rewrite overlay_run_app. cbn [OverlayPage.run fold_left].
    apply chooser_change_ready_overlay, He.
  - subst pp'. destruct (exists_last Hp) as (es & e & ->).
    apply Forall_app in Hpall as [_ He]. apply Forall_inv in He.
    rewrite panel_run_app. cbn [PanelPage.run fold_left].
    apply chooser_change_ready, He.
  - cbn. repeat split; reflexivity.
Qed.

Lemma upload_enabled_with_both_files_witness :
  let ch := {| pdfFile := None; audioFile := None; pdfLabel := [];
               audioLabel := []; pdfChip_selected := false;
               audioChip_selected := false |} in
  let pl := {| nightMode := false; speedIdx := 1; playbackRate := lit 1 0;
               paused := true; volume := lit 1 0; muted := false;
               duration := NaN |} in
  Panel.uploadBtn_disabled
    (PanelPage.client
       (PanelPage.run (fun s => s) (fun _ => [])
          [PanelPage.PdfChange (Some (str "a.pdf"));
           PanelPage.AudioChange (Some (str "a.mp3"))]
          {| PanelPage.client := Panel.blank ∅; PanelPage.chooser := ch;
             PanelPage.player := pl |}))
  = negb true.
Proof.
  cbv zeta.
  refine (proj2 (proj1
    (upload_enabled_with_both_files (fun s => s) (fun _ => [])
       [OverlayPage.PdfChange None]
       [PanelPage.PdfChange (Some (str "a.pdf"));
        PanelPage.AudioChange (Some (str "a.mp3"))]
       (str "a.pdf")
       {| OverlayPage.client := Overlay.blank ∅;
          OverlayPage.chooser :=
            {| pdfFile := None; audioFile := None; pdfLabel := [];
               audioLabel := []; pdfChip_selected := false;
               audioChip_selected := false |};
          OverlayPage.player :=
            {| nightMode := false; speedIdx := 1; playbackRate := lit 1 0;
               paused := true; volume := lit 1 0; muted := false;
               duration := NaN |};
          OverlayPage.saveThrottle := 0 |}
       {| PanelPage.client := Panel.blank ∅;
          PanelPage.chooser :=
            {| pdfFile := None; audioFile := None; pdfLabel := [];
               audioLabel := []; pdfChip_selected := false;
               audioChip_selected := false |};
          PanelPage.player :=
            {| nightMode := false; speedIdx := 1; playbackRate := lit 1 0;
               paused := true; volume := lit 1 0; muted := false;
               duration := NaN |} |} _ _ _ _))).
  - discriminate.
  - discriminate.
  - repeat constructor.
  - repeat constructor.
Defined.

(** ** The volume keys *)

Lemma tenth_is_positive : exists my ey, lit 1 (-1) = S754_finite false my ey.
Proof. vm_compute. eauto. Qed.

Lemma plus_signed_ge_zero (x : number) :
  plus_signed x = true -> is_nan x = false /\ le (lit 0 0) x = true.
Proof.
  destruct x as [[|]|[|]| |[|] m e]; try discriminate; intros _; split; reflexivity.
Qed.

(** X22. ArrowUp never throws and never leaves the range of the volume:
    from a volume that is not negative, the new volume is the smaller of
    [1] and the old volume plus [0.1], and it lies between [0] and [1]. *)
Theorem volume_up_stays_in_range (pl : Player) :
  le (lit 0 0) (volume pl) = true ->
  let pl' := control_key ArrowUp pl in
  volume pl' = math_min (lit 1 0) (add (volume pl) (lit 1 (-1)))
  /\ le (lit 0 0) (volume pl') = true
  /\ le (volume pl') (lit 1 0) = true.
Proof.
  intros Hv pl'. subst pl'. cbn [control_key].
  destruct tenth_is_positive as (my & ey & E). rewrite E.
  pose proof (add_plus_signed _ my ey Hv) as Hs.
  destruct (plus_signed_ge_zero _ Hs) as [Hn H0].
  set (x := add (volume pl) (S754_finite false my ey)) in *.
  assert (Hmin : math_min (lit 1 0) x = if lt x (lit 1 0) then x else lit 1 0).
  { unfold math_min. rewrite Hn. reflexivity. }
  assert (Hnn : is_nan (math_min (lit 1 0) x) = false).
  { rewrite Hmin. destruct (lt x (lit 1 0)); [exact Hn|reflexivity]. }
  assert (Hlo : le (lit 0 0) (math_min (lit 1 0) x) = true).
  { rewrite Hmin. destruct (lt x (lit 1 0)); [exact H0|reflexivity]. }
  pose proof (math_min_le _ _ Hnn) as Hhi.
  unfold set_volume. rewrite Hlo, Hhi. cbn [andb default volume]. auto.
Qed.

Lemma volume_up_stays_in_range_witness :
  volume (control_key ArrowUp
            {| nightMode := false; speedIdx := 1; playbackRate := lit 1 0;
               paused := true; volume := lit 95 (-2); muted := false;
               duration := NaN |})
  = lit 1 0.
Proof.
  refine (eq_trans (proj1 (volume_up_stays_in_range
    {| nightMode := false; speedIdx := 1; playbackRate := lit 1 0;
       paused := true; volume := lit 95 (-2); muted := false;
       duration := NaN |} _)) _); vm_compute; reflexivity.
Defined.

(** ** Hidden captions *)

Lemma panel_sync_set_visible (pdf captions : bool) (c : Panel.Client) :
  Panel.synccaptions (PanelPage.set_visible pdf captions c)
  = PanelPage.set_visible pdf captions (Panel.synccaptions c).
Proof.
  unfold Panel.synccaptions.
  change (Panel.frame_index (PanelPage.set_visible pdf captions c))
    with (Panel.frame_index c).
  destruct (Panel.frame_index c) as [idx|]; [|reflexivity].
  change (Panel.activeLine (PanelPage.set_visible pdf captions c))
    with (Panel.activeLine c).
  change (Panel.lines (PanelPage.set_visible pdf captions c)) with (Panel.lines c).
  destruct (negb (idx =? -1) && _); [reflexivity|].
  destruct ((idx =? -1) && _); reflexivity.
Qed.

(** X23. While the captions are hidden the overlay revision does not
    follow the audio: over any run of frames the segments, the active
    index and the caption text stay as they were.  The panel revision
    keeps following it: a frame does the same to the lines whether the
    panels are visible or not. *)
Theorem hidden_captions_freeze_overlay_only (clocks : list number)
    (oc : Overlay.Client) (pdf captions : bool) (pc : Panel.Client) :
  Overlay.captionsVisible oc = false ->
  let oc' := fold_left (fun c clock => OverlayRun.frame clock c) clocks oc in
  (Overlay.segments oc' = Overlay.segments oc
   /\ Overlay.activeIdx oc' = Overlay.activeIdx oc
   /\ Overlay.captionText oc' = Overlay.captionText oc
   /\ Overlay.captionsVisible oc' = false)
  /\ Panel.synccaptions (PanelPage.set_visible pdf captions pc)
     = PanelPage.set_visible pdf captions (Panel.synccaptions pc).
Proof.
  intros Hv oc'. split; [|apply panel_sync_set_visible].
  subst oc'. revert oc Hv. induction clocks as [|clock clocks IH]; intros oc Hv.
  - cbn. auto.
  - cbn [fold_left].
    assert (Hf : OverlayRun.frame clock oc = Overlay.set_currentTime clock oc).
    { unfold OverlayRun.frame, Overlay.synccaptions, Overlay.frame_index.
      cbn [Overlay.captionsVisible Overlay.set_currentTime]. rewrite Hv.
      rewrite orb_true_r. reflexivity. }
    rewrite Hf. apply (IH (Overlay.set_currentTime clock oc)). exact Hv.
Qed.

Lemma hidden_captions_freeze_overlay_only_witness :
  let shown := Overlay.buildcaptions
      (Some {| t_segments := Some
         [ {| raw_text := Some (str "one"); raw_start := lit 0 0;
              raw_end := lit 2 0; words := None |};
           {| raw_text := Some (str "two"); raw_start := lit 2 0;
              raw_end := lit 4 0; words := None |} ] |})
      (Overlay.blank ∅) in
  let hidden := OverlayPage.toggle_captions (OverlayRun.frame (lit 1 0) shown) in
  Overlay.activeIdx
    (fold_left (fun c clock => OverlayRun.frame clock c) [lit 3 0; lit 5 0] hidden)
  = 0.
Proof.
  cbv zeta.
  refine (eq_trans (proj1 (proj2 (proj1
    (hidden_captions_freeze_overlay_only [lit 3 0; lit 5 0] _ true true
       (Panel.blank ∅) _)))) _); vm_compute; reflexivity.
Defined.

(** ** The reader *)


